(** * BSD socket service client (nx/source/services/bsd.c)

    A shallow embedding of the marshalling layer of the BSD sockets
    service client: the transfer-memory size computation, the command
    encoders of the socket operations, the dispatch / reply-decoding
    helpers and the two variadic adapters (ioctl, fcntl).

    Integers are [Z] with the C wrap-around written out; caller memory is
    a finite map from addresses to typed objects; the operations live in
    a small state-and-error monad whose state carries [errno], the caller
    memory and a record of what reached the transport. *)

From Stdlib Require Import ZArith Lia Bool.
From stdpp Require Import base option gmap strings list.

Local Open Scope Z_scope.

(** ** Machine integers *)

Module Bits.

(** Conversion to [u32]: reduction modulo 2^32. *)
Definition u32 (z : Z) : Z := z mod 2 ^ 32.

(** Conversion to [u64] / [size_t] (the target is LP64). *)
Definition u64 (z : Z) : Z := z mod 2 ^ 64.

(** Conversion to [int]: the two's complement reading of the low 32 bits. *)
Definition to_int (z : Z) : Z := (z + 2 ^ 31) mod 2 ^ 32 - 2 ^ 31.

Definition is_u32 (z : Z) : Prop := 0 <= z < 2 ^ 32.
Definition is_int (z : Z) : Prop := - 2 ^ 31 <= z < 2 ^ 31.

End Bits.
Import Bits.

(** ** Buffer-size configuration and transfer-memory size *)

(** [BsdBufferConfig] is declared in services/bsd.h; its eight fields are
    32-bit unsigned, like the locals that receive them in
    [_bsdGetTransferMemSizeForConfig]. *)
Record BsdBufferConfig := {
  version : Z;
  tcp_tx_buf_size : Z;
  tcp_rx_buf_size : Z;
  tcp_tx_buf_max_size : Z;
  tcp_rx_buf_max_size : Z;
  udp_tx_buf_size : Z;
  udp_rx_buf_size : Z;
  sb_efficiency : Z
}.

Definition g_defaultBsdBufferConfig : BsdBufferConfig := {|
  version := 1;
  tcp_tx_buf_size := 0x8000;
  tcp_rx_buf_size := 0x10000;
  tcp_tx_buf_max_size := 0x40000;
  tcp_rx_buf_max_size := 0x40000;
  udp_tx_buf_size := 0x2400;
  udp_rx_buf_size := 0xA500;
  sb_efficiency := 4
|}.

(** The names of the fields, to speak of "one field" of a configuration. *)
Inductive config_field :=
| Fversion | Ftcp_tx_buf_size | Ftcp_rx_buf_size
| Ftcp_tx_buf_max_size | Ftcp_rx_buf_max_size
| Fudp_tx_buf_size | Fudp_rx_buf_size | Fsb_efficiency.

#[global] Instance config_field_eq_dec : EqDecision config_field.
Proof. solve_decision. Defined.

Definition config_get (f : config_field) (c : BsdBufferConfig) : Z :=
  match f with
  | Fversion => version c
  | Ftcp_tx_buf_size => tcp_tx_buf_size c
  | Ftcp_rx_buf_size => tcp_rx_buf_size c
  | Ftcp_tx_buf_max_size => tcp_tx_buf_max_size c
  | Ftcp_rx_buf_max_size => tcp_rx_buf_max_size c
  | Fudp_tx_buf_size => udp_tx_buf_size c
  | Fudp_rx_buf_size => udp_rx_buf_size c
  | Fsb_efficiency => sb_efficiency c
  end.

(** Every field holds a [u32]. *)
Definition wf_config (c : BsdBufferConfig) : Prop :=
  forall f, is_u32 (config_get f c).

(** [c1] and [c2] agree on every field except possibly [f]. *)
Definition agree_except (f : config_field) (c1 c2 : BsdBufferConfig) : Prop :=
  forall g, g <> f -> config_get g c1 = config_get g c2.

(** [_bsdGetTransferMemSizeForConfig]: all arithmetic is on [u32]; the
    product is converted to [size_t] on return. *)
Definition _bsdGetTransferMemSizeForConfig (config : BsdBufferConfig) : Z :=
  let tcp_tx_buf_max_size :=
    if negb (tcp_tx_buf_max_size config =? 0)
    then tcp_tx_buf_max_size config else tcp_tx_buf_size config in
  let tcp_rx_buf_max_size :=
    if negb (tcp_rx_buf_max_size config =? 0)
    then tcp_rx_buf_max_size config else tcp_rx_buf_size config in
  let sum :=
    u32 (u32 (u32 (tcp_tx_buf_max_size + tcp_rx_buf_max_size)
              + udp_tx_buf_size config)
         + udp_rx_buf_size config) in
  let sum := u32 (Z.shiftl (Z.shiftr (u32 (sum + 0xFFF)) 12) 12) in
  u64 (u32 (sb_efficiency config * sum)).

(** The formula as the specification words it, over unbounded integers. *)
Definition roundUpToPage (n : Z) : Z := (n + 4095) / 4096 * 4096.

Definition spec_maxTcpTx (c : BsdBufferConfig) : Z :=
  if tcp_tx_buf_max_size c =? 0 then tcp_tx_buf_size c else tcp_tx_buf_max_size c.

Definition spec_maxTcpRx (c : BsdBufferConfig) : Z :=
  if tcp_rx_buf_max_size c =? 0 then tcp_rx_buf_size c else tcp_rx_buf_max_size c.

Definition spec_sum (c : BsdBufferConfig) : Z :=
  spec_maxTcpTx c + spec_maxTcpRx c + udp_tx_buf_size c + udp_rx_buf_size c.

Definition computeTransferMemorySize_spec (c : BsdBufferConfig) : Z :=
  roundUpToPage (spec_sum c) * sb_efficiency c.

(** No 32-bit wrap-around occurs while the size of [c] is computed. *)
Definition no_overflow (c : BsdBufferConfig) : bool :=
  (spec_sum c + 0xFFF <? 2 ^ 32)
  && (sb_efficiency c * roundUpToPage (spec_sum c) <? 2 ^ 32).

(** A configuration whose sum does not fit once the page offset is added. *)
Definition overflowing_config : BsdBufferConfig := {|
  version := 1;
  tcp_tx_buf_size := 0;
  tcp_rx_buf_size := 0;
  tcp_tx_buf_max_size := 0xFFFFFFFF;
  tcp_rx_buf_max_size := 0;
  udp_tx_buf_size := 0;
  udp_rx_buf_size := 0;
  sb_efficiency := 1
|}.

(** Two configurations that differ only in [tcp_tx_buf_max_size]. *)
Definition fixed_tx_config : BsdBufferConfig := {|
  version := 1;
  tcp_tx_buf_size := 0x10000;
  tcp_rx_buf_size := 0;
  tcp_tx_buf_max_size := 0;
  tcp_rx_buf_max_size := 0;
  udp_tx_buf_size := 0;
  udp_rx_buf_size := 0;
  sb_efficiency := 1
|}.

Definition capped_tx_config : BsdBufferConfig := {|
  version := 1;
  tcp_tx_buf_size := 0x10000;
  tcp_rx_buf_size := 0;
  tcp_tx_buf_max_size := 1;
  tcp_rx_buf_max_size := 0;
  udp_tx_buf_size := 0;
  udp_rx_buf_size := 0;
  sb_efficiency := 1
|}.

(** The default configuration with the efficiency factor doubled. *)
Definition doubled_efficiency_config : BsdBufferConfig := {|
  version := 1;
  tcp_tx_buf_size := 0x8000;
  tcp_rx_buf_size := 0x10000;
  tcp_tx_buf_max_size := 0x40000;
  tcp_rx_buf_max_size := 0x40000;
  udp_tx_buf_size := 0x2400;
  udp_rx_buf_size := 0xA500;
  sb_efficiency := 8
|}.

(** The default configuration under version 2 of the record. *)
Definition second_version_config : BsdBufferConfig := {|
  version := 2;
  tcp_tx_buf_size := 0x8000;
  tcp_rx_buf_size := 0x10000;
  tcp_tx_buf_max_size := 0x40000;
  tcp_rx_buf_max_size := 0x40000;
  udp_tx_buf_size := 0x2400;
  udp_rx_buf_size := 0xA500;
  sb_efficiency := 4
|}.

(** ** Constants of the platform headers *)

(** The request codes, [errno] values, structure sizes and the IPC magic
    come from headers that are not part of this file ([fcntl.h],
    [sys/ioctl.h], [net/if.h], [net/if_media.h], [errno.h], [ipc.h]); the
    embedding takes them as parameters. *)
Class Headers := {
  SFCI_MAGIC : Z;
  EPIPE : Z;
  F_GETFL : Z;
  F_SETFL : Z;
  SIOCGIFCONF : Z;
  SIOCGIFMEDIA : Z;
  SIOCGIFXMEDIA : Z;
  IOC_IN : Z;
  IOC_OUT : Z;
  IOC_INOUT : Z;
  IOCPARM_LEN : Z -> Z;
  sizeof_fd_set : Z;
  sizeof_pollfd : Z;
  sizeof_ifconf : Z;
  sizeof_ifmediareq : Z
}.

(** The values of a BSD-style LP64 C library, used to run the model. *)
Definition bsd_lp64_headers : Headers := {|
  SFCI_MAGIC := 0x49434653;
  EPIPE := 32;
  F_GETFL := 3;
  F_SETFL := 4;
  SIOCGIFCONF := 0xC0106924;
  SIOCGIFMEDIA := 0xC0306938;
  SIOCGIFXMEDIA := 0xC030698B;
  IOC_IN := 0x80000000;
  IOC_OUT := 0x40000000;
  IOC_INOUT := 0xC0000000;
  IOCPARM_LEN := fun x => Z.land (Z.shiftr x 16) 0x1FFF;
  sizeof_fd_set := 128;
  sizeof_pollfd := 8;
  sizeof_ifconf := 16;
  sizeof_ifmediareq := 48
|}.

(** Modelled from the spec: result.h is not among the sources. A [Result]
    is a 32-bit status code; zero is success, anything else a failure. *)
Definition R_SUCCEEDED (res : Z) : bool := res =? 0.
Definition R_FAILED (res : Z) : bool := negb (res =? 0).

(** ** Caller memory *)

Definition ptr := Z.
Definition NULL : ptr := 0.

(** The objects the client code reads or writes through a pointer. The
    payload buffers are only ever passed on as addresses and need no
    representation. Of [struct ifconf] and [struct ifmediareq] only the
    fields the code reads are kept. *)
Inductive object :=
| Osocklen (v : Z)
| Osize (v : Z)
| Otimeval (tv_sec tv_usec : Z)
| Oifconf (ifc_len : Z) (ifc_req : ptr)
| Oifmediareq (ifm_count : Z) (ifm_ulist : ptr)
| Ostring (bytes : list Z).

(** One variadic argument. *)
Inductive vararg :=
| VaInt (v : Z)
| VaPtr (p : ptr).

(** ** Commands and replies *)

Inductive desc_kind := SendBuffer | SendStatic | RecvBuffer | RecvStatic.

Definition is_receive (k : desc_kind) : bool :=
  match k with RecvBuffer | RecvStatic => true | _ => false end.

(** A buffer descriptor: which primitive attached it, the address, the
    byte length and the last argument of the primitive (the buffer type
    of a dynamic descriptor, the index of a static one). *)
Record desc := {
  d_kind : desc_kind;
  d_ptr : ptr;
  d_size : Z;
  d_flag : Z
}.

(** Modelled from the spec: ipc.h is not among the sources. A command
    under construction is the ordered list of the buffer descriptors
    attached so far, in the order of the attaching calls. *)
Definition IpcCommand := list desc.

(** The message handed to the transport: the descriptors and the fixed
    header, field by field. *)
Record message := {
  m_descs : list desc;
  m_raw : list (string * Z)
}.

(** The reply: [BsdIpcResponseBase] followed by the eight bytes that the
    operations with a trailing field overlay with it. *)
Record BsdIpcResponse := {
  magic : Z;
  result : Z;
  ret : Z;
  errno_ : Z;
  trailing : Z
}.

(** What one dispatch over the channel yields: the [Result] of the
    transport call, the reply left in the message buffer, and the data
    the server wrote into the receive buffers of the command, as the
    objects it left at their addresses. *)
Record outcome := {
  o_rc : Z;
  o_reply : BsdIpcResponse;
  o_data : list (ptr * object)
}.

Definition transport := message -> outcome.

(** The command supplies a receive buffer of nonzero length. *)
Definition supplies_receive_buffer (m : message) : bool :=
  existsb (fun d => is_receive (d_kind d) && negb (d_size d =? 0)) (m_descs m).

(** The objects of [data] replace the objects the memory holds at their
    addresses, in order; an address that holds no object is skipped. *)
Definition overwrite (data : list (ptr * object)) (mu : gmap Z object)
  : gmap Z object :=
  foldl (fun acc po => match acc !! po.1 with
                       | Some _ => <[po.1 := po.2]> acc
                       | None => acc
                       end) mu data.

(** Modelled from the spec: a reply includes data written into the
    receive buffers supplied in the command. Which of the caller's
    objects a receive buffer covers depends on the layout of memory,
    which is not fixed here: when the command supplies a receive buffer
    the server may overwrite any object the memory holds; it cannot
    create or remove one. A command without a receive buffer leaves the
    caller's memory alone. *)
Definition deliver (m : message) (data : list (ptr * object))
           (mu : gmap Z object) : gmap Z object :=
  if supplies_receive_buffer m then overwrite data mu else mu.

Arguments deliver : simpl never.

(** ** Program state *)

Record world := {
  errno : Z;
  mem : gmap Z object;
  msgbuf : message;
  inbox : BsdIpcResponse;
  sent : list message;
  parsed : nat;
  stores : list (ptr * object)
}.

Definition set_errno (e : Z) (w : world) : world :=
  {| errno := e; mem := mem w; msgbuf := msgbuf w; inbox := inbox w;
     sent := sent w; parsed := parsed w; stores := stores w |}.

Definition set_msgbuf (m : message) (w : world) : world :=
  {| errno := errno w; mem := mem w; msgbuf := m; inbox := inbox w;
     sent := sent w; parsed := parsed w; stores := stores w |}.

Definition record_dispatch (o : outcome) (w : world) : world :=
  {| errno := errno w; mem := deliver (msgbuf w) (o_data o) (mem w);
     msgbuf := msgbuf w; inbox := o_reply o;
     sent := msgbuf w :: sent w; parsed := parsed w; stores := stores w |}.

Definition record_parse (w : world) : world :=
  {| errno := errno w; mem := mem w; msgbuf := msgbuf w; inbox := inbox w;
     sent := sent w; parsed := S (parsed w); stores := stores w |}.

Definition record_store (p : ptr) (o : object) (w : world) : world :=
  {| errno := errno w; mem := <[p := o]> (mem w); msgbuf := msgbuf w;
     inbox := inbox w; sent := sent w; parsed := parsed w;
     stores := (p, o) :: stores w |}.

(** ** The monad of the operations

    A computation takes the state and either yields a value and a new
    state, or has no defined behaviour ([None]): a load or store through
    a pointer that holds no object of the expected type, or [va_arg] on
    an exhausted or ill-typed argument list. *)

Definition M (A : Type) : Type := world -> option (A * world).

Definition ret_M {A} (a : A) : M A := fun w => Some (a, w).

Definition bind_M {A B} (m : M A) (k : A -> M B) : M B :=
  fun w => match m w with
           | Some (a, w') => k a w'
           | None => None
           end.

Definition undefined {A} : M A := fun _ => None.

Notation "'let*' x ':=' m 'in' k" :=
  (bind_M m (fun x => k))
  (at level 10, x name, m at level 100, k at level 200).

Notation "'let*' ' p ':=' m 'in' k" :=
  (bind_M m (fun x => match x with p => k end))
  (at level 10, p pattern, m at level 100, k at level 200).

Definition write_errno (e : Z) : M unit := fun w => Some (tt, set_errno e w).

Definition load (p : ptr) : M object :=
  fun w => match mem w !! p with
           | Some o => Some (o, w)
           | None => None
           end.

Definition store (p : ptr) (o : object) : M unit :=
  fun w => match mem w !! p with
           | Some _ => Some (tt, record_store p o w)
           | None => None
           end.

Definition load_socklen (p : ptr) : M Z :=
  let* o := load p in
  match o with Osocklen v => ret_M v | _ => undefined end.

Definition load_size (p : ptr) : M Z :=
  let* o := load p in
  match o with Osize v => ret_M v | _ => undefined end.

Definition load_timeval (p : ptr) : M (Z * Z) :=
  let* o := load p in
  match o with Otimeval s u => ret_M (s, u) | _ => undefined end.

Definition load_ifconf (p : ptr) : M (Z * ptr) :=
  let* o := load p in
  match o with Oifconf l r => ret_M (l, r) | _ => undefined end.

Definition load_ifmediareq (p : ptr) : M (Z * ptr) :=
  let* o := load p in
  match o with Oifmediareq n u => ret_M (n, u) | _ => undefined end.

(** [strnlen]: the bytes before the terminator, at most [maxlen]. *)
Definition strnlen (p : ptr) (maxlen : Z) : M Z :=
  let* o := load p in
  match o with
  | Ostring bytes => ret_M (Z.min (Z.of_nat (length bytes)) maxlen)
  | _ => undefined
  end.

(** [va_arg(args, void * )] and [va_arg(args, int)]. *)
Definition va_arg_ptr (args : list vararg) : M (ptr * list vararg) :=
  match args with
  | VaPtr p :: rest => ret_M (p, rest)
  | _ => undefined
  end.

Definition va_arg_int (args : list vararg) : M (Z * list vararg) :=
  match args with
  | VaInt v :: rest => ret_M (v, rest)
  | _ => undefined
  end.

(** ** The IPC primitives *)

(** Modelled from the spec: [ipcInitialize] of ipc.h, which is not among
    the sources; a fresh command has no buffer descriptor. *)
Definition ipcInitialize : IpcCommand := [].

(** Modelled from the spec: [ipcAddSendBuffer] of ipc.h attaches a
    dynamic descriptor the server reads from. *)
Definition ipcAddSendBuffer (c : IpcCommand) (buffer : ptr) (size type : Z)
  : IpcCommand :=
  c ++ [{| d_kind := SendBuffer; d_ptr := buffer; d_size := size; d_flag := type |}].

(** Modelled from the spec: [ipcAddRecvBuffer] of ipc.h attaches a
    dynamic descriptor the server writes to. *)
Definition ipcAddRecvBuffer (c : IpcCommand) (buffer : ptr) (size type : Z)
  : IpcCommand :=
  c ++ [{| d_kind := RecvBuffer; d_ptr := buffer; d_size := size; d_flag := type |}].

(** Modelled from the spec: [ipcAddSendStatic] of ipc.h attaches the
    static view of memory the server reads from. *)
Definition ipcAddSendStatic (c : IpcCommand) (buffer : ptr) (size index : Z)
  : IpcCommand :=
  c ++ [{| d_kind := SendStatic; d_ptr := buffer; d_size := size; d_flag := index |}].

(** Modelled from the spec: [ipcAddRecvStatic] of ipc.h attaches the
    static view of memory the server writes to. *)
Definition ipcAddRecvStatic (c : IpcCommand) (buffer : ptr) (size index : Z)
  : IpcCommand :=
  c ++ [{| d_kind := RecvStatic; d_ptr := buffer; d_size := size; d_flag := index |}].

(** Modelled from the spec: [ipcPrepareHeader] of ipc.h lays the command
    out in the thread's message buffer; the assignments to the fields of
    [raw] that follow it in each operation are given here as the list of
    the fields. *)
Definition ipcPrepareHeader (c : IpcCommand) (raw : list (string * Z)) : M unit :=
  fun w => Some (tt, set_msgbuf {| m_descs := c; m_raw := raw |} w).

Section Operations.

Context `{Headers}.
Variable srv : transport.

(** Modelled from the spec: [serviceIpcDispatch(&g_bsdSrv)], the
    transport's dispatch primitive; the message buffer goes to the
    server, the reply replaces it, the data of the reply is delivered
    into the caller's memory through the receive buffers of the message,
    and the [Result] is returned. *)
Definition serviceIpcDispatch : M Z :=
  fun w => let o := srv (msgbuf w) in Some (o_rc o, record_dispatch o w).

(** Modelled from the spec: [ipcParse] of ipc.h decodes the reply held
    by the message buffer. *)
Definition ipcParse : M BsdIpcResponse :=
  fun w => Some (inbox w, record_parse w).

(** Returns [ret] together with the local [r], which the source copies
    to [*rOut] when [rOut] is not null; [r] is [None] while it is still
    uninitialised. The parameter [c] is unused, as in the source. *)
Definition _bsdDispatchBasicCommand (c : IpcCommand)
  : M (Z * option BsdIpcResponse) :=
  let* rc := serviceIpcDispatch in
  let* '(rc, ret, r) :=
    (if R_SUCCEEDED rc then
       let* resp := ipcParse in
       let rc := u32 (result resp) in
       if R_SUCCEEDED rc then
         let* _ := write_errno (errno_ resp) in
         ret_M (rc, ret resp, Some resp)
       else ret_M (rc, -1, Some resp)
     else ret_M (rc, -1, None)) in
  let* _ := (if R_FAILED rc then write_errno EPIPE else ret_M tt) in
  ret_M (ret, r).

(** [addrlen] is the caller's pointer; the trailing [socklen_t] is the
    low half of the eight bytes after the base reply. *)
Definition _bsdDispatchCommandWithOutAddrlen (c : IpcCommand) (addrlen : ptr)
  : M Z :=
  let* '(ret, r) := _bsdDispatchBasicCommand c in
  let* _ :=
    (if negb (ret =? -1) && negb (addrlen =? NULL) then
       match r with
       | Some resp => store addrlen (Osocklen (u32 (trailing resp)))
       | None => undefined
       end
     else ret_M tt) in
  ret_M ret.

Definition _bsdNameGetterCommand (cmd_id sockfd : Z) (addr addrlen : ptr)
  : M Z :=
  let c := ipcInitialize in
  let* maxaddrlen :=
    (if addrlen =? NULL then ret_M 0 else load_socklen addrlen) in
  let c := ipcAddRecvBuffer c addr maxaddrlen 0 in
  let c := ipcAddRecvStatic c addr maxaddrlen 0 in
  let* _ := ipcPrepareHeader c
    [("magic", SFCI_MAGIC); ("cmd_id", cmd_id); ("sockfd", sockfd)] in
  _bsdDispatchCommandWithOutAddrlen c addrlen.

Definition _bsdSocketCreationCommand (cmd_id domain type protocol : Z) : M Z :=
  let c := ipcInitialize in
  let* _ := ipcPrepareHeader c
    [("magic", SFCI_MAGIC); ("cmd_id", cmd_id); ("domain", domain);
     ("type", type); ("protocol", protocol)] in
  let* '(ret, _) := _bsdDispatchBasicCommand c in
  ret_M ret.

Definition bsdSocket (domain type protocol : Z) : M Z :=
  _bsdSocketCreationCommand 2 domain type protocol.

Definition bsdSocketExempt (domain type protocol : Z) : M Z :=
  _bsdSocketCreationCommand 3 domain type protocol.

Definition bsdOpen (pathname : ptr) (flags : Z) : M Z :=
  let c := ipcInitialize in
  let* pathlen := strnlen pathname 256 in
  let c := ipcAddSendBuffer c pathname pathlen 0 in
  let c := ipcAddSendStatic c pathname pathlen 0 in
  let* _ := ipcPrepareHeader c
    [("magic", SFCI_MAGIC); ("cmd_id", 4); ("flags", flags)] in
  let* '(ret, _) := _bsdDispatchBasicCommand c in
  ret_M ret.

(** The header's [timeout] is assigned only when the caller's pointer
    is not null; otherwise its two fields are not part of what the code
    wrote. *)
Definition bsdSelect (nfds : Z) (readfds writefds exceptfds timeout : ptr)
  : M Z :=
  let c := ipcInitialize in
  let c := ipcAddSendBuffer c readfds sizeof_fd_set 0 in
  let c := ipcAddSendStatic c readfds sizeof_fd_set 0 in
  let c := ipcAddSendBuffer c writefds sizeof_fd_set 0 in
  let c := ipcAddSendStatic c writefds sizeof_fd_set 0 in
  let c := ipcAddSendBuffer c exceptfds sizeof_fd_set 0 in
  let c := ipcAddSendStatic c exceptfds sizeof_fd_set 0 in
  let c := ipcAddRecvBuffer c readfds sizeof_fd_set 0 in
  let c := ipcAddRecvStatic c readfds sizeof_fd_set 0 in
  let c := ipcAddRecvBuffer c writefds sizeof_fd_set 0 in
  let c := ipcAddRecvStatic c writefds sizeof_fd_set 0 in
  let c := ipcAddRecvBuffer c exceptfds sizeof_fd_set 0 in
  let c := ipcAddRecvStatic c exceptfds sizeof_fd_set 0 in
  let nullTimeout := timeout =? NULL in
  let* tv :=
    (if negb nullTimeout then
       let* '(s, u) := load_timeval timeout in
       ret_M [("timeout.tv_sec", s); ("timeout.tv_usec", u)]
     else ret_M []) in
  let* _ := ipcPrepareHeader c
    ([("magic", SFCI_MAGIC); ("cmd_id", 5); ("nfds", nfds)] ++ tv
     ++ [("nullTimeout", if nullTimeout then 1 else 0)]) in
  let* '(ret, _) := _bsdDispatchBasicCommand c in
  ret_M ret.

Definition bsdPoll (fds : ptr) (nfds timeout : Z) : M Z :=
  let c := ipcInitialize in
  let c := ipcAddSendBuffer c fds sizeof_pollfd 0 in
  let c := ipcAddSendStatic c fds sizeof_pollfd 0 in
  let c := ipcAddRecvBuffer c fds sizeof_pollfd 0 in
  let c := ipcAddRecvStatic c fds sizeof_pollfd 0 in
  let* _ := ipcPrepareHeader c
    [("magic", SFCI_MAGIC); ("cmd_id", 6); ("nfds", nfds);
     ("timeout", timeout)] in
  let* '(ret, _) := _bsdDispatchBasicCommand c in
  ret_M ret.

(** [namelen] is an [unsigned int], so [4 * namelen] wraps at 32 bits
    before it widens to [size_t]. *)
Definition bsdSysctl (name : ptr) (namelen : Z) (oldp oldlenp newp : ptr)
           (newlen : Z) : M Z :=
  let* inlen := (if oldlenp =? NULL then ret_M 0 else load_size oldlenp) in
  let c := ipcInitialize in
  let c := ipcAddSendBuffer c name (u32 (4 * namelen)) 0 in
  let c := ipcAddSendStatic c name (u32 (4 * namelen)) 0 in
  let c := ipcAddSendBuffer c newp newlen 0 in
  let c := ipcAddSendStatic c newp newlen 0 in
  let c := ipcAddRecvBuffer c oldp inlen 0 in
  let c := ipcAddRecvStatic c oldp inlen 0 in
  let* _ := ipcPrepareHeader c [("magic", SFCI_MAGIC); ("cmd_id", 7)] in
  let* '(ret, r) := _bsdDispatchBasicCommand c in
  let* _ :=
    (if negb (ret =? -1) && negb (oldlenp =? NULL) then
       match r with
       | Some resp => store oldlenp (Osize (trailing resp))
       | None => undefined
       end
     else ret_M tt) in
  ret_M ret.

Definition bsdRecv (sockfd : Z) (buf : ptr) (len flags : Z) : M Z :=
  let c := ipcInitialize in
  let c := ipcAddRecvBuffer c buf len 0 in
  let c := ipcAddRecvStatic c buf len 0 in
  let* _ := ipcPrepareHeader c
    [("magic", SFCI_MAGIC); ("cmd_id", 8); ("sockfd", sockfd);
     ("flags", flags)] in
  let* '(ret, _) := _bsdDispatchBasicCommand c in
  ret_M ret.

Definition bsdRecvFrom (sockfd : Z) (buf : ptr) (len flags : Z)
           (src_addr addrlen : ptr) : M Z :=
  let* inaddrlen :=
    (if addrlen =? NULL then ret_M 0 else load_socklen addrlen) in
  let c := ipcInitialize in
  let c := ipcAddRecvBuffer c buf len 0 in
  let c := ipcAddRecvStatic c buf len 0 in
  let c := ipcAddRecvBuffer c src_addr inaddrlen 0 in
  let c := ipcAddRecvBuffer c src_addr inaddrlen 0 in
  let* _ := ipcPrepareHeader c
    [("magic", SFCI_MAGIC); ("cmd_id", 9); ("sockfd", sockfd);
     ("flags", flags)] in
  _bsdDispatchCommandWithOutAddrlen c addrlen.

Definition bsdSend (sockfd : Z) (buf : ptr) (len flags : Z) : M Z :=
  let c := ipcInitialize in
  let c := ipcAddSendBuffer c buf len 0 in
  let c := ipcAddSendStatic c buf len 0 in
  let* _ := ipcPrepareHeader c
    [("magic", SFCI_MAGIC); ("cmd_id", 10); ("sockfd", sockfd);
     ("flags", flags)] in
  let* '(ret, _) := _bsdDispatchBasicCommand c in
  ret_M ret.

Definition bsdSendTo (sockfd : Z) (buf : ptr) (len flags : Z)
           (dest_addr : ptr) (addrlen : Z) : M Z :=
  let c := ipcInitialize in
  let c := ipcAddSendBuffer c buf len 0 in
  let c := ipcAddSendStatic c buf len 0 in
  let c := ipcAddSendBuffer c dest_addr addrlen 1 in
  let c := ipcAddSendStatic c dest_addr addrlen 1 in
  let* _ := ipcPrepareHeader c
    [("magic", SFCI_MAGIC); ("cmd_id", 11); ("sockfd", sockfd);
     ("flags", flags)] in
  let* '(ret, _) := _bsdDispatchBasicCommand c in
  ret_M ret.

Definition bsdAccept (sockfd : Z) (addr addrlen : ptr) : M Z :=
  _bsdNameGetterCommand 12 sockfd addr addrlen.

Definition bsdBind (sockfd : Z) (addr : ptr) (addrlen : Z) : M Z :=
  let c := ipcInitialize in
  let c := ipcAddSendBuffer c addr addrlen 0 in
  let c := ipcAddSendStatic c addr addrlen 0 in
  let* _ := ipcPrepareHeader c [("magic", SFCI_MAGIC); ("cmd_id", 13)] in
  let* '(ret, _) := _bsdDispatchBasicCommand c in
  ret_M ret.

Definition bsdConnect (sockfd : Z) (addr : ptr) (addrlen : Z) : M Z :=
  let c := ipcInitialize in
  let c := ipcAddSendBuffer c addr addrlen 0 in
  let c := ipcAddSendStatic c addr addrlen 0 in
  let* _ := ipcPrepareHeader c
    [("magic", SFCI_MAGIC); ("cmd_id", 14); ("sockfd", sockfd)] in
  let* '(ret, _) := _bsdDispatchBasicCommand c in
  ret_M ret.

Definition bsdGetPeerName (sockfd : Z) (addr addrlen : ptr) : M Z :=
  _bsdNameGetterCommand 15 sockfd addr addrlen.

Definition bsdGetSockName (sockfd : Z) (addr addrlen : ptr) : M Z :=
  _bsdNameGetterCommand 16 sockfd addr addrlen.

Definition bsdGetSockOpt (sockfd level optname : Z) (optval optlen : ptr)
  : M Z :=
  let c := ipcInitialize in
  let* inoptlen :=
    (if optlen =? NULL then ret_M 0 else load_socklen optlen) in
  let c := ipcAddRecvBuffer c optval inoptlen 0 in
  let c := ipcAddRecvStatic c optval inoptlen 0 in
  let* _ := ipcPrepareHeader c
    [("magic", SFCI_MAGIC); ("cmd_id", 17); ("sockfd", sockfd);
     ("level", level); ("optname", optname)] in
  let* '(ret, _) := _bsdDispatchBasicCommand c in
  ret_M ret.

Definition bsdListen (sockfd backlog : Z) : M Z :=
  let c := ipcInitialize in
  let* _ := ipcPrepareHeader c
    [("magic", SFCI_MAGIC); ("cmd_id", 18); ("sockfd", sockfd);
     ("backlog", backlog)] in
  let* '(ret, _) := _bsdDispatchBasicCommand c in
  ret_M ret.

(** The locals of [bsdIoctl_v]: four input and four output slots. They
    start out null and empty with [bufcount = 1]; a slot the [switch]
    does not assign keeps that value. *)
Record ioctl_locals := {
  in1 : ptr; in2 : ptr; in3 : ptr; in4 : ptr;
  in1sz : Z; in2sz : Z; in3sz : Z; in4sz : Z;
  out1 : ptr; out2 : ptr; out3 : ptr; out4 : ptr;
  out1sz : Z; out2sz : Z; out3sz : Z; out4sz : Z;
  bufcount : Z
}.

(** The two-buffer cases: header [data] of [hdrsz] bytes and a second
    buffer [second] of [secondsz] bytes, each both sent and received. *)
Definition ioctl_two (data : ptr) (hdrsz : Z) (second : ptr) (secondsz : Z)
  : ioctl_locals := {|
  in1 := data; in2 := second; in3 := NULL; in4 := NULL;
  in1sz := hdrsz; in2sz := secondsz; in3sz := 0; in4sz := 0;
  out1 := data; out2 := second; out3 := NULL; out4 := NULL;
  out1sz := hdrsz; out2sz := secondsz; out3sz := 0; out4sz := 0;
  bufcount := 2
|}.

(** The generic case: [data] is the input slot when the request has
    [IOC_IN], the output slot when it has [IOC_OUT]. *)
Definition ioctl_generic (request : Z) (data : ptr) : ioctl_locals := {|
  in1 := if negb (Z.land request IOC_IN =? 0) then data else NULL;
  in2 := NULL; in3 := NULL; in4 := NULL;
  in1sz := if negb (Z.land request IOC_IN =? 0)
           then u64 (IOCPARM_LEN request) else 0;
  in2sz := 0; in3sz := 0; in4sz := 0;
  out1 := if negb (Z.land request IOC_OUT =? 0) then data else NULL;
  out2 := NULL; out3 := NULL; out4 := NULL;
  out1sz := if negb (Z.land request IOC_OUT =? 0)
            then u64 (IOCPARM_LEN request) else 0;
  out2sz := 0; out3sz := 0; out4sz := 0;
  bufcount := 1
|}.

(** The [switch] of [bsdIoctl_v]. [request] is an [int] and the case
    labels are converted to it; [ifc_len] and [8 * ifm_count] are [int]
    values converted to [size_t]. *)
Definition ioctl_classify (request : Z) (args : list vararg) : M ioctl_locals :=
  if request =? to_int SIOCGIFCONF then
    let* '(data, _) := va_arg_ptr args in
    let* '(ifc_len, ifc_req) := load_ifconf data in
    ret_M (ioctl_two data sizeof_ifconf ifc_req (u64 ifc_len))
  else if (request =? to_int SIOCGIFMEDIA) || (request =? to_int SIOCGIFXMEDIA) then
    let* '(data, _) := va_arg_ptr args in
    let* '(ifm_count, ifm_ulist) := load_ifmediareq data in
    ret_M (ioctl_two data sizeof_ifmediareq ifm_ulist
                     (u64 (to_int (8 * ifm_count))))
  else
    let* data :=
      (if negb (Z.land request IOC_INOUT =? 0) then
         let* '(p, _) := va_arg_ptr args in ret_M p
       else ret_M NULL) in
    ret_M (ioctl_generic request data).

Definition bsdIoctl_v (fd request : Z) (args : list vararg) : M Z :=
  let* l := ioctl_classify request args in
  let c := ipcInitialize in
  let c := ipcAddSendBuffer c (in1 l) (in1sz l) 0 in
  let c := ipcAddSendStatic c (in1 l) (in1sz l) 0 in
  let c := ipcAddSendBuffer c (in2 l) (in2sz l) 0 in
  let c := ipcAddSendStatic c (in2 l) (in2sz l) 0 in
  let c := ipcAddSendBuffer c (in3 l) (in3sz l) 0 in
  let c := ipcAddSendStatic c (in3 l) (in3sz l) 0 in
  let c := ipcAddSendBuffer c (in4 l) (in4sz l) 0 in
  let c := ipcAddSendStatic c (in4 l) (in4sz l) 0 in
  let c := ipcAddRecvBuffer c (out1 l) (out1sz l) 0 in
  let c := ipcAddRecvStatic c (out1 l) (out1sz l) 0 in
  let c := ipcAddRecvBuffer c (out2 l) (out2sz l) 0 in
  let c := ipcAddRecvStatic c (out2 l) (out2sz l) 0 in
  let c := ipcAddRecvBuffer c (out3 l) (out3sz l) 0 in
  let c := ipcAddRecvStatic c (out3 l) (out3sz l) 0 in
  let c := ipcAddRecvBuffer c (out4 l) (out4sz l) 0 in
  let c := ipcAddRecvStatic c (out4 l) (out4sz l) 0 in
  let* _ := ipcPrepareHeader c
    [("magic", SFCI_MAGIC); ("cmd_id", 19); ("fd", fd);
     ("request", request); ("bufcount", bufcount l)] in
  let* '(ret, _) := _bsdDispatchBasicCommand c in
  ret_M ret.

Definition bsdIoctl (fd request : Z) (args : list vararg) : M Z :=
  bsdIoctl_v fd request args.

Definition bsdFnctl_v (fd cmd : Z) (args : list vararg) : M Z :=
  let arg := 0 in
  if (cmd =? F_GETFL) || (cmd =? F_SETFL) then
    let* _ := write_errno 0 in
    ret_M (-1)
  else
    let* arg :=
      (if cmd =? F_SETFL then
         let* '(v, _) := va_arg_int args in ret_M v
       else ret_M arg) in
    let c := ipcInitialize in
    let* _ := ipcPrepareHeader c
      [("magic", SFCI_MAGIC); ("cmd_id", 20); ("fd", fd); ("cmd", cmd);
       ("arg", arg)] in
    let* '(ret, _) := _bsdDispatchBasicCommand c in
    ret_M ret.

Definition bsdFnctl (fd cmd : Z) (args : list vararg) : M Z :=
  bsdFnctl_v fd cmd args.

Definition bsdSetSockOpt (sockfd level optname : Z) (optval : ptr)
           (optlen : Z) : M Z :=
  let c := ipcInitialize in
  let c := ipcAddSendBuffer c optval optlen 0 in
  let c := ipcAddSendStatic c optval optlen 0 in
  let* _ := ipcPrepareHeader c
    [("magic", SFCI_MAGIC); ("cmd_id", 21); ("sockfd", sockfd);
     ("level", level); ("optname", optname)] in
  let* '(ret, _) := _bsdDispatchBasicCommand c in
  ret_M ret.

Definition bsdShutdown (sockfd how : Z) : M Z :=
  let c := ipcInitialize in
  let* _ := ipcPrepareHeader c
    [("magic", SFCI_MAGIC); ("cmd_id", 22); ("sockfd", sockfd);
     ("how", how)] in
  let* '(ret, _) := _bsdDispatchBasicCommand c in
  ret_M ret.

Definition bsdShutdownAllSockets (how : Z) : M Z :=
  let c := ipcInitialize in
  let* _ := ipcPrepareHeader c
    [("magic", SFCI_MAGIC); ("cmd_id", 23); ("how", how)] in
  let* '(ret, _) := _bsdDispatchBasicCommand c in
  ret_M ret.

Definition bsdWrite (fd : Z) (buf : ptr) (count : Z) : M Z :=
  let c := ipcInitialize in
  let c := ipcAddSendBuffer c buf count 0 in
  let c := ipcAddSendStatic c buf count 0 in
  let* _ := ipcPrepareHeader c
    [("magic", SFCI_MAGIC); ("cmd_id", 24); ("fd", fd)] in
  let* '(ret, _) := _bsdDispatchBasicCommand c in
  ret_M ret.

Definition bsdRead (fd : Z) (buf : ptr) (count : Z) : M Z :=
  let c := ipcInitialize in
  let c := ipcAddRecvBuffer c buf count 0 in
  let c := ipcAddRecvStatic c buf count 0 in
  let* _ := ipcPrepareHeader c
    [("magic", SFCI_MAGIC); ("cmd_id", 25); ("fd", fd)] in
  let* '(ret, _) := _bsdDispatchBasicCommand c in
  ret_M ret.

Definition bsdClose (fd : Z) : M Z :=
  let c := ipcInitialize in
  let* _ := ipcPrepareHeader c
    [("magic", SFCI_MAGIC); ("cmd_id", 26); ("fd", fd)] in
  let* '(ret, _) := _bsdDispatchBasicCommand c in
  ret_M ret.

Definition bsdDuplicateSocket (sockfd : Z) : M Z :=
  let c := ipcInitialize in
  let* _ := ipcPrepareHeader c
    [("magic", SFCI_MAGIC); ("cmd_id", 27); ("sockfd", sockfd);
     ("reserved", 0)] in
  let* '(ret, _) := _bsdDispatchBasicCommand c in
  ret_M ret.

(** *** The public socket operations, as one type of calls *)

Inductive call :=
| Socket (domain type protocol : Z)
| SocketExempt (domain type protocol : Z)
| Open (pathname : ptr) (flags : Z)
| Select (nfds : Z) (readfds writefds exceptfds timeout : ptr)
| Poll (fds : ptr) (nfds timeout : Z)
| Sysctl (name : ptr) (namelen : Z) (oldp oldlenp newp : ptr) (newlen : Z)
| Recv (sockfd : Z) (buf : ptr) (len flags : Z)
| RecvFrom (sockfd : Z) (buf : ptr) (len flags : Z) (src_addr addrlen : ptr)
| Send (sockfd : Z) (buf : ptr) (len flags : Z)
| SendTo (sockfd : Z) (buf : ptr) (len flags : Z) (dest_addr : ptr) (addrlen : Z)
| Accept (sockfd : Z) (addr addrlen : ptr)
| Bind (sockfd : Z) (addr : ptr) (addrlen : Z)
| Connect (sockfd : Z) (addr : ptr) (addrlen : Z)
| GetPeerName (sockfd : Z) (addr addrlen : ptr)
| GetSockName (sockfd : Z) (addr addrlen : ptr)
| GetSockOpt (sockfd level optname : Z) (optval optlen : ptr)
| Listen (sockfd backlog : Z)
| Ioctl (fd request : Z) (args : list vararg)
| Fnctl (fd cmd : Z) (args : list vararg)
| SetSockOpt (sockfd level optname : Z) (optval : ptr) (optlen : Z)
| Shutdown (sockfd how : Z)
| ShutdownAllSockets (how : Z)
| Write (fd : Z) (buf : ptr) (count : Z)
| Read (fd : Z) (buf : ptr) (count : Z)
| Close (fd : Z)
| DuplicateSocket (sockfd : Z).

Definition exec (op : call) : M Z :=
  match op with
  | Socket d t p => bsdSocket d t p
  | SocketExempt d t p => bsdSocketExempt d t p
  | Open pathname flags => bsdOpen pathname flags
  | Select nfds r wr e t => bsdSelect nfds r wr e t
  | Poll fds nfds timeout => bsdPoll fds nfds timeout
  | Sysctl name namelen oldp oldlenp newp newlen =>
      bsdSysctl name namelen oldp oldlenp newp newlen
  | Recv s buf len flags => bsdRecv s buf len flags
  | RecvFrom s buf len flags src addrlen => bsdRecvFrom s buf len flags src addrlen
  | Send s buf len flags => bsdSend s buf len flags
  | SendTo s buf len flags dest addrlen => bsdSendTo s buf len flags dest addrlen
  | Accept s addr addrlen => bsdAccept s addr addrlen
  | Bind s addr addrlen => bsdBind s addr addrlen
  | Connect s addr addrlen => bsdConnect s addr addrlen
  | GetPeerName s addr addrlen => bsdGetPeerName s addr addrlen
  | GetSockName s addr addrlen => bsdGetSockName s addr addrlen
  | GetSockOpt s level optname optval optlen =>
      bsdGetSockOpt s level optname optval optlen
  | Listen s backlog => bsdListen s backlog
  | Ioctl fd request args => bsdIoctl fd request args
  | Fnctl fd cmd args => bsdFnctl fd cmd args
  | SetSockOpt s level optname optval optlen =>
      bsdSetSockOpt s level optname optval optlen
  | Shutdown s how => bsdShutdown s how
  | ShutdownAllSockets how => bsdShutdownAllSockets how
  | Write fd buf count => bsdWrite fd buf count
  | Read fd buf count => bsdRead fd buf count
  | Close fd => bsdClose fd
  | DuplicateSocket s => bsdDuplicateSocket s
  end.

(** *** When a call has defined behaviour

    What each operation needs of the caller's memory and variadic
    arguments before it reaches the transport: every pointer it reads
    through holds an object of the type it reads. *)

Definition holds_socklen (w : world) (p : ptr) : bool :=
  match mem w !! p with Some (Osocklen _) => true | _ => false end.

Definition holds_size (w : world) (p : ptr) : bool :=
  match mem w !! p with Some (Osize _) => true | _ => false end.

Definition holds_timeval (w : world) (p : ptr) : bool :=
  match mem w !! p with Some (Otimeval _ _) => true | _ => false end.

Definition holds_ifconf (w : world) (p : ptr) : bool :=
  match mem w !! p with Some (Oifconf _ _) => true | _ => false end.

Definition holds_ifmediareq (w : world) (p : ptr) : bool :=
  match mem w !! p with Some (Oifmediareq _ _) => true | _ => false end.

Definition holds_string (w : world) (p : ptr) : bool :=
  match mem w !! p with Some (Ostring _) => true | _ => false end.

Definition valid_call (op : call) (w : world) : bool :=
  match op with
  | Open pathname _ => holds_string w pathname
  | Select _ _ _ _ timeout => (timeout =? NULL) || holds_timeval w timeout
  | Sysctl _ _ _ oldlenp _ _ => (oldlenp =? NULL) || holds_size w oldlenp
  | RecvFrom _ _ _ _ _ addrlen
  | Accept _ _ addrlen
  | GetPeerName _ _ addrlen
  | GetSockName _ _ addrlen
  | GetSockOpt _ _ _ _ addrlen => (addrlen =? NULL) || holds_socklen w addrlen
  | Ioctl _ request args =>
      if request =? to_int SIOCGIFCONF then
        match args with VaPtr p :: _ => holds_ifconf w p | _ => false end
      else if (request =? to_int SIOCGIFMEDIA) || (request =? to_int SIOCGIFXMEDIA) then
        match args with VaPtr p :: _ => holds_ifmediareq w p | _ => false end
      else if negb (Z.land request IOC_INOUT =? 0) then
        match args with VaPtr _ :: _ => true | _ => false end
      else true
  | _ => true
  end.

(** The caller's address-length pointer, for the operations whose reply
    carries a trailing returned address length. *)
Definition addrlen_of (op : call) : option ptr :=
  match op with
  | RecvFrom _ _ _ _ _ addrlen
  | Accept _ _ addrlen
  | GetPeerName _ _ addrlen
  | GetSockName _ _ addrlen => Some addrlen
  | _ => None
  end.

End Operations.

(** ** The three ways a dispatch can end

    [dispatch_ends srv w res]: [res] is what [_bsdDispatchBasicCommand]
    yields from state [w] when the channel behaves as [srv]. *)

Inductive dispatch_ends `{Headers} (srv : transport) (w : world)
  : option ((Z * option BsdIpcResponse) * world) -> Prop :=
| Transport_failed :
    R_FAILED (o_rc (srv (msgbuf w))) = true ->
    dispatch_ends srv w
      (Some ((-1, None),
             set_errno EPIPE (record_dispatch (srv (msgbuf w)) w)))
| Status_failed :
    R_SUCCEEDED (o_rc (srv (msgbuf w))) = true ->
    R_FAILED (u32 (result (o_reply (srv (msgbuf w))))) = true ->
    dispatch_ends srv w
      (Some ((-1, Some (o_reply (srv (msgbuf w)))),
             set_errno EPIPE
               (record_parse (record_dispatch (srv (msgbuf w)) w))))
| Status_ok :
    R_SUCCEEDED (o_rc (srv (msgbuf w))) = true ->
    R_SUCCEEDED (u32 (result (o_reply (srv (msgbuf w))))) = true ->
    dispatch_ends srv w
      (Some ((ret (o_reply (srv (msgbuf w))),
              Some (o_reply (srv (msgbuf w)))),
             set_errno (errno_ (o_reply (srv (msgbuf w))))
               (record_parse (record_dispatch (srv (msgbuf w)) w)))).

(** ** Descriptor pairs *)

Definition is_recvfrom (op : call) : bool :=
  match op with RecvFrom _ _ _ _ _ _ => true | _ => false end.

Definition is_dynamic (k : desc_kind) : bool :=
  match k with SendBuffer | RecvBuffer => true | _ => false end.

(** [d1] is a dynamic descriptor and [d2] the static descriptor of the
    same direction, address and length. *)
Definition same_memory_pair (d1 d2 : desc) : bool :=
  is_dynamic (d_kind d1) && negb (is_dynamic (d_kind d2))
  && Bool.eqb (is_receive (d_kind d1)) (is_receive (d_kind d2))
  && (d_ptr d1 =? d_ptr d2) && (d_size d1 =? d_size d2).

(** The descriptors, in attachment order, are a sequence of such pairs. *)
Fixpoint paired (ds : list desc) : bool :=
  match ds with
  | [] => true
  | d1 :: d2 :: rest => same_memory_pair d1 d2 && paired rest
  | _ => false
  end.

(** The dynamic and the static view of [size] bytes at [p]. *)
Definition send_pair (p : ptr) (size flag : Z) : list desc :=
  [{| d_kind := SendBuffer; d_ptr := p; d_size := size; d_flag := flag |};
   {| d_kind := SendStatic; d_ptr := p; d_size := size; d_flag := flag |}].

Definition recv_pair (p : ptr) (size flag : Z) : list desc :=
  [{| d_kind := RecvBuffer; d_ptr := p; d_size := size; d_flag := flag |};
   {| d_kind := RecvStatic; d_ptr := p; d_size := size; d_flag := flag |}].

(** The sixteen descriptors of a two-buffer ioctl: the header and the
    second buffer, sent and received, and the unused slots. *)
Definition ioctl_two_buffers (data : ptr) (hdrsz : Z) (second : ptr)
           (secondsz : Z) : list desc :=
  send_pair data hdrsz 0 ++ send_pair second secondsz 0
  ++ send_pair NULL 0 0 ++ send_pair NULL 0 0
  ++ recv_pair data hdrsz 0 ++ recv_pair second secondsz 0
  ++ recv_pair NULL 0 0 ++ recv_pair NULL 0 0.

(** ** Sample states and servers to run the model on *)

Definition empty_reply : BsdIpcResponse :=
  {| magic := 0; result := 0; ret := 0; errno_ := 0; trailing := 0 |}.

(** A state whose memory holds an address length of 16 at address 100, an
    interface-list header at 200 and a media request at 300. *)
Definition sample_world : world := {|
  errno := 0;
  mem := <[100 := Osocklen 16]>
         (<[200 := Oifconf 64 208]> (<[300 := Oifmediareq 3 348]> ∅));
  msgbuf := {| m_descs := []; m_raw := [] |};
  inbox := empty_reply;
  sent := [];
  parsed := 0;
  stores := []
|}.

(** A broken channel: every dispatch fails with a transport error. *)
Definition broken_channel : transport :=
  fun _ => {| o_rc := 0xF601; o_reply := empty_reply; o_data := [] |}.

(** A server that refuses every request the POSIX way: [-1] and errno 9. *)
Definition refusing_server : transport :=
  fun _ => {| o_rc := 0;
              o_reply := {| magic := 0x4F434653; result := 0; ret := -1;
                            errno_ := 9; trailing := 0 |};
              o_data := [] |}.

(** A server that accepts every request, returns 5 and a length of 28. *)
Definition accepting_server : transport :=
  fun _ => {| o_rc := 0;
              o_reply := {| magic := 0x4F434653; result := 0; ret := 5;
                            errno_ := 0; trailing := 28 |};
              o_data := [] |}.

(** A server that accepts every request like [accepting_server] and
    fills what it is given to receive into: it leaves an interface-list
    header with [ifc_len = 32] at address 200. *)
Definition filling_server : transport :=
  fun _ => {| o_rc := 0;
              o_reply := {| magic := 0x4F434653; result := 0; ret := 5;
                            errno_ := 0; trailing := 28 |};
              o_data := [(200, Oifconf 32 208)] |}.

(** A state whose interface-list header at 200 holds [ifc_len = -1], and
    whose media request at 300 holds [ifm_count = -1]. *)
Definition negative_count_world : world := {|
  errno := 0;
  mem := <[200 := Oifconf (-1) 208]> (<[300 := Oifmediareq (-1) 348]> ∅);
  msgbuf := {| m_descs := []; m_raw := [] |};
  inbox := empty_reply;
  sent := [];
  parsed := 0;
  stores := []
|}.

(** ** Operation codes and kinds of operation *)

(** The kind of a call: which public function it invokes. *)
Inductive op_kind :=
| KSocket | KSocketExempt | KOpen | KSelect | KPoll | KSysctl | KRecv
| KRecvFrom | KSend | KSendTo | KAccept | KBind | KConnect | KGetPeerName
| KGetSockName | KGetSockOpt | KListen | KIoctl | KFnctl | KSetSockOpt
| KShutdown | KShutdownAllSockets | KWrite | KRead | KClose
| KDuplicateSocket.

Definition kind_of (op : call) : op_kind :=
  match op with
  | Socket _ _ _ => KSocket
  | SocketExempt _ _ _ => KSocketExempt
  | Open _ _ => KOpen
  | Select _ _ _ _ _ => KSelect
  | Poll _ _ _ => KPoll
  | Sysctl _ _ _ _ _ _ => KSysctl
  | Recv _ _ _ _ => KRecv
  | RecvFrom _ _ _ _ _ _ => KRecvFrom
  | Send _ _ _ _ => KSend
  | SendTo _ _ _ _ _ _ => KSendTo
  | Accept _ _ _ => KAccept
  | Bind _ _ _ => KBind
  | Connect _ _ _ => KConnect
  | GetPeerName _ _ _ => KGetPeerName
  | GetSockName _ _ _ => KGetSockName
  | GetSockOpt _ _ _ _ _ => KGetSockOpt
  | Listen _ _ => KListen
  | Ioctl _ _ _ => KIoctl
  | Fnctl _ _ _ => KFnctl
  | SetSockOpt _ _ _ _ _ => KSetSockOpt
  | Shutdown _ _ => KShutdown
  | ShutdownAllSockets _ => KShutdownAllSockets
  | Write _ _ _ => KWrite
  | Read _ _ _ => KRead
  | Close _ => KClose
  | DuplicateSocket _ => KDuplicateSocket
  end.

(** The [cmd_id] each public function assigns to its header. *)
Definition opcode_of (k : op_kind) : Z :=
  match k with
  | KSocket => 2 | KSocketExempt => 3 | KOpen => 4 | KSelect => 5
  | KPoll => 6 | KSysctl => 7 | KRecv => 8 | KRecvFrom => 9 | KSend => 10
  | KSendTo => 11 | KAccept => 12 | KBind => 13 | KConnect => 14
  | KGetPeerName => 15 | KGetSockName => 16 | KGetSockOpt => 17
  | KListen => 18 | KIoctl => 19 | KFnctl => 20 | KSetSockOpt => 21
  | KShutdown => 22 | KShutdownAllSockets => 23 | KWrite => 24 | KRead => 25
  | KClose => 26 | KDuplicateSocket => 27
  end.

(** The operations that store a trailing reply field to caller memory. *)
Definition writes_back (op : call) : bool :=
  match op with
  | RecvFrom _ _ _ _ _ _ | Accept _ _ _ | GetPeerName _ _ _
  | GetSockName _ _ _ | Sysctl _ _ _ _ _ _ => true
  | _ => false
  end.

Definition is_sendto (op : call) : bool :=
  match op with SendTo _ _ _ _ _ _ => true | _ => false end.

(** An fcntl call that the adapter turns down before any dispatch. *)
Definition rejected_fcntl `{Headers} (op : call) : bool :=
  match op with
  | Fnctl _ cmd _ => (cmd =? F_GETFL) || (cmd =? F_SETFL)
  | _ => false
  end.

(** Every descriptor of the message carries 0 as buffer type or index. *)
Definition all_flags_zero (m : message) : bool :=
  forallb (fun d => d_flag d =? 0) (m_descs m).

(** The header starts with the magic and the [cmd_id] of the operation. *)
Definition headed `{Headers} (op : call) (m : message) : Prop :=
  exists rest,
    m_raw m = ("magic", SFCI_MAGIC) :: ("cmd_id", opcode_of (kind_of op)) :: rest.

(** The sixteen descriptors of a one-buffer ioctl: the input slot, the
    output slot and the unused slots. *)
Definition ioctl_one_buffer (inp : ptr) (insz : Z) (outp : ptr) (outsz : Z)
  : list desc :=
  send_pair inp insz 0 ++ send_pair NULL 0 0
  ++ send_pair NULL 0 0 ++ send_pair NULL 0 0
  ++ recv_pair outp outsz 0 ++ recv_pair NULL 0 0
  ++ recv_pair NULL 0 0 ++ recv_pair NULL 0 0.

(** A server that answers with a status whose low 32 bits are zero. *)
Definition wide_status_server : transport :=
  fun _ => {| o_rc := 0;
              o_reply := {| magic := 0x4F434653; result := 0x100000000;
                            ret := 7; errno_ := 11; trailing := 0 |};
              o_data := [] |}.

(** A server whose reply carries a failure status. *)
Definition failing_status_server : transport :=
  fun _ => {| o_rc := 0;
              o_reply := {| magic := 0x4F434653; result := 0x1234; ret := 7;
                            errno_ := 11; trailing := 28 |};
              o_data := [] |}.

(** A state like [sample_world] that also holds a [size_t] of 40 at
    address 400, a [timeval] at 500 and the string "/dev/ttyS0" at 600. *)
Definition sample_world2 : world := {|
  errno := 0;
  mem := <[100 := Osocklen 16]>
         (<[400 := Osize 40]>
          (<[500 := Otimeval 2 500000]>
           (<[600 := Ostring [47; 100; 101; 118; 47; 116; 116; 121; 83; 48]]> ∅)));
  msgbuf := {| m_descs := []; m_raw := [] |};
  inbox := empty_reply;
  sent := [];
  parsed := 0;
  stores := []
|}.

(** ** Session management *)

(** The two channels of the session: [g_bsdSrv] and [g_bsdMonitor]. *)
Inductive channel := Control | Monitor.

(** Modelled from the spec: [Service] of services/sm.h, which is not
    among the sources; a channel handle, live or not. *)
Record Service := {
  srv_active : bool;
  srv_handle : Z
}.

(** Modelled from the spec: [TransferMemory] of kernel/tmem.h; the
    region's handle and size, and whether it is allocated. *)
Record TransferMemory := {
  tmem_live : bool;
  tmem_handle : Z;
  tmem_size : Z
}.

(** Modelled from the spec: what [ipcSendPid] and [ipcSendHandleCopy] of
    ipc.h add to a command, with the header laid out by
    [ipcPrepareHeader]. *)
Record session_message := {
  sm_send_pid : bool;
  sm_handles_copy : list Z;
  sm_raw : list (string * Z)
}.

(** The replies of the two session commands: magic, status and, for the
    registration, the process id the server assigned. *)
Record SessionResponse := {
  s_magic : Z;
  s_result : Z;
  s_pid : Z
}.

(** A call into the collaborators of the session manager. *)
Inductive ext_call :=
| CallSmGetService (ch : channel) (name : string)
| CallTmemCreate (size perm : Z)
| CallDispatch (ch : channel) (m : session_message)
| CallServiceClose (ch : channel)
| CallTmemClose.

(** Modelled from the spec: the collaborators of the session manager,
    none of which is among the sources. [sm_answer] is what the service
    manager returns for a name (a [Result] and a handle), [tmem_answer]
    what the allocation of a transfer memory of a given size and
    permission returns, [ipc_answer] what a dispatch over a channel
    returns (the transport's [Result] and the reply). [AlreadyInitialized]
    is [MAKERESULT(Module_Libnx, LibnxError_AlreadyInitialized)]. *)
Class System := {
  AlreadyInitialized : Z;
  sm_answer : channel -> string -> Z * Z;
  tmem_answer : Z -> Z -> Z * Z;
  ipc_answer : channel -> session_message -> Z * SessionResponse
}.

(** The process-wide state of the client, with the record of the calls
    made into the collaborators (latest first). *)
Record session := {
  g_bsdSrv : Service;
  g_bsdMonitor : Service;
  g_bsdClientPid : Z;
  g_bsdTmem : TransferMemory;
  calls : list ext_call
}.

Definition get_service (ch : channel) (st : session) : Service :=
  match ch with Control => g_bsdSrv st | Monitor => g_bsdMonitor st end.

Definition set_service (ch : channel) (s : Service) (st : session) : session :=
  match ch with
  | Control =>
      {| g_bsdSrv := s; g_bsdMonitor := g_bsdMonitor st;
         g_bsdClientPid := g_bsdClientPid st; g_bsdTmem := g_bsdTmem st;
         calls := calls st |}
  | Monitor =>
      {| g_bsdSrv := g_bsdSrv st; g_bsdMonitor := s;
         g_bsdClientPid := g_bsdClientPid st; g_bsdTmem := g_bsdTmem st;
         calls := calls st |}
  end.

Definition set_tmem (t : TransferMemory) (st : session) : session :=
  {| g_bsdSrv := g_bsdSrv st; g_bsdMonitor := g_bsdMonitor st;
     g_bsdClientPid := g_bsdClientPid st; g_bsdTmem := t;
     calls := calls st |}.

Definition set_pid (pid : Z) (st : session) : session :=
  {| g_bsdSrv := g_bsdSrv st; g_bsdMonitor := g_bsdMonitor st;
     g_bsdClientPid := pid; g_bsdTmem := g_bsdTmem st;
     calls := calls st |}.

Definition record_call (e : ext_call) (st : session) : session :=
  {| g_bsdSrv := g_bsdSrv st; g_bsdMonitor := g_bsdMonitor st;
     g_bsdClientPid := g_bsdClientPid st; g_bsdTmem := g_bsdTmem st;
     calls := e :: calls st |}.

(** The state at program start: nothing live, [g_bsdClientPid = -1]. *)
Definition initial_session : session := {|
  g_bsdSrv := {| srv_active := false; srv_handle := 0 |};
  g_bsdMonitor := {| srv_active := false; srv_handle := 0 |};
  g_bsdClientPid := 2 ^ 64 - 1;
  g_bsdTmem := {| tmem_live := false; tmem_handle := 0; tmem_size := 0 |};
  calls := []
|}.

(** Neither channel is live. *)
Definition session_idle (st : session) : bool :=
  negb (srv_active (g_bsdSrv st)) && negb (srv_active (g_bsdMonitor st)).

(** The state monad of the session functions. *)
Definition SessionM (A : Type) : Type := session -> A * session.

Definition ret_S {A} (a : A) : SessionM A := fun st => (a, st).

Definition bind_S {A B} (m : SessionM A) (k : A -> SessionM B) : SessionM B :=
  fun st => let (a, st') := m st in k a st'.

Notation "'let+' x ':=' m 'in' k" :=
  (bind_S m (fun x => k))
  (at level 10, x name, m at level 100, k at level 200).

Notation "'let+' ' p ':=' m 'in' k" :=
  (bind_S m (fun x => match x with p => k end))
  (at level 10, p pattern, m at level 100, k at level 200).

Section Session.

Context `{Headers} `{System}.

(** Modelled from the spec: [serviceIsActive] of services/sm.h. *)
Definition serviceIsActive (s : Service) : bool := srv_active s.

(** Modelled from the spec: [smGetService] resolves a service name to a
    channel; on success the service becomes live with the handle the
    service manager returned, on failure it is left as it was. *)
Definition smGetService (ch : channel) (name : string) : SessionM Z :=
  fun st =>
    let st := record_call (CallSmGetService ch name) st in
    let (rc, h) := sm_answer ch name in
    if R_SUCCEEDED rc
    then (rc, set_service ch {| srv_active := true; srv_handle := h |} st)
    else (rc, st).

(** Modelled from the spec: [serviceClose] releases a channel. *)
Definition serviceClose (ch : channel) : SessionM unit :=
  fun st =>
    let st := record_call (CallServiceClose ch) st in
    (tt, set_service ch {| srv_active := false;
                           srv_handle := srv_handle (get_service ch st) |} st).

(** Modelled from the spec: [tmemCreate] allocates a transfer-memory
    region of the given size; on success [g_bsdTmem] holds its handle and
    size, on failure it is left as it was. *)
Definition tmemCreate (size perm : Z) : SessionM Z :=
  fun st =>
    let st := record_call (CallTmemCreate size perm) st in
    let (rc, h) := tmem_answer size perm in
    if R_SUCCEEDED rc
    then (rc, set_tmem {| tmem_live := true; tmem_handle := h;
                          tmem_size := size |} st)
    else (rc, st).

(** Modelled from the spec: [tmemClose] releases the region. *)
Definition tmemClose : SessionM unit :=
  fun st =>
    let st := record_call CallTmemClose st in
    (tt, set_tmem {| tmem_live := false;
                     tmem_handle := tmem_handle (g_bsdTmem st);
                     tmem_size := tmem_size (g_bsdTmem st) |} st).

(** Modelled from the spec: [serviceIpcDispatch(srv)] followed, where the
    code parses, by [ipcParse]: the prepared message goes over the
    channel; the [Result] of the transport and the reply come back. *)
Definition session_dispatch (ch : channel) (m : session_message)
  : SessionM (Z * SessionResponse) :=
  fun st => (ipc_answer ch m, record_call (CallDispatch ch m) st).

(** The fields of a [BsdBufferConfig] as they lie in a header. *)
Definition config_raw (config : BsdBufferConfig) : list (string * Z) :=
  [("config.version", version config);
   ("config.tcp_tx_buf_size", tcp_tx_buf_size config);
   ("config.tcp_rx_buf_size", tcp_rx_buf_size config);
   ("config.tcp_tx_buf_max_size", tcp_tx_buf_max_size config);
   ("config.tcp_rx_buf_max_size", tcp_rx_buf_max_size config);
   ("config.udp_tx_buf_size", udp_tx_buf_size config);
   ("config.udp_rx_buf_size", udp_rx_buf_size config);
   ("config.sb_efficiency", sb_efficiency config)].

(** [_bsdRegisterClient]. The result is the returned [Result] and the
    value stored through [pid_out], if a store was made. *)
Definition _bsdRegisterClient (srv : channel) (tmem : TransferMemory)
           (config : BsdBufferConfig) : SessionM (Z * option Z) :=
  let m := {| sm_send_pid := true;
              sm_handles_copy := [tmem_handle tmem];
              sm_raw := [("magic", SFCI_MAGIC); ("cmd_id", 0)]
                        ++ config_raw config
                        ++ [("pid_reserved", 0);
                            ("tmem_sz", tmem_size tmem)] |} in
  let+ '(rc, resp) := session_dispatch srv m in
  if R_SUCCEEDED rc
  then ret_S (u32 (s_result resp), Some (s_pid resp))
  else ret_S (rc, None).

(** [_bsdStartMonitor]. *)
Definition _bsdStartMonitor (srv : channel) (pid : Z) : SessionM Z :=
  let m := {| sm_send_pid := true;
              sm_handles_copy := [];
              sm_raw := [("magic", SFCI_MAGIC); ("cmd_id", 1);
                         ("pid", pid)] |} in
  let+ '(rc, resp) := session_dispatch srv m in
  if R_SUCCEEDED rc then ret_S (u32 (s_result resp)) else ret_S rc.

Definition bsdGetDefaultBufferConfig : BsdBufferConfig :=
  g_defaultBsdBufferConfig.

Definition bsdExit : SessionM unit :=
  let+ _ := serviceClose Monitor in
  let+ _ := serviceClose Control in
  tmemClose.

(** The [error:] label of [bsdInitialize]. *)
Definition bsdInitialize_error (rc : Z) : SessionM Z :=
  let+ _ := bsdExit in
  ret_S rc.

Definition bsdInitialize (config : BsdBufferConfig) : SessionM Z :=
  fun st =>
    let bsd_srv := "bsd:s" in
    if serviceIsActive (g_bsdSrv st) || serviceIsActive (g_bsdMonitor st)
    then (AlreadyInitialized, st)
    else
      (let+ rc := smGetService Control bsd_srv in
       let+ '(bsd_srv, rc) :=
         (if R_FAILED rc then
            let bsd_srv := "bsd:u" in
            let+ rc := smGetService Control bsd_srv in
            ret_S (bsd_srv, rc)
          else ret_S (bsd_srv, rc)) in
       if R_FAILED rc then bsdInitialize_error rc else
       let+ rc := smGetService Monitor bsd_srv in
       if R_FAILED rc then bsdInitialize_error rc else
       let+ rc := tmemCreate (_bsdGetTransferMemSizeForConfig config) 0 in
       if R_FAILED rc then bsdInitialize_error rc else
       let+ '(rc, pid_out) :=
         (fun st => _bsdRegisterClient Control (g_bsdTmem st) config st) in
       let+ _ :=
         (match pid_out with
          | Some pid => fun st => (tt, set_pid pid st)
          | None => ret_S tt
          end) in
       if R_FAILED rc then bsdInitialize_error rc else
       let+ rc :=
         (fun st => _bsdStartMonitor Monitor (g_bsdClientPid st) st) in
       if R_FAILED rc then bsdInitialize_error rc else
       ret_S rc) st.

(** The service name the control channel ends up with, if any. *)
Definition resolved_name : option string :=
  if R_SUCCEEDED (fst (sm_answer Control "bsd:s")) then Some "bsd:s"
  else if R_SUCCEEDED (fst (sm_answer Control "bsd:u")) then Some "bsd:u"
  else None.

(** The registration message for a configuration and a region handle. *)
Definition register_message (config : BsdBufferConfig) (h : Z)
  : session_message :=
  {| sm_send_pid := true;
     sm_handles_copy := [h];
     sm_raw := [("magic", SFCI_MAGIC); ("cmd_id", 0)]
               ++ config_raw config
               ++ [("pid_reserved", 0);
                   ("tmem_sz", _bsdGetTransferMemSizeForConfig config)] |}.

(** The start-monitor message for a process id. *)
Definition monitor_message (pid : Z) : session_message :=
  {| sm_send_pid := true;
     sm_handles_copy := [];
     sm_raw := [("magic", SFCI_MAGIC); ("cmd_id", 1); ("pid", pid)] |}.

Definition is_dispatch (e : ext_call) : bool :=
  match e with CallDispatch _ _ => true | _ => false end.

(** The name-resolution calls made when the control channel ends up with
    [name], latest first: the monitor's lookup, the control channel's
    successful lookup and, before it, the failed privileged lookup when
    the fallback was needed. *)
Definition resolution_calls (name : string) : list ext_call :=
  [CallSmGetService Monitor name; CallSmGetService Control name]
  ++ (if String.eqb name "bsd:s" then []
      else [CallSmGetService Control "bsd:s"]).

(** The calls of a teardown, latest first. *)
Definition teardown_calls : list ext_call :=
  [CallTmemClose; CallServiceClose Control; CallServiceClose Monitor].

End Session.

(** A system where everything succeeds: the privileged name resolves,
    the region is allocated with handle 77, the server assigns the
    process id 4242. *)
Definition sample_system : System := {|
  AlreadyInitialized := 857;
  sm_answer := fun ch _ => (0, match ch with Control => 11 | Monitor => 12 end);
  tmem_answer := fun _ _ => (0, 77);
  ipc_answer := fun _ _ =>
    (0, {| s_magic := 0x4F434653; s_result := 0; s_pid := 4242 |})
|}.

(** A system where only the unprivileged name resolves and the server
    refuses the registration with status 0x7D402, naming pid 4242. *)
Definition refusing_system : System := {|
  AlreadyInitialized := 857;
  sm_answer := fun ch name =>
    if String.eqb name "bsd:u"
    then (0, match ch with Control => 11 | Monitor => 12 end)
    else (0x415, 0);
  tmem_answer := fun _ _ => (0, 77);
  ipc_answer := fun _ _ =>
    (0, {| s_magic := 0x4F434653; s_result := 0x7D402; s_pid := 4242 |})
|}.

(** A system without the service, and one without memory to share. *)
Definition no_service_system : System := {|
  AlreadyInitialized := 857;
  sm_answer := fun _ _ => (0x415, 0);
  tmem_answer := fun _ _ => (0, 77);
  ipc_answer := fun _ _ =>
    (0, {| s_magic := 0x4F434653; s_result := 0; s_pid := 4242 |})
|}.

Definition no_memory_system : System := {|
  AlreadyInitialized := 857;
  sm_answer := fun ch _ => (0, match ch with Control => 11 | Monitor => 12 end);
  tmem_answer := fun _ _ => (0xD401, 0);
  ipc_answer := fun _ _ =>
    (0, {| s_magic := 0x4F434653; s_result := 0; s_pid := 4242 |})
|}.

(** * Properties *)

(** ** Machine integers *)

Section BitsFacts.

Lemma u32_id z : is_u32 z -> u32 z = z.
Proof. intros H. apply Z.mod_small, H. Qed.

Lemma u32_range z : is_u32 (u32 z).
Proof. apply Z.mod_pos_bound. lia. Qed.

Lemma u64_id z : 0 <= z < 2 ^ 64 -> u64 z = z.
Proof. intros H. apply Z.mod_small, H. Qed.

Lemma to_int_id z : is_int z -> to_int z = z.
Proof.
  intros H. unfold to_int, is_int in *.
  rewrite Z.mod_small; lia.
Qed.

End BitsFacts.

(** ** Facts about the size computation *)

Section TransferMemSize.

Lemma wf_config_fields c :
  wf_config c ->
  is_u32 (version c) /\ is_u32 (tcp_tx_buf_size c) /\ is_u32 (tcp_rx_buf_size c)
  /\ is_u32 (tcp_tx_buf_max_size c) /\ is_u32 (tcp_rx_buf_max_size c)
  /\ is_u32 (udp_tx_buf_size c) /\ is_u32 (udp_rx_buf_size c)
  /\ is_u32 (sb_efficiency c).
Proof.
  intros H.
  pose proof (H Fversion). pose proof (H Ftcp_tx_buf_size).
  pose proof (H Ftcp_rx_buf_size). pose proof (H Ftcp_tx_buf_max_size).
  pose proof (H Ftcp_rx_buf_max_size). pose proof (H Fudp_tx_buf_size).
  pose proof (H Fudp_rx_buf_size). pose proof (H Fsb_efficiency).
  simpl in *. tauto.
Qed.

Lemma wf_config_default : wf_config g_defaultBsdBufferConfig.
Proof. intros []; unfold is_u32; simpl; lia. Qed.

Lemma roundUpToPage_ge n : n <= roundUpToPage n.
Proof.
  unfold roundUpToPage.
  pose proof (Z.div_mod (n + 4095) 4096 ltac:(lia)).
  pose proof (Z.mod_pos_bound (n + 4095) 4096 ltac:(lia)). lia.
Qed.

Lemma roundUpToPage_lt n : roundUpToPage n < n + 4096.
Proof.
  unfold roundUpToPage.
  pose proof (Z.div_mod (n + 4095) 4096 ltac:(lia)).
  pose proof (Z.mod_pos_bound (n + 4095) 4096 ltac:(lia)). lia.
Qed.

Lemma roundUpToPage_mono a b : a <= b -> roundUpToPage a <= roundUpToPage b.
Proof.
  intros H. unfold roundUpToPage.
  apply Z.mul_le_mono_nonneg_r; [lia |].
  apply Z.div_le_mono; lia.
Qed.

Lemma roundUpToPage_nonneg n : 0 <= n -> 0 <= roundUpToPage n.
Proof. intros H. pose proof (roundUpToPage_ge n). lia. Qed.

(** The shift idiom of the source is the page round-up. *)
Lemma page_shift n :
  Z.shiftl (Z.shiftr (n + 0xFFF) 12) 12 = roundUpToPage n.
Proof.
  rewrite Z.shiftl_mul_pow2 by lia. rewrite Z.shiftr_div_pow2 by lia.
  reflexivity.
Qed.

Lemma spec_sum_nonneg c : wf_config c -> 0 <= spec_sum c.
Proof.
  intros H. apply wf_config_fields in H. unfold is_u32 in H.
  unfold spec_sum, spec_maxTcpTx, spec_maxTcpRx.
  repeat case_match; lia.
Qed.

(** When nothing wraps, the code computes the specification's formula. *)
Lemma size_eq_spec c :
  wf_config c -> no_overflow c = true ->
  _bsdGetTransferMemSizeForConfig c = computeTransferMemorySize_spec c.
Proof.
  intros Hwf Hno.
  pose proof (spec_sum_nonneg c Hwf) as Hs.
  apply wf_config_fields in Hwf. unfold is_u32 in Hwf.
  unfold no_overflow in Hno.
  apply andb_prop in Hno as [H1 H2].
  apply Z.ltb_lt in H1. apply Z.ltb_lt in H2.
  pose proof (roundUpToPage_ge (spec_sum c)) as Hge.
  pose proof (roundUpToPage_lt (spec_sum c)) as Hlt.
  unfold _bsdGetTransferMemSizeForConfig, computeTransferMemorySize_spec.
  assert (Htx : 0 <= spec_maxTcpTx c)
    by (unfold spec_maxTcpTx; destruct (_ =? 0); lia).
  assert (Hrx : 0 <= spec_maxTcpRx c)
    by (unfold spec_maxTcpRx; destruct (_ =? 0); lia).
  assert (Hsum :
    (if negb (tcp_tx_buf_max_size c =? 0)
     then tcp_tx_buf_max_size c else tcp_tx_buf_size c)
    + (if negb (tcp_rx_buf_max_size c =? 0)
       then tcp_rx_buf_max_size c else tcp_rx_buf_size c)
    = spec_maxTcpTx c + spec_maxTcpRx c).
  { unfold spec_maxTcpTx, spec_maxTcpRx.
    destruct (tcp_tx_buf_max_size c =? 0), (tcp_rx_buf_max_size c =? 0);
      reflexivity. }
  cbv zeta. rewrite Hsum.
  unfold spec_sum in *.
  rewrite (u32_id (spec_maxTcpTx c + spec_maxTcpRx c))
    by (unfold is_u32; lia).
  rewrite (u32_id (spec_maxTcpTx c + spec_maxTcpRx c + udp_tx_buf_size c))
    by (unfold is_u32; lia).
  rewrite (u32_id (spec_maxTcpTx c + spec_maxTcpRx c + udp_tx_buf_size c
                   + udp_rx_buf_size c)) by (unfold is_u32; lia).
  rewrite (u32_id (_ + 0xFFF)) by (unfold is_u32; lia).
  rewrite page_shift.
  set (r := roundUpToPage _) in *.
  rewrite (u32_id r) by (unfold is_u32; lia).
  assert (0 <= sb_efficiency c * r) by (apply Z.mul_nonneg_nonneg; lia).
  rewrite (u32_id (sb_efficiency c * r)) by (unfold is_u32; lia).
  rewrite u64_id by lia. lia.
Qed.

End TransferMemSize.

(** ** The transfer-memory size against the specification's formula *)

Section TransferMemSizeFormula.

Lemma spec_sum_mono f c1 c2 :
  wf_config c1 -> wf_config c2 ->
  agree_except f c1 c2 ->
  config_get f c1 <= config_get f c2 ->
  (f = Ftcp_tx_buf_max_size \/ f = Ftcp_rx_buf_max_size ->
   config_get f c1 <> 0) ->
  spec_sum c1 <= spec_sum c2 /\ sb_efficiency c1 <= sb_efficiency c2.
Proof.
  intros Hwf1 Hwf2 Hag Hle Hmax.
  apply wf_config_fields in Hwf1. apply wf_config_fields in Hwf2.
  unfold is_u32 in Hwf1, Hwf2.
  assert (Hothers : forall g, g = f \/ config_get g c1 = config_get g c2).
  { intros g. destruct (decide (g = f)) as [-> | Hne]; [by left |].
    right. by apply Hag. }
  unfold spec_sum, spec_maxTcpTx, spec_maxTcpRx.
  pose proof (Hothers Ftcp_tx_buf_size) as E1.
  pose proof (Hothers Ftcp_rx_buf_size) as E2.
  pose proof (Hothers Ftcp_tx_buf_max_size) as E3.
  pose proof (Hothers Ftcp_rx_buf_max_size) as E4.
  pose proof (Hothers Fudp_tx_buf_size) as E5.
  pose proof (Hothers Fudp_rx_buf_size) as E6.
  pose proof (Hothers Fsb_efficiency) as E7.
  destruct f; simpl in *;
    destruct E1 as [E1 | E1]; try discriminate E1;
    destruct E2 as [E2 | E2]; try discriminate E2;
    destruct E3 as [E3 | E3]; try discriminate E3;
    destruct E4 as [E4 | E4]; try discriminate E4;
    destruct E5 as [E5 | E5]; try discriminate E5;
    destruct E6 as [E6 | E6]; try discriminate E6;
    destruct E7 as [E7 | E7]; try discriminate E7;
    destruct (Z.eqb_spec (tcp_tx_buf_max_size c1) 0);
    destruct (Z.eqb_spec (tcp_tx_buf_max_size c2) 0);
    destruct (Z.eqb_spec (tcp_rx_buf_max_size c1) 0);
    destruct (Z.eqb_spec (tcp_rx_buf_max_size c2) 0);
    try lia; exfalso; apply Hmax; auto.
Qed.

Lemma no_overflow_below c1 c2 :
  wf_config c1 -> wf_config c2 ->
  spec_sum c1 <= spec_sum c2 -> sb_efficiency c1 <= sb_efficiency c2 ->
  no_overflow c2 = true -> no_overflow c1 = true.
Proof.
  intros Hwf1 Hwf2 Hs He Hno.
  pose proof (spec_sum_nonneg c1 Hwf1) as Hs1.
  apply wf_config_fields in Hwf1. apply wf_config_fields in Hwf2.
  unfold is_u32 in Hwf1, Hwf2.
  unfold no_overflow in *.
  apply andb_prop in Hno as [H1 H2].
  apply Z.ltb_lt in H1. apply Z.ltb_lt in H2.
  apply andb_true_intro. split; apply Z.ltb_lt; [lia |].
  pose proof (roundUpToPage_mono _ _ Hs) as Hr.
  pose proof (roundUpToPage_nonneg _ Hs1) as Hr1.
  assert (sb_efficiency c1 * roundUpToPage (spec_sum c1)
          <= sb_efficiency c2 * roundUpToPage (spec_sum c2))
    by (apply Z.mul_le_mono_nonneg; lia).
  lia.
Qed.

(** C4, as amended: for every configuration of 32-bit fields whose
    sum (with the page offset added) and whose final product both fit
    in 32 bits, the computed transfer-memory size is the reference
    formula: the TCP maxima, or the TCP sizes where a maximum is zero,
    plus the two UDP sizes, rounded up to the next multiple of 4096,
    times the efficiency factor. For the default configuration this is
    4 * roundUpToPage (0x40000 + 0x40000 + 0x2400 + 0xA500). *)
Theorem transfer_mem_size_formula (c : BsdBufferConfig) :
  wf_config c -> no_overflow c = true ->
  _bsdGetTransferMemSizeForConfig c = computeTransferMemorySize_spec c
  /\ _bsdGetTransferMemSizeForConfig g_defaultBsdBufferConfig
     = 4 * roundUpToPage (0x40000 + 0x40000 + 0x2400 + 0xA500).
Proof.
  intros Hwf Hno. split.
  - by apply size_eq_spec.
  - reflexivity.
Qed.

Lemma transfer_mem_size_formula_witness :
  _bsdGetTransferMemSizeForConfig g_defaultBsdBufferConfig
  = computeTransferMemorySize_spec g_defaultBsdBufferConfig
  /\ _bsdGetTransferMemSizeForConfig g_defaultBsdBufferConfig
     = 4 * roundUpToPage (0x40000 + 0x40000 + 0x2400 + 0xA500).
Proof.
  apply (transfer_mem_size_formula g_defaultBsdBufferConfig).
  - exact wf_config_default.
  - reflexivity.
Defined.

(** C4, as stated, fails: with a TCP send maximum of 0xFFFFFFFF the
    32-bit sum wraps when the page offset is added and the code returns
    0, where the formula gives 0x100000000. *)
Lemma transfer_mem_size_formula_overflow :
  wf_config overflowing_config
  /\ _bsdGetTransferMemSizeForConfig overflowing_config = 0
  /\ computeTransferMemorySize_spec overflowing_config = 0x100000000
  /\ _bsdGetTransferMemSizeForConfig overflowing_config
     <> computeTransferMemorySize_spec overflowing_config.
Proof.
  split; [| split; [| split]].
  - intros []; unfold is_u32; simpl; lia.
  - reflexivity.
  - reflexivity.
  - discriminate.
Qed.

(** C5, as amended: if two configurations of 32-bit fields agree on
    all fields except one, the second is at least as large in that
    field, the differing field is not a TCP maximum whose smaller value
    is 0, and nothing wraps at 32 bits for the second configuration,
    then the size computed for the second is at least the size computed
    for the first. *)
Theorem transfer_mem_size_monotone (f : config_field) (c1 c2 : BsdBufferConfig) :
  wf_config c1 -> wf_config c2 ->
  agree_except f c1 c2 ->
  config_get f c1 <= config_get f c2 ->
  (f = Ftcp_tx_buf_max_size \/ f = Ftcp_rx_buf_max_size ->
   config_get f c1 <> 0) ->
  no_overflow c2 = true ->
  _bsdGetTransferMemSizeForConfig c1 <= _bsdGetTransferMemSizeForConfig c2.
Proof.
  intros Hwf1 Hwf2 Hag Hle Hmax Hno2.
  destruct (spec_sum_mono f c1 c2 Hwf1 Hwf2 Hag Hle Hmax) as [Hs He].
  pose proof (no_overflow_below c1 c2 Hwf1 Hwf2 Hs He Hno2) as Hno1.
  rewrite (size_eq_spec c1 Hwf1 Hno1), (size_eq_spec c2 Hwf2 Hno2).
  unfold computeTransferMemorySize_spec.
  pose proof (spec_sum_nonneg c1 Hwf1) as Hs1.
  pose proof (roundUpToPage_nonneg _ Hs1).
  pose proof (roundUpToPage_mono _ _ Hs).
  apply wf_config_fields in Hwf1. unfold is_u32 in Hwf1.
  apply Z.mul_le_mono_nonneg; lia.
Qed.

Lemma wf_config_capped : wf_config capped_tx_config.
Proof. intros []; unfold is_u32; simpl; lia. Qed.

Lemma wf_config_fixed : wf_config fixed_tx_config.
Proof. intros []; unfold is_u32; simpl; lia. Qed.

Lemma wf_config_doubled : wf_config doubled_efficiency_config.
Proof. intros []; unfold is_u32; simpl; lia. Qed.

Lemma transfer_mem_size_monotone_witness :
  _bsdGetTransferMemSizeForConfig g_defaultBsdBufferConfig
  <= _bsdGetTransferMemSizeForConfig doubled_efficiency_config.
Proof.
  apply (transfer_mem_size_monotone Fsb_efficiency
           g_defaultBsdBufferConfig doubled_efficiency_config).
  - exact wf_config_default.
  - exact wf_config_doubled.
  - intros g Hg. destruct g; try reflexivity. by destruct Hg.
  - simpl. lia.
  - intros [Hf | Hf]; discriminate Hf.
  - reflexivity.
Defined.

(** C5, as stated, fails: raising the TCP send maximum from 0 (buffer
    fixed at its initial 0x10000 bytes) to 1 changes nothing else and
    lowers the computed size from 0x10000 to 0x1000; nothing wraps in
    either computation. *)
Lemma transfer_mem_size_not_monotone :
  wf_config fixed_tx_config /\ wf_config capped_tx_config
  /\ agree_except Ftcp_tx_buf_max_size fixed_tx_config capped_tx_config
  /\ config_get Ftcp_tx_buf_max_size fixed_tx_config
     <= config_get Ftcp_tx_buf_max_size capped_tx_config
  /\ no_overflow fixed_tx_config = true
  /\ no_overflow capped_tx_config = true
  /\ _bsdGetTransferMemSizeForConfig fixed_tx_config = 0x10000
  /\ _bsdGetTransferMemSizeForConfig capped_tx_config = 0x1000
  /\ ~ (_bsdGetTransferMemSizeForConfig fixed_tx_config
        <= _bsdGetTransferMemSizeForConfig capped_tx_config).
Proof.
  assert (E1 : _bsdGetTransferMemSizeForConfig fixed_tx_config = 0x10000)
    by reflexivity.
  assert (E2 : _bsdGetTransferMemSizeForConfig capped_tx_config = 0x1000)
    by reflexivity.
  split; [exact wf_config_fixed |].
  split; [exact wf_config_capped |].
  split.
  { intros g Hg. destruct g; try reflexivity. by destruct Hg. }
  split; [simpl; lia |].
  split; [reflexivity |].
  split; [reflexivity |].
  split; [exact E1 |].
  split; [exact E2 |].
  rewrite E1, E2. lia.
Qed.

End TransferMemSizeFormula.

(** ** Dispatch and reply decoding *)

Section DispatchFacts.

Context `{Headers}.
Variable srv : transport.

Lemma R_FAILED_not_SUCCEEDED rc : R_FAILED rc = negb (R_SUCCEEDED rc).
Proof. reflexivity. Qed.

Lemma overwrite_cons q o data mu :
  overwrite ((q, o) :: data) mu
  = overwrite data (match mu !! q with
                    | Some _ => <[q := o]> mu
                    | None => mu
                    end).
Proof. reflexivity. Qed.

(** The server overwrites objects; it neither creates nor removes one. *)
Lemma overwrite_is_Some data mu p :
  is_Some (overwrite data mu !! p) <-> is_Some (mu !! p).
Proof.
  revert mu. induction data as [| [q o] data IH]; intros mu; [done |].
  rewrite overwrite_cons, IH.
  destruct (mu !! q) as [o0 |] eqn:Eq; [| done].
  destruct (decide (q = p)) as [-> | Hne].
  - split; intros _; [by exists o0 |]. by rewrite lookup_insert_eq.
  - by rewrite lookup_insert_ne.
Qed.

Lemma deliver_is_Some m data mu p :
  is_Some (deliver m data mu !! p) <-> is_Some (mu !! p).
Proof.
  unfold deliver. destruct (supplies_receive_buffer m); [| done].
  apply overwrite_is_Some.
Qed.

Lemma basic_cases c w : dispatch_ends srv w (_bsdDispatchBasicCommand srv c w).
Proof.
  unfold _bsdDispatchBasicCommand, bind_M, serviceIpcDispatch, ipcParse,
    write_errno, ret_M.
  destruct (R_SUCCEEDED (o_rc (srv (msgbuf w)))) eqn:Hrc; simpl.
  - destruct (R_SUCCEEDED (u32 (result (o_reply (srv (msgbuf w)))))) eqn:Hst;
      simpl.
    + rewrite R_FAILED_not_SUCCEEDED, Hst. simpl. by apply Status_ok.
    + rewrite R_FAILED_not_SUCCEEDED, Hst. simpl.
      apply Status_failed; [done |]. by rewrite R_FAILED_not_SUCCEEDED, Hst.
  - rewrite R_FAILED_not_SUCCEEDED, Hrc. simpl.
    apply Transport_failed. by rewrite R_FAILED_not_SUCCEEDED, Hrc.
Qed.

End DispatchFacts.

(** ** The shape of every operation *)

Section Shape.

Context `{Headers}.
Variable srv : transport.

Lemma basic_some c w :
  exists ret r wd, _bsdDispatchBasicCommand srv c w = Some ((ret, r), wd).
Proof. destruct (basic_cases srv c w); eauto. Qed.

(** The state after a dispatch: what the client-side bookkeeping shows.
    The memory is the caller's memory with the data of the reply
    delivered; the decoder itself stores nothing. *)
Lemma basic_frame c w ret r wd :
  _bsdDispatchBasicCommand srv c w = Some ((ret, r), wd) ->
  sent wd = msgbuf w :: sent w
  /\ mem wd = deliver (msgbuf w) (o_data (srv (msgbuf w))) (mem w)
  /\ stores wd = stores w
  /\ msgbuf wd = msgbuf w.
Proof.
  intros E. pose proof (basic_cases srv c w) as Hd. rewrite E in Hd.
  inversion Hd; subst; simpl; auto.
Qed.

(** A pointer that held an object before the dispatch can be stored
    through after it. *)
Lemma store_after_dispatch c w ret r wd p o :
  _bsdDispatchBasicCommand srv c w = Some ((ret, r), wd) ->
  is_Some (mem w !! p) ->
  store p o wd = Some (tt, record_store p o wd).
Proof.
  intros E Hp.
  destruct (basic_frame _ _ _ _ _ E) as (_ & Hm & _).
  assert (Hq : is_Some (mem wd !! p))
    by (rewrite Hm; by apply deliver_is_Some).
  destruct Hq as [o' Hq]. unfold store. by rewrite Hq.
Qed.

(** A value other than [-1] can only come out of a parsed reply. *)
Lemma basic_ret_parsed c w ret r wd :
  _bsdDispatchBasicCommand srv c w = Some ((ret, r), wd) ->
  ret <> -1 -> r = Some (o_reply (srv (msgbuf w))).
Proof.
  intros E Hne. pose proof (basic_cases srv c w) as Hd. rewrite E in Hd.
  inversion Hd; subst; simpl; congruence.
Qed.

Lemma negb_eqb_true (a b : Z) : negb (a =? b) = true <-> a <> b.
Proof. rewrite negb_true_iff. apply Z.eqb_neq. Qed.

(** [_bsdDispatchCommandWithOutAddrlen]: one dispatch, then at most one
    store, through [addrlen]. *)
Lemma with_out_addrlen c addrlen w :
  addrlen = NULL \/ is_Some (mem w !! addrlen) ->
  exists ret r wd,
    _bsdDispatchBasicCommand srv c w = Some ((ret, r), wd)
    /\ _bsdDispatchCommandWithOutAddrlen srv c addrlen w
       = Some (ret,
               if negb (ret =? -1) && negb (addrlen =? NULL)
               then record_store addrlen
                      (Osocklen (u32 (trailing (o_reply (srv (msgbuf w))))))
                      wd
               else wd).
Proof.
  intros Hp.
  destruct (basic_some c w) as (ret & r & wd & E).
  exists ret, r, wd. split; [exact E |].
  unfold _bsdDispatchCommandWithOutAddrlen, bind_M. rewrite E.
  destruct (negb (ret =? -1) && negb (addrlen =? NULL)) eqn:Hc; [| done].
  apply andb_prop in Hc as [Hr Hn].
  apply negb_eqb_true in Hr. apply negb_eqb_true in Hn.
  rewrite (basic_ret_parsed _ _ _ _ _ E Hr).
  destruct Hp as [Hp | Hp]; [done |].
  by rewrite (store_after_dispatch _ _ _ _ _ _ _ E Hp).
Qed.

End Shape.

(** Proof steps shared by the facts about the operations. *)

Ltac open_op :=
  unfold exec, bsdSocket, bsdSocketExempt, _bsdSocketCreationCommand, bsdOpen,
    bsdSelect, bsdPoll, bsdSysctl, bsdRecv, bsdRecvFrom, bsdSend, bsdSendTo,
    bsdAccept, bsdBind, bsdConnect, bsdGetPeerName, bsdGetSockName,
    _bsdNameGetterCommand,
    bsdGetSockOpt, bsdListen, bsdIoctl, bsdIoctl_v, ioctl_classify,
    bsdFnctl, bsdFnctl_v, bsdSetSockOpt,
    bsdShutdown, bsdShutdownAllSockets, bsdWrite, bsdRead, bsdClose,
    bsdDuplicateSocket, ipcPrepareHeader, strnlen, load_socklen, load_size,
    load_timeval, load_ifconf, load_ifmediareq, load, va_arg_ptr, va_arg_int,
    write_errno, bind_M, ret_M, undefined.

(** Uses the validity of the call to settle the loads in front of the
    dispatch: a null pointer, or one that holds the expected object. *)
Ltac settle_pointer Hv :=
  unfold holds_socklen, holds_size, holds_timeval, holds_ifconf,
    holds_ifmediareq, holds_string in Hv;
  repeat match type of Hv with
  | context [?p =? NULL] =>
      let En := fresh "En" in destruct (p =? NULL) eqn:En; simpl in Hv
  | context [mem ?w !! ?p] =>
      let Em := fresh "Em" in
      destruct (mem w !! p) as [[] |] eqn:Em; try discriminate Hv
  end.

(** The descriptors of the message at hand are paired, unless the call
    is a [RecvFrom]. *)
Ltac solve_paired :=
  first [ left; reflexivity
        | right;
          unfold ipcAddSendBuffer, ipcAddSendStatic, ipcAddRecvBuffer,
            ipcAddRecvStatic, ipcInitialize;
          cbn [app m_descs paired]; unfold same_memory_pair;
          cbn [is_dynamic is_receive d_kind d_ptr d_size negb andb Bool.eqb];
          rewrite ?Z.eqb_refl; reflexivity ].

Ltac dispatch_basic w :=
  match goal with
  | |- context [_bsdDispatchBasicCommand ?s ?c (set_msgbuf ?m w)] =>
      let ret := fresh "ret" in
      let r := fresh "r" in
      let wd := fresh "wd" in
      let E := fresh "E" in
      destruct (basic_some s c (set_msgbuf m w)) as (ret & r & wd & E);
      exists m, ret, r, wd; split; [exact E |]; rewrite E;
      split; [solve_paired |]
  end.

Ltac dispatch_addrlen w :=
  match goal with
  | |- context [_bsdDispatchCommandWithOutAddrlen ?s ?c ?p (set_msgbuf ?m w)] =>
      let ret := fresh "ret" in
      let r := fresh "r" in
      let wd := fresh "wd" in
      let E := fresh "E" in
      let E' := fresh "E" in
      let Hp := fresh "Hp" in
      let Hc := fresh "Hc" in
      assert (Hp : p = NULL \/ is_Some (mem w !! p))
        by (first [ left; apply Z.eqb_eq; assumption | right; eauto ]);
      destruct (with_out_addrlen s c p (set_msgbuf m w) Hp)
        as (ret & r & wd & E & E');
      exists m, ret, r, wd; split; [exact E |]; rewrite E';
      split; [solve_paired |];
      destruct (negb (ret =? -1) && negb (p =? NULL)) eqn:Hc;
      [ right; apply andb_prop in Hc as [Hc _];
        apply negb_eqb_true in Hc;
        eexists _, _; split; [exact Hc | reflexivity]
      | left; reflexivity ]
  end.

Section ExecShape.

Context `{Headers}.
Variable srv : transport.

(** Every call with defined behaviour either is a locally rejected
    fcntl, or prepares one message, dispatches it once and returns the
    decoded value, after at most one store to caller memory that only
    happens when that value is not [-1]. Except for [RecvFrom], the
    descriptors of the message are dynamic/static pairs. *)
Lemma exec_shape op w :
  valid_call op w = true ->
  (exists fd cmd args,
      op = Fnctl fd cmd args /\ (cmd = F_GETFL \/ cmd = F_SETFL)
      /\ exec srv op w = Some (-1, set_errno 0 w))
  \/ exists m ret r wd,
      _bsdDispatchBasicCommand srv (m_descs m) (set_msgbuf m w)
      = Some ((ret, r), wd)
      /\ (is_recvfrom op = true \/ paired (m_descs m) = true)
      /\ (exec srv op w = Some (ret, wd)
          \/ exists p o, ret <> -1
                         /\ exec srv op w = Some (ret, record_store p o wd)).
Proof.
  intros Hv.
  destruct op; simpl in Hv.
  19: {
    destruct ((cmd =? F_GETFL) || (cmd =? F_SETFL)) eqn:Hc.
    - left. exists fd, cmd, args. split; [done |]. split.
      + apply orb_prop in Hc as [Hc | Hc]; apply Z.eqb_eq in Hc; auto.
      + open_op. rewrite Hc. reflexivity.
    - right. open_op. rewrite Hc.
      apply orb_false_elim in Hc as [_ Hc]. rewrite Hc.
      dispatch_basic w. left. reflexivity. }
  all: right.
  all: try (open_op; dispatch_basic w; left; reflexivity).
  - (* Open *)
    settle_pointer Hv. open_op. rewrite Em.
    dispatch_basic w. left. reflexivity.
  - (* Select *)
    settle_pointer Hv; open_op; rewrite ?En; simpl;
      rewrite ?Em; simpl; dispatch_basic w; left; reflexivity.
  - (* Sysctl *)
    settle_pointer Hv; open_op; rewrite ?En; simpl; rewrite ?Em; simpl;
      dispatch_basic w.
    + rewrite andb_false_r. left. reflexivity.
    + destruct (negb (ret0 =? -1)) eqn:Hr; simpl; [| left; reflexivity].
      apply negb_eqb_true in Hr.
      rewrite (basic_ret_parsed _ _ _ _ _ _ E Hr).
      right. eexists _, _. split; [exact Hr |].
      rewrite (store_after_dispatch _ _ _ _ _ _ _ _ E)
        by (simpl; rewrite Em; eauto).
      reflexivity.
  - (* RecvFrom *)
    settle_pointer Hv; open_op; rewrite ?En; simpl;
      rewrite ?Em; simpl; dispatch_addrlen w.
  - (* Accept *)
    settle_pointer Hv; open_op; rewrite ?En; simpl;
      rewrite ?Em; simpl; dispatch_addrlen w.
  - (* GetPeerName *)
    settle_pointer Hv; open_op; rewrite ?En; simpl;
      rewrite ?Em; simpl; dispatch_addrlen w.
  - (* GetSockName *)
    settle_pointer Hv; open_op; rewrite ?En; simpl;
      rewrite ?Em; simpl; dispatch_addrlen w.
  - (* GetSockOpt *)
    settle_pointer Hv; open_op; rewrite ?En; simpl;
      rewrite ?Em; simpl; dispatch_basic w; left; reflexivity.
  - (* Ioctl *)
    open_op.
    destruct (request =? to_int SIOCGIFCONF).
    { destruct args as [| [v | p] rest]; try discriminate Hv.
      settle_pointer Hv. simpl. rewrite ?Em. simpl.
      dispatch_basic w. left. reflexivity. }
    destruct ((request =? to_int SIOCGIFMEDIA)
              || (request =? to_int SIOCGIFXMEDIA)).
    { destruct args as [| [v | p] rest]; try discriminate Hv.
      settle_pointer Hv. simpl. rewrite ?Em. simpl.
      dispatch_basic w. left. reflexivity. }
    destruct (negb (Z.land request IOC_INOUT =? 0)).
    { destruct args as [| [v | p] rest]; try discriminate Hv. simpl.
      dispatch_basic w. left. reflexivity. }
    dispatch_basic w. left. reflexivity.
Qed.

End ExecShape.

(** ** The error contract of the operations *)

Section ErrorContract.

Context `{Headers}.
Variable srv : transport.

Lemma cons_not_self {A} (x : A) (l : list A) : x :: l <> l.
Proof.
  intros E. apply (f_equal length) in E. simpl in E. lia.
Qed.

(** C2. For every operation with defined behaviour that reaches the
    transport (every one but an fcntl the adapter turns down, which
    dispatches nothing): the operation returns a value after handing
    exactly one message to the transport, and if the transport call on
    that message failed, then the value is [-1], [errno] is [EPIPE] and
    the reply was not parsed, whatever the reply buffer holds. *)
Theorem transport_failure_is_EPIPE (op : call) (w : world) :
  valid_call op w = true ->
  rejected_fcntl op = false ->
  exists r w' m,
    exec srv op w = Some (r, w')
    /\ sent w' = m :: sent w
    /\ (R_FAILED (o_rc (srv m)) = true ->
        r = -1 /\ errno w' = EPIPE /\ parsed w' = parsed w).
Proof.
  intros Hv Hnr.
  destruct (exec_shape srv op w Hv)
    as [(fd & cmd & args & -> & Hc & E)
       | (m0 & ret & r & wd & E & _ & Hex)].
  - exfalso. simpl in Hnr. apply orb_false_elim in Hnr as [Hg Hs].
    apply Z.eqb_neq in Hg. apply Z.eqb_neq in Hs. by destruct Hc.
  - pose proof (basic_cases srv (m_descs m0) (set_msgbuf m0 w)) as Hd.
    rewrite E in Hd.
    destruct (basic_frame srv _ _ _ _ _ E) as (Hsent & _). simpl in Hsent.
    assert (Hpost : R_FAILED (o_rc (srv m0)) = true ->
                    ret = -1 /\ errno wd = EPIPE /\ parsed wd = parsed w).
    { intros Hfail.
      inversion Hd as [Hf | Hs Hf | Hs Hs2]; subst; simpl in *.
      - done.
      - rewrite R_FAILED_not_SUCCEEDED, Hs in Hfail. discriminate.
      - rewrite R_FAILED_not_SUCCEEDED, Hs in Hfail. discriminate. }
    destruct Hex as [Hex | (p & o & Hne & Hex)].
    + exists ret, wd, m0. by repeat split; [| | apply Hpost ..].
    + exists ret, (record_store p o wd), m0.
      split; [exact Hex |]. split; [exact Hsent |].
      intros Hfail. destruct (Hpost Hfail) as (Hr & _). done.
Qed.

(** C3. For every operation with defined behaviour that reaches the
    transport (every one but an fcntl the adapter turns down): the
    operation returns a value after handing exactly one message to the
    transport, and if the transport call on that message succeeded, the
    reply's status code is success and the reply's embedded return
    value is [-1], then the value is [-1] and [errno] is the reply's
    embedded errno field (it is not replaced by [EPIPE]). *)
Theorem posix_failure_keeps_errno (op : call) (w : world) :
  valid_call op w = true ->
  rejected_fcntl op = false ->
  exists r w' m,
    exec srv op w = Some (r, w')
    /\ sent w' = m :: sent w
    /\ (R_SUCCEEDED (o_rc (srv m)) = true ->
        result (o_reply (srv m)) = 0 ->
        ret (o_reply (srv m)) = -1 ->
        r = -1 /\ errno w' = errno_ (o_reply (srv m))).
Proof.
  intros Hv Hnr.
  destruct (exec_shape srv op w Hv)
    as [(fd & cmd & args & -> & Hc & E)
       | (m0 & ret0 & r & wd & E & _ & Hex)].
  - exfalso. simpl in Hnr. apply orb_false_elim in Hnr as [Hg Hs].
    apply Z.eqb_neq in Hg. apply Z.eqb_neq in Hs. by destruct Hc.
  - pose proof (basic_cases srv (m_descs m0) (set_msgbuf m0 w)) as Hd.
    rewrite E in Hd.
    destruct (basic_frame srv _ _ _ _ _ E) as (Hsent & _). simpl in Hsent.
    assert (Hpost : R_SUCCEEDED (o_rc (srv m0)) = true ->
                    result (o_reply (srv m0)) = 0 ->
                    ret (o_reply (srv m0)) = -1 ->
                    ret0 = -1 /\ errno wd = errno_ (o_reply (srv m0))).
    { intros Hok Hst Hret.
      inversion Hd as [Hf | Hs Hf | Hs Hs2]; subst; simpl in *.
      - rewrite R_FAILED_not_SUCCEEDED, Hok in Hf. discriminate.
      - rewrite Hst in Hf. discriminate.
      - done. }
    destruct Hex as [Hex | (p & o & Hne & Hex)].
    + exists ret0, wd, m0. by repeat split; [| | apply Hpost ..].
    + exists ret0, (record_store p o wd), m0.
      split; [exact Hex |]. split; [exact Hsent |].
      intros Hok Hst Hret. destruct (Hpost Hok Hst Hret) as (Hr & _). done.
Qed.

End ErrorContract.

(** ** Buffer descriptors of the operations *)

Section Descriptors.

Context `{Headers}.
Variable srv : transport.

(** Every operation other than [bsdRecvFrom] attaches its descriptors
    in pairs: a dynamic descriptor followed by the static descriptor of
    the same direction, address and length. *)
Lemma descriptors_paired_elsewhere (op : call) (w : world) r w' m :
  valid_call op w = true ->
  is_recvfrom op = false ->
  exec srv op w = Some (r, w') ->
  sent w' = m :: sent w ->
  paired (m_descs m) = true.
Proof.
  intros Hv Hnr Hex Hsent.
  destruct (exec_shape srv op w Hv)
    as [(fd & cmd & args & -> & _ & E)
       | (m0 & ret0 & r0 & wd & E & Hp & Hex')].
  - rewrite E in Hex. injection Hex as <- <-.
    simpl in Hsent. symmetry in Hsent. by apply cons_not_self in Hsent.
  - destruct Hp as [Hp | Hp]; [congruence |].
    destruct (basic_frame srv _ _ _ _ _ E) as (Hs & _).
    simpl in Hs.
    destruct Hex' as [Hex' | (p & o & _ & Hex')];
      rewrite Hex' in Hex; injection Hex as <- <-; simpl in Hsent;
      rewrite Hs in Hsent; injection Hsent as <-; exact Hp.
Qed.

(** C10. For every [nfds], [bsdPoll] hands the transport a message
    whose four descriptors (send dynamic, send static, receive dynamic,
    receive static) all describe [sizeof(struct pollfd)] bytes at
    [fds], the size of one element, whatever [nfds] is; [nfds] itself
    travels as a scalar of the header. *)
Theorem poll_describes_one_pollfd (fds : ptr) (nfds timeout : Z) (w : world) :
  exists r w',
    exec srv (Poll fds nfds timeout) w = Some (r, w')
    /\ sent w'
       = {| m_descs := send_pair fds sizeof_pollfd 0
                       ++ recv_pair fds sizeof_pollfd 0;
            m_raw := [("magic", SFCI_MAGIC); ("cmd_id", 6);
                      ("nfds", nfds); ("timeout", timeout)] |}
         :: sent w.
Proof.
  open_op.
  match goal with
  | |- context [_bsdDispatchBasicCommand srv ?c ?w0] =>
      destruct (basic_some srv c w0) as (ret0 & r & wd & E);
      destruct (basic_frame srv _ _ _ _ _ E) as (Hs & _)
  end.
  rewrite E. exists ret0, wd. split; [reflexivity |]. exact Hs.
Qed.

End Descriptors.

(** C1, at the input where the code departs from it: for
    [bsdRecvFrom(3, buf, 64, 0, src_addr, &addrlen)] with [addrlen = 16]
    the source-address parameter gets two receive-buffer (dynamic)
    descriptors and no receive-static one, so the descriptors of the
    message are not dynamic/static pairs. *)
Theorem recvfrom_source_address_not_paired :
  exists w' m,
    @exec bsd_lp64_headers accepting_server
      (RecvFrom 3 1000 64 0 2000 100) sample_world = Some (5, w')
    /\ sent w' = [m]
    /\ m_descs m
       = recv_pair 1000 64 0
         ++ [{| d_kind := RecvBuffer; d_ptr := 2000; d_size := 16; d_flag := 0 |};
             {| d_kind := RecvBuffer; d_ptr := 2000; d_size := 16; d_flag := 0 |}]
    /\ paired (m_descs m) = false.
Proof.
  eexists _, _. split; [vm_compute; reflexivity |].
  split; [reflexivity |]. split; reflexivity.
Qed.

(** ** Trailing reply fields *)

Section ReturnedAddressLength.

Context `{Headers}.
Variable srv : transport.

(** What [_bsdDispatchCommandWithOutAddrlen] does to caller memory. *)
Lemma with_out_addrlen_post c addrlen w :
  addrlen = NULL \/ is_Some (mem w !! addrlen) ->
  exists r w',
    _bsdDispatchCommandWithOutAddrlen srv c addrlen w = Some (r, w')
    /\ sent w' = msgbuf w :: sent w
    /\ (r <> -1 /\ addrlen <> NULL ->
        stores w'
        = (addrlen, Osocklen (u32 (trailing (o_reply (srv (msgbuf w))))))
          :: stores w
        /\ mem w'
           = <[addrlen := Osocklen (u32 (trailing (o_reply (srv (msgbuf w)))))]>
               (deliver (msgbuf w) (o_data (srv (msgbuf w))) (mem w)))
    /\ (~ (r <> -1 /\ addrlen <> NULL) ->
        stores w' = stores w
        /\ mem w' = deliver (msgbuf w) (o_data (srv (msgbuf w))) (mem w)).
Proof.
  intros Hp.
  destruct (with_out_addrlen srv c addrlen w Hp) as (r & r0 & wd & E & E').
  destruct (basic_frame srv _ _ _ _ _ E) as (Hs & Hm & Hst & _).
  rewrite E'. eexists _, _. split; [reflexivity |].
  destruct (negb (r =? -1) && negb (addrlen =? NULL)) eqn:Hc.
  - apply andb_prop in Hc as [Hc1 Hc2].
    apply negb_eqb_true in Hc1. apply negb_eqb_true in Hc2.
    split; [exact Hs |]. split.
    + intros _. simpl. by rewrite Hst, Hm.
    + intros Hno. exfalso. apply Hno. by split.
  - split; [exact Hs |]. split.
    + intros [Hr Hn].
      apply negb_eqb_true in Hr. apply negb_eqb_true in Hn.
      rewrite Hr, Hn in Hc. discriminate.
    + intros _. by split.
Qed.

(** C7. For [getsockname], [getpeername], [accept] and [recvfrom] (the
    operations whose reply carries a trailing returned address length)
    with defined behaviour: the operation returns a value after handing
    one message to the transport; if that value is not [-1] and the
    caller's address-length pointer is not null, exactly one store is
    made, through that pointer, of the reply's trailing address length;
    otherwise no store is made. In both cases the caller's memory is
    otherwise as the transport left it: the memory before the call with
    the data of the reply delivered into the receive buffers. *)
Theorem addrlen_written_iff (op : call) (addrlen : ptr) (w : world) :
  addrlen_of op = Some addrlen ->
  valid_call op w = true ->
  exists r w' m,
    exec srv op w = Some (r, w')
    /\ sent w' = m :: sent w
    /\ (r <> -1 /\ addrlen <> NULL ->
        stores w'
        = (addrlen, Osocklen (u32 (trailing (o_reply (srv m)))))
          :: stores w
        /\ mem w'
           = <[addrlen := Osocklen (u32 (trailing (o_reply (srv m))))]>
               (deliver m (o_data (srv m)) (mem w)))
    /\ (~ (r <> -1 /\ addrlen <> NULL) ->
        stores w' = stores w
        /\ mem w' = deliver m (o_data (srv m)) (mem w)).
Proof.
  intros Ha Hv.
  destruct op; try discriminate Ha; simpl in Ha;
    injection Ha as ->; simpl in Hv;
    settle_pointer Hv; open_op; rewrite ?En; simpl; rewrite ?Em; simpl.
  all: match goal with
       | |- context [_bsdDispatchCommandWithOutAddrlen srv ?c ?p
                       (set_msgbuf ?m ?w0)] =>
           assert (Hp : p = NULL \/ is_Some (mem w0 !! p))
             by (first [ left; apply Z.eqb_eq; assumption | right; eauto ]);
           destruct (with_out_addrlen_post c p (set_msgbuf m w0) Hp)
             as (r & w' & E & Hs & Hyes & Hno);
           exists r, w', m; split; [exact E |]; split; [exact Hs |]; split;
           [ exact Hyes | exact Hno ]
       end.
Qed.

End ReturnedAddressLength.

(** ** The fcntl adapter *)

Section Fcntl.

Context `{Headers}.
Variable srv : transport.

(** C8. For every descriptor and argument list, [bsdFnctl] with the
    request code [F_GETFL] or [F_SETFL] returns [-1] with [errno] set
    to 0 and hands nothing to the transport: no message is sent, no
    reply parsed, the caller's memory is untouched. *)
Theorem fcntl_flags_rejected_locally (fd cmd : Z) (args : list vararg)
        (w : world) :
  cmd = F_GETFL \/ cmd = F_SETFL ->
  exists w',
    exec srv (Fnctl fd cmd args) w = Some (-1, w')
    /\ errno w' = 0
    /\ sent w' = sent w /\ parsed w' = parsed w
    /\ mem w' = mem w /\ stores w' = stores w.
Proof.
  intros Hcmd. exists (set_errno 0 w).
  split; [| by repeat split].
  open_op.
  assert (Hc : (cmd =? F_GETFL) || (cmd =? F_SETFL) = true).
  { apply orb_true_iff. destruct Hcmd as [-> | ->];
      [left | right]; apply Z.eqb_refl. }
  rewrite Hc. reflexivity.
Qed.

(** C9, as amended. For every fcntl request code other than [F_GETFL]
    and [F_SETFL], and for every list of variadic arguments (the empty
    one included), the command handed to the transport carries the
    descriptor, the request code and one scalar argument, and that
    argument is 0: the only [va_arg] of the function sits behind
    [cmd == F_SETFL], a request the earlier guard has already turned
    down, so for the requests that are forwarded no argument is ever
    extracted. *)
Theorem fcntl_forwarded_argument_is_zero (fd cmd : Z) (args : list vararg)
      (w : world) :
  cmd <> F_GETFL -> cmd <> F_SETFL ->
  exists r w',
    exec srv (Fnctl fd cmd args) w = Some (r, w')
    /\ sent w'
       = {| m_descs := [];
            m_raw := [("magic", SFCI_MAGIC); ("cmd_id", 20); ("fd", fd);
                      ("cmd", cmd); ("arg", 0)] |} :: sent w.
Proof.
  intros Hg Hs. open_op.
  apply Z.eqb_neq in Hg. apply Z.eqb_neq in Hs. rewrite Hg, Hs. simpl.
  match goal with
  | |- context [_bsdDispatchBasicCommand srv ?c ?w0] =>
      destruct (basic_some srv c w0) as (ret0 & r & wd & E);
      destruct (basic_frame srv _ _ _ _ _ E) as (Hsent & _)
  end.
  rewrite E. exists ret0, wd. split; [reflexivity |]. exact Hsent.
Qed.

End Fcntl.

(** C9 as stated fails at [bsdFnctl(3, F_SETFD, FD_CLOEXEC)], that is
    request code 2 with the variadic argument 1: the request carries an
    argument, and the command is sent with the argument field 0, not
    the 1 an extraction would give. *)
Lemma fcntl_setfd_argument_dropped :
  exists w',
    @exec bsd_lp64_headers accepting_server (Fnctl 3 2 [VaInt 1]) sample_world
    = Some (5, w')
    /\ sent w'
       = [{| m_descs := [];
             m_raw := [("magic", 0x49434653); ("cmd_id", 20); ("fd", 3);
                       ("cmd", 2); ("arg", 0)] |}]
    /\ sent w'
       <> [{| m_descs := [];
              m_raw := [("magic", 0x49434653); ("cmd_id", 20); ("fd", 3);
                        ("cmd", 2); ("arg", 1)] |}].
Proof.
  eexists. split; [vm_compute; reflexivity |].
  split; [reflexivity | discriminate].
Qed.

(** ** The ioctl adapter *)

Section Ioctl.

Context `{Headers}.
Variable srv : transport.

(** The interface-list request, for any header: the second buffer's
    length is [ifc_len] converted from [int] to [size_t]. *)
Lemma ioctl_ifconf_descriptors (fd : Z) (data : ptr) (rest : list vararg)
      (w : world) ifc_len ifc_req :
  mem w !! data = Some (Oifconf ifc_len ifc_req) ->
  exists r w' m,
    exec srv (Ioctl fd (to_int SIOCGIFCONF) (VaPtr data :: rest)) w
    = Some (r, w')
    /\ sent w' = m :: sent w
    /\ m_descs m
       = ioctl_two_buffers data sizeof_ifconf ifc_req (u64 ifc_len).
Proof.
  intros Hmem.
  open_op. rewrite Z.eqb_refl. simpl. rewrite Hmem. simpl.
  match goal with
  | |- context [_bsdDispatchBasicCommand srv ?c ?w0] =>
      destruct (basic_some srv c w0) as (ret0 & r & wd & E);
      destruct (basic_frame srv _ _ _ _ _ E) as (Hs & _)
  end.
  rewrite E. eexists _, _, _. split; [reflexivity |].
  split; [exact Hs | reflexivity].
Qed.

(** The media requests, for any header: the second buffer's length is
    the [int] product [8 * ifm_count] converted to [size_t]. *)
Lemma ioctl_media_descriptors (fd request : Z) (data : ptr)
      (rest : list vararg) (w : world) ifm_count ifm_ulist :
  request <> to_int SIOCGIFCONF ->
  request = to_int SIOCGIFMEDIA \/ request = to_int SIOCGIFXMEDIA ->
  mem w !! data = Some (Oifmediareq ifm_count ifm_ulist) ->
  exists r w' m,
    exec srv (Ioctl fd request (VaPtr data :: rest)) w = Some (r, w')
    /\ sent w' = m :: sent w
    /\ m_descs m
       = ioctl_two_buffers data sizeof_ifmediareq ifm_ulist
                           (u64 (to_int (8 * ifm_count))).
Proof.
  intros Hne Hreq Hmem.
  apply Z.eqb_neq in Hne.
  assert (Hmedia : (request =? to_int SIOCGIFMEDIA)
                   || (request =? to_int SIOCGIFXMEDIA) = true).
  { apply orb_true_iff. destruct Hreq as [-> | ->];
      [left | right]; apply Z.eqb_refl. }
  open_op. rewrite Hne, Hmedia. simpl. rewrite Hmem. simpl.
  match goal with
  | |- context [_bsdDispatchBasicCommand srv ?c ?w0] =>
      destruct (basic_some srv c w0) as (ret0 & r & wd & E);
      destruct (basic_frame srv _ _ _ _ _ E) as (Hs & _)
  end.
  rewrite E. eexists _, _, _. split; [reflexivity |].
  split; [exact Hs | reflexivity].
Qed.

(** C6, as amended. For the two multi-buffer kinds of request the
    length of the second buffer comes from the header the variadic
    pointer refers to, for whatever value the header holds: for
    [SIOCGIFCONF] it is the header's [ifc_len] converted from [int] to
    [size_t], for [SIOCGIFMEDIA] and [SIOCGIFXMEDIA] it is the [int]
    product [8 * ifm_count] converted alike. The conversion leaves a
    value that is not negative as it is and adds 2^64 to a negative
    one. The header itself is described with its fixed size. The case
    labels are taken to be distinct, as C requires. *)
Theorem ioctl_second_buffer_from_header (fd : Z) (data : ptr)
        (rest : list vararg) (w : world) :
  to_int SIOCGIFMEDIA <> to_int SIOCGIFCONF ->
  to_int SIOCGIFXMEDIA <> to_int SIOCGIFCONF ->
  (forall ifc_len ifc_req,
      mem w !! data = Some (Oifconf ifc_len ifc_req) ->
      exists r w' m len,
        exec srv (Ioctl fd (to_int SIOCGIFCONF) (VaPtr data :: rest)) w
        = Some (r, w')
        /\ sent w' = m :: sent w
        /\ m_descs m = ioctl_two_buffers data sizeof_ifconf ifc_req len
        /\ len = ifc_len mod 2 ^ 64
        /\ (0 <= ifc_len < 2 ^ 31 -> len = ifc_len)
        /\ (- 2 ^ 31 <= ifc_len < 0 -> len = 2 ^ 64 + ifc_len))
  /\ (forall request ifm_count ifm_ulist,
      request = to_int SIOCGIFMEDIA \/ request = to_int SIOCGIFXMEDIA ->
      mem w !! data = Some (Oifmediareq ifm_count ifm_ulist) ->
      exists r w' m len,
        exec srv (Ioctl fd request (VaPtr data :: rest)) w = Some (r, w')
        /\ sent w' = m :: sent w
        /\ m_descs m
           = ioctl_two_buffers data sizeof_ifmediareq ifm_ulist len
        /\ len = to_int (8 * ifm_count) mod 2 ^ 64
        /\ (0 <= 8 * ifm_count < 2 ^ 31 -> len = 8 * ifm_count)
        /\ (- 2 ^ 31 <= 8 * ifm_count < 0 -> len = 2 ^ 64 + 8 * ifm_count)).
Proof.
  intros Hm1 Hm2. split.
  - intros ifc_len ifc_req Hmem.
    destruct (ioctl_ifconf_descriptors fd data rest w _ _ Hmem)
      as (r & w' & m & E & Hs & Hd).
    exists r, w', m, (u64 ifc_len).
    split; [exact E |]. split; [exact Hs |]. split; [exact Hd |].
    split; [reflexivity |]. split.
    + intros Hr. apply u64_id. lia.
    + intros Hr. unfold u64. symmetry.
      apply (Z.mod_unique _ _ (-1)); lia.
  - intros request ifm_count ifm_ulist Hreq Hmem.
    assert (Hne : request <> to_int SIOCGIFCONF)
      by (destruct Hreq; congruence).
    destruct (ioctl_media_descriptors fd request data rest w _ _ Hne Hreq Hmem)
      as (r & w' & m & E & Hs & Hd).
    exists r, w', m, (u64 (to_int (8 * ifm_count))).
    split; [exact E |]. split; [exact Hs |]. split; [exact Hd |].
    split; [reflexivity |]. split.
    + intros Hr. rewrite to_int_id by (unfold is_int; lia).
      apply u64_id. lia.
    + intros Hr. rewrite to_int_id by (unfold is_int; lia).
      unfold u64. symmetry. apply (Z.mod_unique _ _ (-1)); lia.
Qed.

End Ioctl.

(** C6 as stated fails where the header holds a negative count: with
    [ifc_len = -1] the second buffer is described with 2^64 - 1 bytes,
    which is not the header's [ifc_len]. *)
Lemma ioctl_negative_length_is_not_the_field :
  exists r w' m,
    mem negative_count_world !! 200 = Some (Oifconf (-1) 208)
    /\ @exec bsd_lp64_headers accepting_server
         (Ioctl 3 (to_int 0xC0106924) [VaPtr 200]) negative_count_world
       = Some (r, w')
    /\ sent w' = [m]
    /\ m_descs m = ioctl_two_buffers 200 16 208 (2 ^ 64 - 1)
    /\ m_descs m <> ioctl_two_buffers 200 16 208 (-1).
Proof.
  eexists _, _, _. split; [reflexivity |].
  split; [vm_compute; reflexivity |]. split; [reflexivity |].
  split; [reflexivity | discriminate].
Qed.

(** ** The theorems at concrete inputs *)

Lemma transport_failure_is_EPIPE_witness :
  exists r w' m,
    @exec bsd_lp64_headers broken_channel (Recv 3 1000 16 0) sample_world
    = Some (r, w')
    /\ sent w' = m :: sent sample_world
    /\ r = -1 /\ errno w' = 32 /\ parsed w' = 0%nat.
Proof.
  destruct (@transport_failure_is_EPIPE bsd_lp64_headers broken_channel
              (Recv 3 1000 16 0) sample_world eq_refl eq_refl)
    as (r & w' & m & E & Hs & Hpost).
  exists r, w', m. split; [exact E |]. split; [exact Hs |].
  apply Hpost. reflexivity.
Defined.

Lemma posix_failure_keeps_errno_witness :
  exists r w' m,
    @exec bsd_lp64_headers refusing_server (Accept 3 1000 100) sample_world
    = Some (r, w')
    /\ sent w' = m :: sent sample_world
    /\ r = -1 /\ errno w' = 9.
Proof.
  destruct (@posix_failure_keeps_errno bsd_lp64_headers refusing_server
              (Accept 3 1000 100) sample_world eq_refl eq_refl)
    as (r & w' & m & E & Hs & Hpost).
  exists r, w', m. split; [exact E |]. split; [exact Hs |].
  apply Hpost; reflexivity.
Defined.

Lemma addrlen_written_iff_witness :
  exists r w' m,
    @exec bsd_lp64_headers accepting_server (GetSockName 3 1000 100) sample_world
    = Some (r, w')
    /\ sent w' = m :: sent sample_world
    /\ r = 5 /\ stores w' = [(100, Osocklen 28)]
    /\ mem w' !! 100 = Some (Osocklen 28).
Proof.
  destruct (@addrlen_written_iff bsd_lp64_headers accepting_server
              (GetSockName 3 1000 100) 100 sample_world eq_refl eq_refl)
    as (r & w' & m & E & Hs & Hyes & _).
  exists r, w', m. split; [exact E |]. split; [exact Hs |].
  assert (Hr : r = 5) by (vm_compute in E; congruence).
  split; [exact Hr |].
  destruct Hyes as (Hst & Hmem).
  { split; [rewrite Hr; discriminate | discriminate]. }
  split; [exact Hst |].
  rewrite Hmem. apply lookup_insert_eq.
Defined.

Lemma fcntl_flags_rejected_locally_witness :
  exists w',
    @exec bsd_lp64_headers accepting_server (Fnctl 3 4 [VaInt 2048]) sample_world
    = Some (-1, w')
    /\ errno w' = 0
    /\ sent w' = sent sample_world /\ parsed w' = parsed sample_world
    /\ mem w' = mem sample_world /\ stores w' = stores sample_world.
Proof.
  apply (@fcntl_flags_rejected_locally bsd_lp64_headers accepting_server
           3 4 [VaInt 2048] sample_world).
  right. reflexivity.
Defined.

Lemma ioctl_second_buffer_from_header_witness :
  (exists r w' m,
      @exec bsd_lp64_headers accepting_server
        (Ioctl 3 (to_int 0xC0106924) [VaPtr 200]) sample_world = Some (r, w')
      /\ sent w' = m :: sent sample_world
      /\ m_descs m = ioctl_two_buffers 200 16 208 64)
  /\ (exists r w' m,
        @exec bsd_lp64_headers accepting_server
          (Ioctl 3 (to_int 0xC0306938) [VaPtr 300]) negative_count_world
        = Some (r, w')
        /\ sent w' = m :: sent negative_count_world
        /\ m_descs m = ioctl_two_buffers 300 48 348 (2 ^ 64 - 8)).
Proof.
  split.
  - destruct (@ioctl_second_buffer_from_header bsd_lp64_headers
                accepting_server 3 200 [] sample_world) as [Hconf _].
    + vm_compute. discriminate.
    + vm_compute. discriminate.
    + destruct (Hconf 64 208 eq_refl)
        as (r & w' & m & len & E & Hs & Hd & _ & Hlen & _).
      exists r, w', m. split; [exact E |]. split; [exact Hs |].
      rewrite Hd, Hlen by lia. reflexivity.
  - destruct (@ioctl_second_buffer_from_header bsd_lp64_headers
                accepting_server 3 300 [] negative_count_world) as [_ Hmedia].
    + vm_compute. discriminate.
    + vm_compute. discriminate.
    + destruct (Hmedia (to_int 0xC0306938) (-1) 348 (or_introl eq_refl) eq_refl)
        as (r & w' & m & len & E & Hs & Hd & _ & _ & Hlen).
      exists r, w', m. split; [exact E |]. split; [exact Hs |].
      rewrite Hd, Hlen by lia. reflexivity.
Defined.

Lemma fcntl_forwarded_argument_is_zero_witness :
  exists r w',
    @exec bsd_lp64_headers accepting_server (Fnctl 3 2 []) sample_world
    = Some (r, w')
    /\ sent w'
       = {| m_descs := [];
            m_raw := [("magic", 0x49434653); ("cmd_id", 20); ("fd", 3);
                      ("cmd", 2); ("arg", 0)] |} :: sent sample_world.
Proof.
  apply (@fcntl_forwarded_argument_is_zero bsd_lp64_headers accepting_server
           3 2 [] sample_world); discriminate.
Defined.

(** ** What every operation hands to the transport *)

Ltac solve_message_facts :=
  split; [ eexists; reflexivity
         | split; [ first [ left; reflexivity | right; reflexivity ] | ] ].

Ltac send_basic w :=
  match goal with
  | |- context [_bsdDispatchBasicCommand ?s ?c (set_msgbuf ?m w)] =>
      let ret := fresh "ret" in
      let r := fresh "r" in
      let wd := fresh "wd" in
      let E := fresh "E" in
      destruct (basic_some s c (set_msgbuf m w)) as (ret & r & wd & E);
      exists m, ret, r, wd; split; [exact E |]; rewrite E;
      solve_message_facts
  end.

Ltac send_addrlen w :=
  match goal with
  | |- context [_bsdDispatchCommandWithOutAddrlen ?s ?c ?p (set_msgbuf ?m w)] =>
      let ret := fresh "ret" in
      let r := fresh "r" in
      let wd := fresh "wd" in
      let E := fresh "E" in
      let E' := fresh "E" in
      let Hp := fresh "Hp" in
      let Hc := fresh "Hc" in
      assert (Hp : p = NULL \/ is_Some (mem w !! p))
        by (first [ left; apply Z.eqb_eq; assumption | right; eauto ]);
      destruct (with_out_addrlen s c p (set_msgbuf m w) Hp)
        as (ret & r & wd & E & E');
      exists m, ret, r, wd; split; [exact E |]; rewrite E';
      solve_message_facts;
      destruct (negb (ret =? -1) && negb (p =? NULL)) eqn:Hc;
      [ right; split; [reflexivity |];
        apply andb_prop in Hc as [Hc _];
        apply negb_eqb_true in Hc;
        eexists _, _; split; [exact Hc | reflexivity]
      | left; reflexivity ]
  end.

Section ExecMessage.

Context `{Headers}.
Variable srv : transport.

(** Every call with defined behaviour either is an fcntl the adapter
    turns down, or prepares one message whose header starts with the
    magic and the operation's [cmd_id], dispatches it once and returns
    the decoded value; only the operations with a trailing reply field
    may then store to caller memory, and only when that value is not
    [-1]. Outside [SendTo] every descriptor carries the index 0. *)
Lemma exec_message op w :
  valid_call op w = true ->
  (rejected_fcntl op = true /\ exec srv op w = Some (-1, set_errno 0 w))
  \/ (rejected_fcntl op = false
      /\ exists m ret r wd,
        _bsdDispatchBasicCommand srv (m_descs m) (set_msgbuf m w)
        = Some ((ret, r), wd)
        /\ headed op m
        /\ (is_sendto op = true \/ all_flags_zero m = true)
        /\ (exec srv op w = Some (ret, wd)
            \/ (writes_back op = true
                /\ exists p o, ret <> -1
                               /\ exec srv op w
                                  = Some (ret, record_store p o wd)))).
Proof.
  intros Hv.
  destruct op; simpl in Hv.
  19: {
    unfold rejected_fcntl.
    destruct ((cmd =? F_GETFL) || (cmd =? F_SETFL)) eqn:Hc.
    - left. split; [done |]. open_op. rewrite Hc. reflexivity.
    - right. split; [done |]. open_op. rewrite Hc.
      apply orb_false_elim in Hc as [_ Hc]. rewrite Hc.
      send_basic w. left. reflexivity. }
  all: right; split; [reflexivity |].
  all: try (open_op; send_basic w; left; reflexivity).
  - (* Open *)
    settle_pointer Hv. open_op. rewrite Em.
    send_basic w. left. reflexivity.
  - (* Select *)
    settle_pointer Hv; open_op; rewrite ?En; simpl;
      rewrite ?Em; simpl; send_basic w; left; reflexivity.
  - (* Sysctl *)
    settle_pointer Hv; open_op; rewrite ?En; simpl; rewrite ?Em; simpl;
      send_basic w.
    + rewrite andb_false_r. left. reflexivity.
    + destruct (negb (ret0 =? -1)) eqn:Hr; simpl; [| left; reflexivity].
      apply negb_eqb_true in Hr.
      rewrite (basic_ret_parsed _ _ _ _ _ _ E Hr).
      right. split; [reflexivity |]. eexists _, _. split; [exact Hr |].
      rewrite (store_after_dispatch _ _ _ _ _ _ _ _ E)
        by (simpl; rewrite Em; eauto).
      reflexivity.
  - (* RecvFrom *)
    settle_pointer Hv; open_op; rewrite ?En; simpl;
      rewrite ?Em; simpl; send_addrlen w.
  - (* Accept *)
    settle_pointer Hv; open_op; rewrite ?En; simpl;
      rewrite ?Em; simpl; send_addrlen w.
  - (* GetPeerName *)
    settle_pointer Hv; open_op; rewrite ?En; simpl;
      rewrite ?Em; simpl; send_addrlen w.
  - (* GetSockName *)
    settle_pointer Hv; open_op; rewrite ?En; simpl;
      rewrite ?Em; simpl; send_addrlen w.
  - (* GetSockOpt *)
    settle_pointer Hv; open_op; rewrite ?En; simpl;
      rewrite ?Em; simpl; send_basic w; left; reflexivity.
  - (* Ioctl *)
    open_op.
    destruct (request =? to_int SIOCGIFCONF).
    { destruct args as [| [v | p] rest]; try discriminate Hv.
      settle_pointer Hv. simpl. rewrite ?Em. simpl.
      send_basic w. left. reflexivity. }
    destruct ((request =? to_int SIOCGIFMEDIA)
              || (request =? to_int SIOCGIFXMEDIA)).
    { destruct args as [| [v | p] rest]; try discriminate Hv.
      settle_pointer Hv. simpl. rewrite ?Em. simpl.
      send_basic w. left. reflexivity. }
    destruct (negb (Z.land request IOC_INOUT =? 0)).
    { destruct args as [| [v | p] rest]; try discriminate Hv. simpl.
      send_basic w. left. reflexivity. }
    send_basic w. left. reflexivity.
Qed.

End ExecMessage.

Section ExecOutcome.

Context `{Headers}.
Variable srv : transport.

(** The same, with the result of the call and the way its dispatch ended. *)
Lemma exec_outcome op w :
  valid_call op w = true ->
  exists r w',
    exec srv op w = Some (r, w')
    /\ ((rejected_fcntl op = true /\ r = -1 /\ w' = set_errno 0 w)
        \/ (rejected_fcntl op = false
            /\ exists m rr wd,
              headed op m
              /\ (is_sendto op = true \/ all_flags_zero m = true)
              /\ dispatch_ends srv (set_msgbuf m w) (Some ((r, rr), wd))
              /\ (w' = wd
                  \/ (writes_back op = true /\ r <> -1
                      /\ exists p o, w' = record_store p o wd)))).
Proof.
  intros Hv.
  destruct (exec_message srv op w Hv)
    as [[Hrej E] | (Hrej & m & r & rr & wd & E & Hh & Hf & Hex)].
  - exists (-1), (set_errno 0 w). split; [exact E |]. by left.
  - pose proof (basic_cases srv (m_descs m) (set_msgbuf m w)) as Hd.
    rewrite E in Hd.
    destruct Hex as [Hex | (Hwb & p & o & Hne & Hex)].
    + exists r, wd. split; [exact Hex |]. right. split; [exact Hrej |].
      exists m, rr, wd. by repeat split; [| | | left].
    + exists r, (record_store p o wd). split; [exact Hex |].
      right. split; [exact Hrej |].
      exists m, rr, wd. repeat split; try done.
      right. repeat split; try done. by exists p, o.
Qed.

End ExecOutcome.

(** ** The reply decoder on its other paths *)

Section ReplyDecoder.

Context `{Headers}.
Variable srv : transport.

(** For every operation with defined behaviour that reaches the
    transport: one message is handed over, and if the transport call
    succeeded but the reply's status code (its low 32 bits) is a
    failure, the operation returns [-1] with [errno = EPIPE], having
    parsed the reply once and made no store of its own: the caller's
    memory is the memory before the call with the data of the reply
    delivered. *)
Theorem status_failure_is_EPIPE (op : call) (w : world) :
  valid_call op w = true ->
  rejected_fcntl op = false ->
  exists r w' m,
    exec srv op w = Some (r, w')
    /\ sent w' = m :: sent w
    /\ (R_SUCCEEDED (o_rc (srv m)) = true ->
        R_FAILED (u32 (result (o_reply (srv m)))) = true ->
        r = -1 /\ errno w' = EPIPE /\ parsed w' = S (parsed w)
        /\ stores w' = stores w
        /\ mem w' = deliver m (o_data (srv m)) (mem w)).
Proof.
  intros Hv Hnr.
  destruct (exec_outcome srv op w Hv)
    as (r & w' & E & [(Hrej & _)
                     | (_ & m & rr & wd & _ & _ & Hd & Hw)]).
  - congruence.
  - exists r, w', m. split; [exact E |].
    assert (Hwd : sent wd = m :: sent w
                  /\ (R_SUCCEEDED (o_rc (srv m)) = true ->
                      R_FAILED (u32 (result (o_reply (srv m)))) = true ->
                      r = -1 /\ errno wd = EPIPE
                      /\ parsed wd = S (parsed w)
                      /\ stores wd = stores w
                      /\ mem wd = deliver m (o_data (srv m)) (mem w))).
    { inversion Hd as [Hf | Hs1 Hf | Hs1 Hs2]; subst; simpl in *;
        (split; [reflexivity |]); intros Hok Hst.
      - rewrite R_FAILED_not_SUCCEEDED, Hok in Hf. discriminate.
      - done.
      - rewrite R_FAILED_not_SUCCEEDED, Hs2 in Hst. discriminate. }
    destruct Hwd as [Hs Hpost].
    destruct Hw as [-> | (_ & Hne & p & o & ->)].
    + by split.
    + split; [exact Hs |]. intros Hok Hst.
      destruct (Hpost Hok Hst) as (Hr & _). done.
Qed.

(** For every operation with defined behaviour that reaches the
    transport: one message is handed over, and if the transport call
    succeeded and the low 32 bits of the reply's status code are zero,
    the operation returns the reply's embedded return value and [errno]
    is the reply's embedded errno, whatever that value is; the reply was
    parsed once. Bits 32 and up of the status are not looked at. *)
Theorem success_returns_reply_fields (op : call) (w : world) :
  valid_call op w = true ->
  rejected_fcntl op = false ->
  exists r w' m,
    exec srv op w = Some (r, w')
    /\ sent w' = m :: sent w
    /\ (R_SUCCEEDED (o_rc (srv m)) = true ->
        R_SUCCEEDED (u32 (result (o_reply (srv m)))) = true ->
        r = ret (o_reply (srv m))
        /\ errno w' = errno_ (o_reply (srv m))
        /\ parsed w' = S (parsed w)).
Proof.
  intros Hv Hnr.
  destruct (exec_outcome srv op w Hv)
    as (r & w' & E & [(Hrej & _)
                     | (_ & m & rr & wd & _ & _ & Hd & Hw)]).
  - congruence.
  - exists r, w', m. split; [exact E |].
    assert (Hwd : sent wd = m :: sent w
                  /\ (R_SUCCEEDED (o_rc (srv m)) = true ->
                      R_SUCCEEDED (u32 (result (o_reply (srv m)))) = true ->
                      r = ret (o_reply (srv m))
                      /\ errno wd = errno_ (o_reply (srv m))
                      /\ parsed wd = S (parsed w))).
    { inversion Hd as [Hf | Hs1 Hf | Hs1 Hs2]; subst; simpl in *;
        (split; [reflexivity |]); intros Hok Hst.
      - rewrite R_FAILED_not_SUCCEEDED, Hok in Hf. discriminate.
      - rewrite R_FAILED_not_SUCCEEDED, Hst in Hf. discriminate.
      - done. }
    destruct Hw as [-> | (_ & Hne & p & o & ->)]; exact Hwd.
Qed.

(** For every operation with defined behaviour other than an fcntl the
    adapter turns down: exactly one message reaches the transport, its
    header starts with the magic and the [cmd_id] of the operation (2 to
    27), and the reply is parsed at most once. *)
Theorem one_message_per_call (op : call) (w : world) :
  valid_call op w = true ->
  rejected_fcntl op = false ->
  exists r w' m rest,
    exec srv op w = Some (r, w')
    /\ sent w' = m :: sent w
    /\ m_raw m = ("magic", SFCI_MAGIC)
                 :: ("cmd_id", opcode_of (kind_of op)) :: rest
    /\ 2 <= opcode_of (kind_of op) <= 27
    /\ (parsed w' = parsed w \/ parsed w' = S (parsed w)).
Proof.
  intros Hv Hnr.
  destruct (exec_outcome srv op w Hv)
    as (r & w' & E & [(Hrej & _)
                     | (_ & m & rr & wd & [rest Hh] & _ & Hd & Hw)]).
  - congruence.
  - exists r, w', m, rest. split; [exact E |].
    assert (Hwd : sent wd = m :: sent w
                  /\ (parsed wd = parsed w \/ parsed wd = S (parsed w))).
    { inversion Hd; subst; simpl; auto. }
    assert (Hop : 2 <= opcode_of (kind_of op) <= 27)
      by (destruct op; simpl; lia).
    destruct Hw as [-> | (_ & _ & p & o & ->)]; simpl; tauto.
Qed.

(** Operations without a trailing reply field never store to caller
    memory, whatever the server replies; in particular [bsdGetSockOpt]
    does not write the returned option length back through [optlen].
    What the caller's memory holds afterwards is what the transport
    left: nothing changed when nothing was dispatched, and otherwise the
    memory before the call with the data of the reply delivered into
    the receive buffers of the message. *)
Theorem no_write_back_elsewhere (op : call) (w : world) :
  valid_call op w = true ->
  writes_back op = false ->
  exists r w',
    exec srv op w = Some (r, w')
    /\ stores w' = stores w
    /\ ((rejected_fcntl op = true /\ sent w' = sent w /\ mem w' = mem w)
        \/ exists m,
            sent w' = m :: sent w
            /\ mem w' = deliver m (o_data (srv m)) (mem w)).
Proof.
  intros Hv Hwb.
  destruct (exec_outcome srv op w Hv)
    as (r & w' & E & [(Hrej & -> & ->)
                     | (_ & m & rr & wd & _ & _ & Hd & Hw)]).
  - exists (-1), (set_errno 0 w). split; [exact E |].
    split; [reflexivity |]. left. by repeat split.
  - exists r, w'. split; [exact E |].
    destruct Hw as [-> | (Hwb' & _)]; [| congruence].
    inversion Hd; subst; simpl; (split; [reflexivity |]); right;
      by exists m.
Qed.

End ReplyDecoder.

(** ** The messages of single operations *)

(** Runs the goal's operation up to its dispatch and names what the
    dispatch leaves: [Hsent], [Hmem], [Hstores]. *)
Ltac to_message :=
  match goal with
  | |- context [_bsdDispatchBasicCommand ?s ?c ?w0] =>
      destruct (basic_some s c w0) as (ret0 & r0 & wd & E);
      destruct (basic_frame s _ _ _ _ _ E) as (Hsent & Hmem & Hstores & _);
      simpl in Hsent, Hmem, Hstores;
      rewrite E
  end.

Section Messages.

Context `{Headers}.
Variable srv : transport.

(** [_bsdDispatchCommandWithOutAddrlen] hands over exactly the prepared
    message, whether or not it stores afterwards. *)
Lemma with_out_addrlen_sent c addrlen w :
  addrlen = NULL \/ is_Some (mem w !! addrlen) ->
  exists r w',
    _bsdDispatchCommandWithOutAddrlen srv c addrlen w = Some (r, w')
    /\ sent w' = msgbuf w :: sent w.
Proof.
  intros Hp.
  destruct (with_out_addrlen srv c addrlen w Hp) as (r & rr & wd & E & E').
  destruct (basic_frame srv _ _ _ _ _ E) as (Hsent & _).
  rewrite E'. eexists _, _. split; [reflexivity |].
  by destruct (negb (r =? -1) && negb (addrlen =? NULL)).
Qed.

(** [bsdSelect] describes [sizeof(fd_set)] bytes of each of the three
    sets, first as send pairs then as receive pairs, whatever [nfds] is
    and without looking at the set pointers. The header carries a copy
    of the timeout only when the caller's pointer is not null, and the
    [nullTimeout] flag says which. *)
Theorem select_message (nfds : Z) (readfds writefds exceptfds timeout : ptr)
        (w : world) :
  let descs :=
    send_pair readfds sizeof_fd_set 0 ++ send_pair writefds sizeof_fd_set 0
    ++ send_pair exceptfds sizeof_fd_set 0
    ++ recv_pair readfds sizeof_fd_set 0 ++ recv_pair writefds sizeof_fd_set 0
    ++ recv_pair exceptfds sizeof_fd_set 0 in
  (timeout = NULL ->
   exists r w',
     exec srv (Select nfds readfds writefds exceptfds timeout) w = Some (r, w')
     /\ sent w'
        = {| m_descs := descs;
             m_raw := [("magic", SFCI_MAGIC); ("cmd_id", 5); ("nfds", nfds);
                       ("nullTimeout", 1)] |} :: sent w)
  /\ (forall tv_sec tv_usec,
         timeout <> NULL ->
         mem w !! timeout = Some (Otimeval tv_sec tv_usec) ->
         exists r w',
           exec srv (Select nfds readfds writefds exceptfds timeout) w
           = Some (r, w')
           /\ sent w'
              = {| m_descs := descs;
                   m_raw := [("magic", SFCI_MAGIC); ("cmd_id", 5);
                             ("nfds", nfds); ("timeout.tv_sec", tv_sec);
                             ("timeout.tv_usec", tv_usec);
                             ("nullTimeout", 0)] |} :: sent w).
Proof.
  intros descs. split.
  - intros ->. open_op. simpl. to_message.
    eexists _, _. split; [reflexivity | exact Hsent].
  - intros s u Hn Hm. apply Z.eqb_neq in Hn.
    open_op. rewrite Hn. simpl. rewrite Hm. simpl. to_message.
    eexists _, _. split; [reflexivity | exact Hsent].
Qed.

(** [bsdOpen] sends at most 256 bytes of the path: the descriptors
    describe the bytes before the terminator, cut at 256, so the
    terminator itself is never part of what is described. *)
Theorem open_path_capped (pathname : ptr) (flags : Z) (bytes : list Z)
        (w : world) :
  mem w !! pathname = Some (Ostring bytes) ->
  exists r w' n,
    exec srv (Open pathname flags) w = Some (r, w')
    /\ sent w'
       = {| m_descs := send_pair pathname n 0;
            m_raw := [("magic", SFCI_MAGIC); ("cmd_id", 4);
                      ("flags", flags)] |} :: sent w
    /\ 0 <= n <= 256
    /\ (Z.of_nat (length bytes) <= 256 -> n = Z.of_nat (length bytes))
    /\ (256 <= Z.of_nat (length bytes) -> n = 256).
Proof.
  intros Hm. open_op. rewrite Hm. to_message.
  eexists _, _, _. split; [reflexivity |]. split; [exact Hsent |].
  lia.
Qed.

(** [bsdAccept], [bsdGetPeerName] and [bsdGetSockName] send the same
    message up to the [cmd_id]: one receive pair for the address whose
    declared capacity is the caller's [*addrlen] as read before the
    dispatch, or 0 when [addrlen] is null. *)
Theorem name_getter_capacity (op : call) (sockfd : Z) (addr addrlen : ptr)
        (w : world) :
  op = Accept sockfd addr addrlen \/ op = GetPeerName sockfd addr addrlen
  \/ op = GetSockName sockfd addr addrlen ->
  (addrlen = NULL ->
   exists r w',
     exec srv op w = Some (r, w')
     /\ sent w'
        = {| m_descs := recv_pair addr 0 0;
             m_raw := [("magic", SFCI_MAGIC);
                       ("cmd_id", opcode_of (kind_of op));
                       ("sockfd", sockfd)] |} :: sent w)
  /\ (forall maxaddrlen,
         addrlen <> NULL ->
         mem w !! addrlen = Some (Osocklen maxaddrlen) ->
         exists r w',
           exec srv op w = Some (r, w')
           /\ sent w'
              = {| m_descs := recv_pair addr maxaddrlen 0;
                   m_raw := [("magic", SFCI_MAGIC);
                             ("cmd_id", opcode_of (kind_of op));
                             ("sockfd", sockfd)] |} :: sent w).
Proof.
  intros Hop. split.
  - intros ->.
    destruct Hop as [-> | [-> | ->]]; open_op; simpl.
    all: match goal with
         | |- context [_bsdDispatchCommandWithOutAddrlen srv ?c ?p ?w0] =>
             destruct (with_out_addrlen_sent c p w0 (or_introl eq_refl))
               as (r & w' & E & Hsent);
             rewrite E; exists r, w'; split; [reflexivity | exact Hsent]
         end.
  - intros v Hn Hm. apply Z.eqb_neq in Hn.
    destruct Hop as [-> | [-> | ->]]; open_op; rewrite Hn; simpl;
      rewrite Hm; simpl.
    all: match goal with
         | |- context [_bsdDispatchCommandWithOutAddrlen srv ?c ?p ?w0] =>
             destruct (with_out_addrlen_sent c p w0)
               as (r & w' & E & Hsent);
             [ right; simpl; rewrite Hm; eauto | ];
             rewrite E; exists r, w'; split; [reflexivity | exact Hsent]
         end.
Qed.

End Messages.

Section MoreMessages.

Context `{Headers}.
Variable srv : transport.

(** [bsdSysctl] sends the name and the new value and receives the old
    value; the header holds nothing but the magic and the [cmd_id]. The
    declared length of the name is [4 * namelen] computed on 32 bits: it
    is the size of the array only while [namelen] is below 2^30. The
    declared capacity of the old value is the caller's [*oldlenp], or 0
    for a null [oldlenp]. *)
Theorem sysctl_message (name : ptr) (namelen : Z) (oldp oldlenp newp : ptr)
        (newlen : Z) (w : world) :
  0 <= namelen < 2 ^ 32 ->
  valid_call (Sysctl name namelen oldp oldlenp newp newlen) w = true ->
  exists r w' namesz inlen,
    exec srv (Sysctl name namelen oldp oldlenp newp newlen) w = Some (r, w')
    /\ sent w'
       = {| m_descs := send_pair name namesz 0 ++ send_pair newp newlen 0
                       ++ recv_pair oldp inlen 0;
            m_raw := [("magic", SFCI_MAGIC); ("cmd_id", 7)] |} :: sent w
    /\ namesz = (4 * namelen) mod 2 ^ 32
    /\ (namelen < 2 ^ 30 -> namesz = 4 * namelen)
    /\ (oldlenp = NULL -> inlen = 0)
    /\ (forall v, oldlenp <> NULL -> mem w !! oldlenp = Some (Osize v) ->
                  inlen = v).
Proof.
  intros Hrange Hv. simpl in Hv.
  assert (Hsz : namelen < 2 ^ 30 -> u32 (4 * namelen) = 4 * namelen)
    by (intros Hlt; apply u32_id; unfold is_u32; lia).
  settle_pointer Hv; open_op; rewrite ?En; simpl; rewrite ?Em; simpl;
    to_message.
  - rewrite andb_false_r.
    eexists _, _, _, _. split; [reflexivity |]. split; [exact Hsent |].
    split; [reflexivity |]. split; [exact Hsz |]. split; [done |].
    intros v Hn. apply Z.eqb_eq in En. congruence.
  - assert (Hn : oldlenp <> NULL) by (by apply Z.eqb_neq).
    destruct (negb (ret0 =? -1)) eqn:Hr; simpl.
    + apply negb_eqb_true in Hr.
      rewrite (basic_ret_parsed _ _ _ _ _ _ E Hr).
      rewrite (store_after_dispatch _ _ _ _ _ _ _ _ E)
        by (simpl; rewrite Em; eauto).
      eexists _, _, _, _. split; [reflexivity |]. split; [exact Hsent |].
      split; [reflexivity |]. split; [exact Hsz |]. split; [done |].
      intros v' _ Hv'. congruence.
    + eexists _, _, _, _. split; [reflexivity |]. split; [exact Hsent |].
      split; [reflexivity |]. split; [exact Hsz |]. split; [done |].
      intros v' _ Hv'. congruence.
Qed.

(** [bsdSysctl] hands one message to the transport and then stores the
    reply's trailing eight-byte length through [oldlenp] exactly when
    the return value is not [-1] and [oldlenp] is not null; otherwise it
    makes no store. In both cases the caller's memory is otherwise as
    the transport left it: the memory before the call with the data of
    the reply delivered into the receive buffers. *)
Theorem sysctl_oldlen_written_iff (name : ptr) (namelen : Z)
        (oldp oldlenp newp : ptr) (newlen : Z) (w : world) :
  valid_call (Sysctl name namelen oldp oldlenp newp newlen) w = true ->
  exists r w' m,
    exec srv (Sysctl name namelen oldp oldlenp newp newlen) w = Some (r, w')
    /\ sent w' = m :: sent w
    /\ (r <> -1 /\ oldlenp <> NULL ->
        stores w' = (oldlenp, Osize (trailing (o_reply (srv m))))
                    :: stores w
        /\ mem w' = <[oldlenp := Osize (trailing (o_reply (srv m)))]>
                      (deliver m (o_data (srv m)) (mem w)))
    /\ (~ (r <> -1 /\ oldlenp <> NULL) ->
        stores w' = stores w
        /\ mem w' = deliver m (o_data (srv m)) (mem w)).
Proof.
  intros Hv. simpl in Hv.
  settle_pointer Hv; open_op; rewrite ?En; simpl; rewrite ?Em; simpl;
    to_message.
  - rewrite andb_false_r. apply Z.eqb_eq in En.
    eexists _, _, _. split; [reflexivity |]. split; [exact Hsent |]. split.
    + intros [_ Hn]. done.
    + intros _. by split.
  - assert (Hn : oldlenp <> NULL) by (by apply Z.eqb_neq).
    destruct (negb (ret0 =? -1)) eqn:Hr; simpl.
    + apply negb_eqb_true in Hr.
      rewrite (basic_ret_parsed _ _ _ _ _ _ E Hr).
      rewrite (store_after_dispatch _ _ _ _ _ _ _ _ E)
        by (simpl; rewrite Em; eauto).
      eexists _, _, _. split; [reflexivity |]. split; [exact Hsent |]. split.
      * intros _. simpl. by rewrite Hstores, Hmem.
      * intros Hno. exfalso. apply Hno. by split.
    + apply negb_false_iff in Hr. apply Z.eqb_eq in Hr.
      eexists _, _, _. split; [reflexivity |]. split; [exact Hsent |]. split.
      * intros [Hne _]. done.
      * intros _. by split.
Qed.

(** [bsdBind] does not transmit the socket descriptor: its header holds
    only the magic and the [cmd_id], so the call runs the same way and
    sends the same message for every [sockfd]. *)
Theorem bind_ignores_sockfd (sockfd : Z) (addr : ptr) (addrlen : Z)
        (w : world) :
  exists r w',
    (forall sockfd', exec srv (Bind sockfd' addr addrlen) w = Some (r, w'))
    /\ sent w'
       = {| m_descs := send_pair addr addrlen 0;
            m_raw := [("magic", SFCI_MAGIC); ("cmd_id", 13)] |} :: sent w.
Proof.
  open_op. to_message.
  eexists _, _. split; [intros _; reflexivity | exact Hsent].
Qed.

(** An fcntl request that is forwarded never reads the variadic
    arguments: the call runs the same way for every argument list, the
    empty one included, and the argument field of the header is 0. *)
Theorem fcntl_never_reads_arguments (fd cmd : Z) (w : world) :
  cmd <> F_GETFL -> cmd <> F_SETFL ->
  exists r w',
    (forall args, exec srv (Fnctl fd cmd args) w = Some (r, w'))
    /\ sent w'
       = {| m_descs := [];
            m_raw := [("magic", SFCI_MAGIC); ("cmd_id", 20); ("fd", fd);
                      ("cmd", cmd); ("arg", 0)] |} :: sent w.
Proof.
  intros Hg Hs. open_op.
  apply Z.eqb_neq in Hg. apply Z.eqb_neq in Hs. rewrite Hg, Hs. simpl.
  to_message.
  eexists _, _. split; [intros _; reflexivity | exact Hsent].
Qed.

(** [bsdSendTo] attaches the payload pair with index 0 and the
    destination-address pair with index 1, in that order. *)
Theorem sendto_message (sockfd : Z) (buf : ptr) (len flags : Z)
        (dest_addr : ptr) (addrlen : Z) (w : world) :
  exists r w',
    exec srv (SendTo sockfd buf len flags dest_addr addrlen) w = Some (r, w')
    /\ sent w'
       = {| m_descs := send_pair buf len 0 ++ send_pair dest_addr addrlen 1;
            m_raw := [("magic", SFCI_MAGIC); ("cmd_id", 11);
                      ("sockfd", sockfd); ("flags", flags)] |} :: sent w.
Proof.
  open_op. to_message.
  eexists _, _. split; [reflexivity | exact Hsent].
Qed.

End MoreMessages.

(** ** The generic ioctl requests *)

Section IoctlGeneric.

Context `{Headers}.
Variable srv : transport.

Lemma land_lor_zero (r a b : Z) :
  Z.land r (Z.lor a b) = 0 <-> Z.land r a = 0 /\ Z.land r b = 0.
Proof. rewrite Z.land_lor_distr_r. apply Z.lor_eq_0_iff. Qed.

(** The request is none of the three named multi-buffer codes. *)
Lemma ioctl_unnamed (request : Z) :
  request <> to_int SIOCGIFCONF -> request <> to_int SIOCGIFMEDIA ->
  request <> to_int SIOCGIFXMEDIA ->
  (request =? to_int SIOCGIFCONF) = false
  /\ (request =? to_int SIOCGIFMEDIA) || (request =? to_int SIOCGIFXMEDIA)
     = false.
Proof.
  intros H1 H2 H3. apply Z.eqb_neq in H1. apply Z.eqb_neq in H2.
  apply Z.eqb_neq in H3. by rewrite H1, H2, H3.
Qed.

(** A request other than the three named codes, on headers where
    [IOC_INOUT] is [IOC_IN | IOC_OUT]: the direction bits of the request
    code decide the slots. With neither bit set the variadic list is not
    read at all and the sixteen descriptors are empty; otherwise the one
    variadic pointer is the input slot when [IOC_IN] is set and the
    output slot when [IOC_OUT] is set (the same pointer for both when
    both are), with the length field of the request code as its size. In
    every case [bufcount] is 1. *)
Theorem ioctl_direction_bits (fd request : Z) (w : world) :
  IOC_INOUT = Z.lor IOC_IN IOC_OUT ->
  request <> to_int SIOCGIFCONF -> request <> to_int SIOCGIFMEDIA ->
  request <> to_int SIOCGIFXMEDIA ->
  let raw := [("magic", SFCI_MAGIC); ("cmd_id", 19); ("fd", fd);
              ("request", request); ("bufcount", 1)] in
  let len := u64 (IOCPARM_LEN request) in
  (Z.land request IOC_IN = 0 -> Z.land request IOC_OUT = 0 ->
   exists r w',
     (forall args, exec srv (Ioctl fd request args) w = Some (r, w'))
     /\ sent w' = {| m_descs := ioctl_one_buffer NULL 0 NULL 0;
                     m_raw := raw |} :: sent w)
  /\ (forall data rest,
         Z.land request IOC_IN <> 0 -> Z.land request IOC_OUT = 0 ->
         exists r w',
           exec srv (Ioctl fd request (VaPtr data :: rest)) w = Some (r, w')
           /\ sent w' = {| m_descs := ioctl_one_buffer data len NULL 0;
                           m_raw := raw |} :: sent w)
  /\ (forall data rest,
         Z.land request IOC_IN = 0 -> Z.land request IOC_OUT <> 0 ->
         exists r w',
           exec srv (Ioctl fd request (VaPtr data :: rest)) w = Some (r, w')
           /\ sent w' = {| m_descs := ioctl_one_buffer NULL 0 data len;
                           m_raw := raw |} :: sent w)
  /\ (forall data rest,
         Z.land request IOC_IN <> 0 -> Z.land request IOC_OUT <> 0 ->
         exists r w',
           exec srv (Ioctl fd request (VaPtr data :: rest)) w = Some (r, w')
           /\ sent w' = {| m_descs := ioctl_one_buffer data len data len;
                           m_raw := raw |} :: sent w).
Proof.
  intros Hio H1 H2 H3 raw len.
  destruct (ioctl_unnamed request H1 H2 H3) as [Hc Hm].
  assert (Hany : forall a b, (a <> 0 \/ b <> 0) ->
                 Z.land request IOC_IN = a -> Z.land request IOC_OUT = b ->
                 negb (Z.land request IOC_INOUT =? 0) = true).
  { intros a b Hab Ha Hb. apply negb_eqb_true. rewrite Hio.
    rewrite land_lor_zero. lia. }
  split; [| split; [| split]].
  - intros Hin Hout.
    assert (Hnone : negb (Z.land request IOC_INOUT =? 0) = false).
    { apply negb_false_iff, Z.eqb_eq. rewrite Hio.
      by apply land_lor_zero. }
    open_op. rewrite Hc, Hm, Hnone. unfold ioctl_generic.
    rewrite Hin, Hout. simpl. to_message.
    eexists _, _. split; [intros _; reflexivity | exact Hsent].
  - intros data rest Hin Hout.
    open_op. rewrite Hc, Hm, (Hany _ _ (or_introl Hin) eq_refl Hout).
    unfold ioctl_generic. rewrite Hout.
    apply Z.eqb_neq in Hin. rewrite Hin. simpl. to_message.
    eexists _, _. split; [reflexivity | exact Hsent].
  - intros data rest Hin Hout.
    open_op. rewrite Hc, Hm, (Hany _ _ (or_intror Hout) Hin eq_refl).
    unfold ioctl_generic. rewrite Hin.
    apply Z.eqb_neq in Hout. rewrite Hout. simpl. to_message.
    eexists _, _. split; [reflexivity | exact Hsent].
  - intros data rest Hin Hout.
    open_op. rewrite Hc, Hm, (Hany _ _ (or_introl Hin) eq_refl eq_refl).
    unfold ioctl_generic.
    apply Z.eqb_neq in Hin. apply Z.eqb_neq in Hout. rewrite Hin, Hout.
    simpl. to_message.
    eexists _, _. split; [reflexivity | exact Hsent].
Qed.

(** Every ioctl with defined behaviour fills all eight slots: sixteen
    descriptors, the four input pairs before the four output pairs,
    whatever the request. [bufcount] is 2 exactly for the three named
    request codes and 1 for all others. *)
Theorem ioctl_sixteen_descriptors (fd request : Z) (args : list vararg)
        (w : world) :
  valid_call (Ioctl fd request args) w = true ->
  exists r w' m bufcount,
    exec srv (Ioctl fd request args) w = Some (r, w')
    /\ sent w' = m :: sent w
    /\ map d_kind (m_descs m)
       = [SendBuffer; SendStatic; SendBuffer; SendStatic;
          SendBuffer; SendStatic; SendBuffer; SendStatic;
          RecvBuffer; RecvStatic; RecvBuffer; RecvStatic;
          RecvBuffer; RecvStatic; RecvBuffer; RecvStatic]
    /\ m_raw m = [("magic", SFCI_MAGIC); ("cmd_id", 19); ("fd", fd);
                  ("request", request); ("bufcount", bufcount)]
    /\ (bufcount = 2 <->
        request = to_int SIOCGIFCONF \/ request = to_int SIOCGIFMEDIA
        \/ request = to_int SIOCGIFXMEDIA)
    /\ (bufcount = 1 \/ bufcount = 2).
Proof.
  intros Hv. simpl in Hv. open_op.
  destruct (Z.eqb_spec request (to_int SIOCGIFCONF)) as [Hc | Hc].
  { destruct args as [| [v | p] rest]; try discriminate Hv.
    settle_pointer Hv. simpl. rewrite ?Em. simpl. to_message.
    eexists _, _, _, _. split; [reflexivity |]. split; [exact Hsent |].
    split; [reflexivity |]. split; [reflexivity |]. split; [| by right].
    split; [by left | done]. }
  destruct ((request =? to_int SIOCGIFMEDIA)
            || (request =? to_int SIOCGIFXMEDIA)) eqn:Hm.
  { destruct args as [| [v | p] rest]; try discriminate Hv.
    settle_pointer Hv. simpl. rewrite ?Em. simpl. to_message.
    eexists _, _, _, _. split; [reflexivity |]. split; [exact Hsent |].
    split; [reflexivity |]. split; [reflexivity |]. split; [| by right].
    split; [| done]. intros _. right.
    apply orb_prop in Hm as [Hm | Hm]; apply Z.eqb_eq in Hm; auto. }
  apply orb_false_elim in Hm as [Hm1 Hm2].
  apply Z.eqb_neq in Hm1. apply Z.eqb_neq in Hm2.
  assert (Hone : 1 = 2 <->
                 request = to_int SIOCGIFCONF \/ request = to_int SIOCGIFMEDIA
                 \/ request = to_int SIOCGIFXMEDIA)
    by (split; [discriminate | tauto]).
  destruct (negb (Z.land request IOC_INOUT =? 0)).
  { destruct args as [| [v | p] rest]; try discriminate Hv. simpl.
    to_message.
    eexists _, _, _, _. split; [reflexivity |]. split; [exact Hsent |].
    split; [reflexivity |]. split; [reflexivity |]. split; [exact Hone |].
    by left. }
  to_message.
  eexists _, _, _, _. split; [reflexivity |]. split; [exact Hsent |].
  split; [reflexivity |]. split; [reflexivity |]. split; [exact Hone |].
  by left.
Qed.

End IoctlGeneric.

(** ** Facts that hold for every operation's message *)

Section EveryMessage.

Context `{Headers}.
Variable srv : transport.

(** The message a call added to the log, if it added one. *)
Lemma outcome_sent op w r w' m0 rr wd :
  dispatch_ends srv (set_msgbuf m0 w) (Some ((r, rr), wd)) ->
  (w' = wd \/ (writes_back op = true /\ r <> -1
               /\ exists p o, w' = record_store p o wd)) ->
  sent w' = m0 :: sent w.
Proof.
  intros Hd Hw.
  assert (Hs : sent wd = m0 :: sent w) by (inversion Hd; subst; done).
  by destruct Hw as [-> | (_ & _ & p & o & ->)].
Qed.

(** Outside [bsdSendTo], every descriptor of every operation is attached
    with buffer type (or static index) 0. *)
Theorem index_zero_except_sendto (op : call) (w : world) :
  valid_call op w = true ->
  is_sendto op = false ->
  exists r w',
    exec srv op w = Some (r, w')
    /\ forall m, sent w' = m :: sent w ->
                 forall d, In d (m_descs m) -> d_flag d = 0.
Proof.
  intros Hv Hns.
  destruct (exec_outcome srv op w Hv)
    as (r & w' & E & [(_ & -> & ->)
                     | (_ & m0 & rr & wd & _ & Hf & Hd & Hw)]).
  - exists (-1), (set_errno 0 w). split; [exact E |].
    intros m Hsent. simpl in Hsent. symmetry in Hsent.
    by apply cons_not_self in Hsent.
  - exists r, w'. split; [exact E |].
    intros m Hsent d Hin.
    rewrite (outcome_sent op w r w' m0 rr wd Hd Hw) in Hsent.
    injection Hsent as <-.
    destruct Hf as [Hf | Hf]; [congruence |].
    unfold all_flags_zero in Hf. rewrite forallb_forall in Hf.
    apply Z.eqb_eq. by apply Hf.
Qed.

(** Every operation other than [bsdRecvFrom] returns a value and, when it
    hands a message to the transport, attaches its descriptors as pairs:
    each dynamic descriptor is followed by the static descriptor of the
    same direction, address and length. *)
Theorem paired_except_recvfrom (op : call) (w : world) :
  valid_call op w = true ->
  is_recvfrom op = false ->
  exists r w',
    exec srv op w = Some (r, w')
    /\ forall m, sent w' = m :: sent w -> paired (m_descs m) = true.
Proof.
  intros Hv Hnr.
  destruct (exec_shape srv op w Hv)
    as [(fd & cmd & args & -> & _ & E)
       | (m0 & ret0 & r0 & wd & E & Hp & Hex)].
  - exists (-1), (set_errno 0 w). split; [exact E |].
    intros m Hsent. simpl in Hsent. symmetry in Hsent.
    by apply cons_not_self in Hsent.
  - destruct Hp as [Hp | Hp]; [congruence |].
    destruct (basic_frame srv _ _ _ _ _ E) as (Hs & _). simpl in Hs.
    destruct Hex as [Hex | (p & o & _ & Hex)];
      eexists _, _; (split; [exact Hex |]);
      intros m Hsent; simpl in Hsent; rewrite Hs in Hsent;
      injection Hsent as <-; exact Hp.
Qed.

(** The [cmd_id] on the wire identifies the public function: two calls
    whose messages carry the same [cmd_id] are calls of the same
    function. *)
Theorem opcodes_identify_operations (a b : call) (wa wb : world)
        ra wa' ma rb wb' mb :
  valid_call a wa = true -> valid_call b wb = true ->
  exec srv a wa = Some (ra, wa') -> sent wa' = ma :: sent wa ->
  exec srv b wb = Some (rb, wb') -> sent wb' = mb :: sent wb ->
  m_raw ma !! 1%nat = m_raw mb !! 1%nat ->
  kind_of a = kind_of b.
Proof.
  intros Hva Hvb Ea Hsa Eb Hsb Hcmd.
  assert (Hhead : forall op w r w' m,
             valid_call op w = true -> exec srv op w = Some (r, w') ->
             sent w' = m :: sent w ->
             m_raw m !! 1%nat = Some ("cmd_id", opcode_of (kind_of op))).
  { intros op w r w' m Hv E Hsent.
    destruct (exec_outcome srv op w Hv)
      as (r1 & w1 & E1 & [(_ & -> & ->)
                         | (_ & m0 & rr & wd & [rest Hh] & _ & Hd & Hw)]);
      rewrite E1 in E; injection E as <- <-.
    - simpl in Hsent. symmetry in Hsent.
      by apply cons_not_self in Hsent.
    - rewrite (outcome_sent op w r1 w1 m0 rr wd Hd Hw) in Hsent.
      injection Hsent as <-. by rewrite Hh. }
  rewrite (Hhead a wa ra wa' ma Hva Ea Hsa) in Hcmd.
  rewrite (Hhead b wb rb wb' mb Hvb Eb Hsb) in Hcmd.
  injection Hcmd as Hcmd.
  destruct a, b; simpl in Hcmd |- *; first [reflexivity | discriminate Hcmd].
Qed.

End EveryMessage.

(** ** More on the transfer-memory size *)

Section TransferMemSizeMore.

(** The computed size does not depend on [version], nor on a TCP buffer
    size whose maximum is set (nonzero): a configuration may change in
    such a field without changing the size. *)
Theorem transfer_mem_size_ignores (f : config_field) (c1 c2 : BsdBufferConfig) :
  agree_except f c1 c2 ->
  f = Fversion
  \/ (f = Ftcp_tx_buf_size /\ tcp_tx_buf_max_size c1 <> 0)
  \/ (f = Ftcp_rx_buf_size /\ tcp_rx_buf_max_size c1 <> 0) ->
  _bsdGetTransferMemSizeForConfig c1 = _bsdGetTransferMemSizeForConfig c2.
Proof.
  intros Hag Hf.
  assert (Hothers : forall g, g = f \/ config_get g c1 = config_get g c2).
  { intros g. destruct (decide (g = f)) as [-> | Hne]; [by left |].
    right. by apply Hag. }
  pose proof (Hothers Ftcp_tx_buf_size) as E1.
  pose proof (Hothers Ftcp_rx_buf_size) as E2.
  pose proof (Hothers Ftcp_tx_buf_max_size) as E3.
  pose proof (Hothers Ftcp_rx_buf_max_size) as E4.
  pose proof (Hothers Fudp_tx_buf_size) as E5.
  pose proof (Hothers Fudp_rx_buf_size) as E6.
  pose proof (Hothers Fsb_efficiency) as E7.
  unfold _bsdGetTransferMemSizeForConfig.
  destruct Hf as [-> | [[-> Hmax] | [-> Hmax]]]; simpl in *;
    destruct E1 as [E1 | E1]; try discriminate E1;
    destruct E2 as [E2 | E2]; try discriminate E2;
    destruct E3 as [E3 | E3]; try discriminate E3;
    destruct E4 as [E4 | E4]; try discriminate E4;
    destruct E5 as [E5 | E5]; try discriminate E5;
    destruct E6 as [E6 | E6]; try discriminate E6;
    destruct E7 as [E7 | E7]; try discriminate E7;
    rewrite <- ?E1, <- ?E2, <- ?E3, <- ?E4, <- ?E5, <- ?E6, <- ?E7;
    try reflexivity.
  - apply Z.eqb_neq in Hmax. rewrite Hmax. reflexivity.
  - apply Z.eqb_neq in Hmax. rewrite Hmax. reflexivity.
Qed.

Lemma u32_divide_page z : (4096 | z) -> (4096 | u32 z).
Proof.
  intros [k Hk]. unfold u32.
  rewrite (Z.mod_eq z (2 ^ 32)) by lia.
  exists (k - 1048576 * (z / 2 ^ 32)). lia.
Qed.

(** For every configuration, wrap-around or not, the computed size is a
    multiple of the page size 4096 and below 2^32. *)
Theorem transfer_mem_size_page_aligned (c : BsdBufferConfig) :
  (4096 | _bsdGetTransferMemSizeForConfig c)
  /\ 0 <= _bsdGetTransferMemSizeForConfig c < 2 ^ 32.
Proof.
  unfold _bsdGetTransferMemSizeForConfig. cbv zeta.
  set (sum := u32 (_ + 0xFFF)).
  assert (Hr : is_u32 (u32 (sb_efficiency c
                            * u32 (Z.shiftl (Z.shiftr sum 12) 12))))
    by apply u32_range.
  unfold is_u32 in Hr.
  rewrite u64_id by lia. split; [| exact Hr].
  apply u32_divide_page, Z.divide_mul_r, u32_divide_page.
  rewrite Z.shiftl_mul_pow2 by lia. exists (Z.shiftr sum 12). lia.
Qed.

(** When nothing wraps at 32 bits the computed size is never below what
    the configured buffers need, and exceeds it by less than one page
    per unit of the efficiency factor. *)
Theorem transfer_mem_size_covers_buffers (c : BsdBufferConfig) :
  wf_config c -> no_overflow c = true ->
  sb_efficiency c * spec_sum c <= _bsdGetTransferMemSizeForConfig c
  /\ _bsdGetTransferMemSizeForConfig c
     <= sb_efficiency c * (spec_sum c + 4095).
Proof.
  intros Hwf Hno. rewrite (size_eq_spec c Hwf Hno).
  unfold computeTransferMemorySize_spec.
  pose proof (roundUpToPage_ge (spec_sum c)).
  pose proof (roundUpToPage_lt (spec_sum c)).
  apply wf_config_fields in Hwf. unfold is_u32 in Hwf.
  nia.
Qed.

End TransferMemSizeMore.

(** ** Session establishment and teardown *)

(** Unfolds an initialization down to the answers of the collaborators. *)
Ltac open_session :=
  unfold bsdInitialize, bsdInitialize_error, bsdExit, smGetService,
    serviceClose, tmemCreate, tmemClose, _bsdRegisterClient,
    _bsdStartMonitor, session_dispatch, serviceIsActive, bind_S, ret_S,
    R_FAILED, R_SUCCEEDED in *.

(** Reduces the session state between two answers. *)
Ltac session_cbn :=
  cbn [fst snd negb set_service set_tmem set_pid record_call
       g_bsdSrv g_bsdMonitor g_bsdClientPid g_bsdTmem calls
       srv_active srv_handle tmem_live tmem_handle tmem_size
       get_service session_idle andb orb].

(** Replays an initialization along the answers recorded as equations. *)
Ltac replay_answers :=
  repeat (session_cbn;
          progress repeat match goal with
                          | E : sm_answer _ _ = _ |- _ => rewrite E
                          | E : tmem_answer _ _ = _ |- _ => rewrite E
                          | E : ipc_answer _ _ = _ |- _ => rewrite E
                          | E : (_ =? 0) = _ |- _ => rewrite E
                          end);
  session_cbn.

Section SessionFacts.

Context `{Headers} `{System}.

Lemma idle_inactive st :
  session_idle st = true ->
  srv_active (g_bsdSrv st) = false /\ srv_active (g_bsdMonitor st) = false.
Proof.
  unfold session_idle. intros Hi. apply andb_prop in Hi as [H1 H2].
  by rewrite negb_true_iff in H1, H2.
Qed.

(** What an initialization from an idle state comes to, stage by stage:
    the returned [Result], the calls made, the process id kept, and
    whether the session ends up live or torn down. *)
Lemma initialize_cases (config : BsdBufferConfig) (st : session) :
  session_idle st = true ->
  let res := bsdInitialize config st in
  let sz := _bsdGetTransferMemSizeForConfig config in
  let torn := session_idle (snd res) = true
              /\ tmem_live (g_bsdTmem (snd res)) = false in
  let live := srv_active (g_bsdSrv (snd res)) = true
              /\ srv_active (g_bsdMonitor (snd res)) = true
              /\ tmem_live (g_bsdTmem (snd res)) = true
              /\ tmem_size (g_bsdTmem (snd res)) = sz in
  let m := register_message config (snd (tmem_answer sz 0)) in
  let pid := s_pid (snd (ipc_answer Control m)) in
  let mm := monitor_message pid in
  match resolved_name with
  | None =>
      fst res = fst (sm_answer Control "bsd:u") /\ torn
      /\ g_bsdClientPid (snd res) = g_bsdClientPid st
      /\ calls (snd res)
         = teardown_calls ++ [CallSmGetService Control "bsd:u";
                              CallSmGetService Control "bsd:s"] ++ calls st
  | Some name =>
      if R_SUCCEEDED (fst (sm_answer Monitor name)) then
        if R_SUCCEEDED (fst (tmem_answer sz 0)) then
          if R_SUCCEEDED (fst (ipc_answer Control m)) then
            if R_SUCCEEDED (u32 (s_result (snd (ipc_answer Control m)))) then
              if R_SUCCEEDED (fst (ipc_answer Monitor mm)) then
                if R_SUCCEEDED (u32 (s_result (snd (ipc_answer Monitor mm))))
                then
                  fst res = 0 /\ live /\ g_bsdClientPid (snd res) = pid
                  /\ calls (snd res)
                     = [CallDispatch Monitor mm; CallDispatch Control m;
                        CallTmemCreate sz 0]
                       ++ resolution_calls name ++ calls st
                else
                  fst res = u32 (s_result (snd (ipc_answer Monitor mm)))
                  /\ torn /\ g_bsdClientPid (snd res) = pid
                  /\ calls (snd res)
                     = teardown_calls
                       ++ [CallDispatch Monitor mm; CallDispatch Control m;
                           CallTmemCreate sz 0]
                       ++ resolution_calls name ++ calls st
              else
                fst res = fst (ipc_answer Monitor mm)
                /\ torn /\ g_bsdClientPid (snd res) = pid
                /\ calls (snd res)
                   = teardown_calls
                     ++ [CallDispatch Monitor mm; CallDispatch Control m;
                         CallTmemCreate sz 0]
                     ++ resolution_calls name ++ calls st
            else
              fst res = u32 (s_result (snd (ipc_answer Control m)))
              /\ torn /\ g_bsdClientPid (snd res) = pid
              /\ calls (snd res)
                 = teardown_calls
                   ++ [CallDispatch Control m; CallTmemCreate sz 0]
                   ++ resolution_calls name ++ calls st
          else
            fst res = fst (ipc_answer Control m)
            /\ torn /\ g_bsdClientPid (snd res) = g_bsdClientPid st
            /\ calls (snd res)
               = teardown_calls
                 ++ [CallDispatch Control m; CallTmemCreate sz 0]
                 ++ resolution_calls name ++ calls st
        else
          fst res = fst (tmem_answer sz 0)
          /\ torn /\ g_bsdClientPid (snd res) = g_bsdClientPid st
          /\ calls (snd res)
             = teardown_calls ++ [CallTmemCreate sz 0]
               ++ resolution_calls name ++ calls st
      else
        fst res = fst (sm_answer Monitor name)
        /\ torn /\ g_bsdClientPid (snd res) = g_bsdClientPid st
        /\ calls (snd res)
           = teardown_calls ++ resolution_calls name ++ calls st
  end.
Proof.
  intros Hidle. cbv zeta.
  destruct (idle_inactive st Hidle) as [Ha Hb].
  unfold resolved_name, register_message, monitor_message, teardown_calls,
    resolution_calls, R_SUCCEEDED.
  remember (_bsdGetTransferMemSizeForConfig config) as sz eqn:Hsz.
  destruct (sm_answer Control "bsd:s") as [rc1 h1] eqn:Es. cbn [fst snd].
  destruct (sm_answer Control "bsd:u") as [rc2 h2] eqn:Eu. cbn [fst snd].
  destruct (tmem_answer sz 0) as [rct ht] eqn:Et. cbn [fst snd].
  destruct (ipc_answer Control _) as [rcr respr] eqn:Er. cbn [fst snd].
  destruct (ipc_answer Monitor _) as [rcm respm] eqn:Em. cbn [fst snd].
  destruct (rc1 =? 0) eqn:Z1;
    [ destruct (sm_answer Monitor "bsd:s") as [rcn hn] eqn:En
    | destruct (rc2 =? 0) eqn:Z2;
      [ destruct (sm_answer Monitor "bsd:u") as [rcn hn] eqn:En | ] ];
    cbn [fst snd String.eqb Ascii.eqb Bool.eqb app];
    repeat match goal with
           | |- if ?z =? 0 then _ else _ =>
               let Z := fresh "Z" in destruct (z =? 0) eqn:Z
           end;
    open_session; rewrite <- ?Hsz; rewrite Ha, Hb; cbn [orb];
    replay_answers;
    repeat split; first [ reflexivity | apply Z.eqb_eq; assumption ].
Qed.

(** Brings in [initialize_cases] for the initialization of the goal and
    splits it along the stages. *)
Ltac stage_cases Hidle Hc :=
  match goal with
  | |- context [bsdInitialize ?config ?st] =>
      pose proof (initialize_cases config st Hidle) as Hc
  end;
  cbv zeta in Hc; unfold R_SUCCEEDED, R_FAILED in *;
  repeat match goal with
         | Hf : negb (_ =? 0) = true |- _ => apply negb_true_iff in Hf
         end;
  repeat match goal with
         | E : resolved_name = _ |- _ =>
             rewrite E in Hc
         | E : (_ =? 0) = _ |- _ => rewrite E in Hc
         end;
  repeat match type of Hc with
         | match resolved_name with _ => _ end =>
             let name := fresh "name" in
             let E := fresh "Hres" in
             destruct resolved_name as [name |] eqn:E
         | if ?b then _ else _ =>
             let E := fresh "Eb" in destruct b eqn:E
         end.

(** Finds the calls made after a given point of the record. *)
Ltac solve_later :=
  unfold teardown_calls; cbn [app];
  match goal with
  | |- exists later, ?l = later ++ ?old =>
      let rec go l acc :=
        first [ unify l old; exists (rev acc)
              | lazymatch l with ?x :: ?tl => go tl (x :: acc) end ] in
      go l (@nil ext_call)
  end;
  reflexivity.

Lemma resolved_name_cases (name : string) :
  resolved_name = Some name -> name = "bsd:s" \/ name = "bsd:u".
Proof.
  unfold resolved_name. intros Hres.
  repeat case_match; simplify_eq; auto.
Qed.

Lemma resolved_name_none :
  resolved_name = None ->
  (fst (sm_answer Control "bsd:u") =? 0) = false.
Proof.
  unfold resolved_name, R_SUCCEEDED. intros Hres.
  repeat case_match; simplify_eq; done.
Qed.

(** After an initialization from an idle state: success means both
    channels live and the region allocated, failure means all released. *)
Lemma initialize_live_or_idle (config : BsdBufferConfig) (st : session) :
  session_idle st = true ->
  (R_SUCCEEDED (fst (bsdInitialize config st)) = true ->
   srv_active (g_bsdSrv (snd (bsdInitialize config st))) = true
   /\ srv_active (g_bsdMonitor (snd (bsdInitialize config st))) = true
   /\ tmem_live (g_bsdTmem (snd (bsdInitialize config st))) = true
   /\ tmem_size (g_bsdTmem (snd (bsdInitialize config st)))
      = _bsdGetTransferMemSizeForConfig config)
  /\ (R_FAILED (fst (bsdInitialize config st)) = true ->
      session_idle (snd (bsdInitialize config st)) = true
      /\ tmem_live (g_bsdTmem (snd (bsdInitialize config st))) = false).
Proof.
  intros Hidle. stage_cases Hidle Hc.
  all: destruct Hc as (Hrc & Hstate & _); rewrite Hrc.
  all: split; intros Hr.
  all: first [ exact Hstate | discriminate Hr | congruence
             | pose proof (resolved_name_none Hres); congruence ].
Qed.

(** Every initialization from an idle state starts by looking up the
    privileged service name. *)
Lemma initialize_starts_with_lookup (config : BsdBufferConfig) (st : session) :
  session_idle st = true ->
  exists later,
    calls (snd (bsdInitialize config st))
    = later ++ [CallSmGetService Control "bsd:s"] ++ calls st.
Proof.
  intros Hidle. stage_cases Hidle Hc.
  all: destruct Hc as (_ & _ & _ & Hcalls); rewrite Hcalls.
  all: try (destruct (resolved_name_cases _ Hres) as [-> | ->]).
  all: unfold resolution_calls;
    cbn [String.eqb Ascii.eqb Bool.eqb]; solve_later.
Qed.

(** Initialization is all or nothing. Started with no channel live, it
    either returns success with both channels live and a transfer memory
    of the computed size allocated, or returns a failure with both
    channels closed and the transfer memory released. *)
Theorem initialize_all_or_nothing (config : BsdBufferConfig) (st : session) :
  session_idle st = true ->
  let rc := fst (bsdInitialize config st) in
  let st' := snd (bsdInitialize config st) in
  (R_SUCCEEDED rc = true ->
   srv_active (g_bsdSrv st') = true /\ srv_active (g_bsdMonitor st') = true
   /\ tmem_live (g_bsdTmem st') = true
   /\ tmem_size (g_bsdTmem st') = _bsdGetTransferMemSizeForConfig config)
  /\ (R_FAILED rc = true ->
      session_idle st' = true /\ tmem_live (g_bsdTmem st') = false).
Proof.
  intros Hidle. exact (initialize_live_or_idle config st Hidle).
Qed.

(** A second initialization without teardown is refused: after a
    successful [bsdInitialize], another one (with any configuration)
    returns [AlreadyInitialized], calls no collaborator and leaves the
    session as it is. *)
Theorem second_initialize_refused (config config' : BsdBufferConfig)
        (st : session) :
  session_idle st = true ->
  R_SUCCEEDED (fst (bsdInitialize config st)) = true ->
  bsdInitialize config' (snd (bsdInitialize config st))
  = (AlreadyInitialized, snd (bsdInitialize config st)).
Proof.
  intros Hidle Hok.
  destruct (initialize_live_or_idle config st Hidle) as [Hlive _].
  destruct (Hlive Hok) as (Ha & _).
  remember (snd (bsdInitialize config st)) as st' eqn:Hst'.
  unfold bsdInitialize, serviceIsActive. rewrite Ha. reflexivity.
Qed.

(** [bsdExit] closes the monitor channel, the control channel and the
    transfer memory, in that order, whatever state the session is in,
    and keeps [g_bsdClientPid]; an initialization that follows is not
    refused but starts by looking up the privileged service name. *)
Theorem exit_reenables_initialize (config : BsdBufferConfig) (st : session) :
  let st1 := snd (bsdExit st) in
  session_idle st1 = true /\ tmem_live (g_bsdTmem st1) = false
  /\ g_bsdClientPid st1 = g_bsdClientPid st
  /\ calls st1 = teardown_calls ++ calls st
  /\ exists later,
      calls (snd (bsdInitialize config st1))
      = later ++ [CallSmGetService Control "bsd:s"] ++ calls st1.
Proof.
  intros st1.
  repeat (split; [reflexivity |]).
  apply initialize_starts_with_lookup. reflexivity.
Qed.

(** The privileged service name is tried first and the unprivileged one
    only after it failed; the monitor channel is looked up under the name
    that worked for the control channel. When neither name resolves,
    initialization returns the second lookup's error after a teardown,
    without allocating memory or dispatching anything. *)
Theorem service_name_fallback (config : BsdBufferConfig) (st : session) :
  session_idle st = true ->
  (R_SUCCEEDED (fst (sm_answer Control "bsd:s")) = true ->
   exists later,
     calls (snd (bsdInitialize config st))
     = later ++ [CallSmGetService Monitor "bsd:s";
                 CallSmGetService Control "bsd:s"] ++ calls st)
  /\ (R_FAILED (fst (sm_answer Control "bsd:s")) = true ->
      R_SUCCEEDED (fst (sm_answer Control "bsd:u")) = true ->
      exists later,
        calls (snd (bsdInitialize config st))
        = later ++ [CallSmGetService Monitor "bsd:u";
                    CallSmGetService Control "bsd:u";
                    CallSmGetService Control "bsd:s"] ++ calls st)
  /\ (R_FAILED (fst (sm_answer Control "bsd:s")) = true ->
      R_FAILED (fst (sm_answer Control "bsd:u")) = true ->
      fst (bsdInitialize config st) = fst (sm_answer Control "bsd:u")
      /\ calls (snd (bsdInitialize config st))
         = teardown_calls ++ [CallSmGetService Control "bsd:u";
                              CallSmGetService Control "bsd:s"] ++ calls st).
Proof.
  intros Hidle. split; [| split].
  - intros Hs.
    assert (Hres : resolved_name = Some "bsd:s")
      by (unfold resolved_name; by rewrite Hs).
    stage_cases Hidle Hc.
    all: destruct Hc as (_ & _ & _ & Hcalls); rewrite Hcalls.
    all: unfold resolution_calls;
      cbn [String.eqb Ascii.eqb Bool.eqb]; solve_later.
  - intros Hs Hu.
    assert (Hres : resolved_name = Some "bsd:u").
    { unfold resolved_name, R_FAILED, R_SUCCEEDED in *.
      apply negb_true_iff in Hs. by rewrite Hs, Hu. }
    stage_cases Hidle Hc.
    all: destruct Hc as (_ & _ & _ & Hcalls); rewrite Hcalls.
    all: unfold resolution_calls;
      cbn [String.eqb Ascii.eqb Bool.eqb]; solve_later.
  - intros Hs Hu.
    assert (Hres : resolved_name = None).
    { unfold resolved_name, R_FAILED, R_SUCCEEDED in *.
      apply negb_true_iff in Hs. apply negb_true_iff in Hu.
      by rewrite Hs, Hu. }
    stage_cases Hidle Hc.
    destruct Hc as (Hrc & _ & _ & Hcalls). by split.
Qed.

(** The transfer memory is requested with the size computed from the
    configuration and permission 0, once both channels are resolved. If
    the allocation fails, initialization returns its error after a
    teardown and no message is ever dispatched. *)
Theorem allocation_failure_stops (config : BsdBufferConfig) (st : session)
        (name : string) :
  session_idle st = true ->
  resolved_name = Some name ->
  R_SUCCEEDED (fst (sm_answer Monitor name)) = true ->
  R_FAILED (fst (tmem_answer (_bsdGetTransferMemSizeForConfig config) 0))
  = true ->
  fst (bsdInitialize config st)
  = fst (tmem_answer (_bsdGetTransferMemSizeForConfig config) 0)
  /\ calls (snd (bsdInitialize config st))
     = teardown_calls
       ++ [CallTmemCreate (_bsdGetTransferMemSizeForConfig config) 0]
       ++ resolution_calls name ++ calls st.
Proof.
  intros Hidle Hres Hmon Htm. stage_cases Hidle Hc.
  destruct Hc as (Hrc & _ & _ & Hcalls). by split.
Qed.

(** Once both channels are resolved and the region is allocated, the
    first message of the session is the registration over the control
    channel: it sends the process id, a copy of the region's handle, the
    configuration as given and the size the region was allocated with. *)
Theorem registration_message_sent (config : BsdBufferConfig) (st : session)
        (name : string) :
  session_idle st = true ->
  resolved_name = Some name ->
  R_SUCCEEDED (fst (sm_answer Monitor name)) = true ->
  R_SUCCEEDED (fst (tmem_answer (_bsdGetTransferMemSizeForConfig config) 0))
  = true ->
  exists later,
    calls (snd (bsdInitialize config st))
    = later
      ++ [CallDispatch Control
            (register_message config
               (snd (tmem_answer (_bsdGetTransferMemSizeForConfig config) 0)));
          CallTmemCreate (_bsdGetTransferMemSizeForConfig config) 0]
      ++ resolution_calls name ++ calls st.
Proof.
  intros Hidle Hres Hmon Htm. stage_cases Hidle Hc.
  all: destruct Hc as (_ & _ & _ & Hcalls); rewrite Hcalls; solve_later.
Qed.

(** A failed registration ends the initialization with a teardown and
    without a start-monitor message. If the transport call failed, its
    error is returned and [g_bsdClientPid] is untouched. If the
    transport call succeeded but the reply's status is a failure, the
    status (its low 32 bits) is returned, and [g_bsdClientPid] has
    nevertheless been overwritten with the reply's pid field, which the
    teardown does not reset. *)
Theorem registration_failure (config : BsdBufferConfig) (st : session)
        (name : string) :
  session_idle st = true ->
  resolved_name = Some name ->
  R_SUCCEEDED (fst (sm_answer Monitor name)) = true ->
  R_SUCCEEDED (fst (tmem_answer (_bsdGetTransferMemSizeForConfig config) 0))
  = true ->
  let m := register_message config
             (snd (tmem_answer (_bsdGetTransferMemSizeForConfig config) 0)) in
  let trace := teardown_calls
               ++ [CallDispatch Control m;
                   CallTmemCreate (_bsdGetTransferMemSizeForConfig config) 0]
               ++ resolution_calls name ++ calls st in
  (R_FAILED (fst (ipc_answer Control m)) = true ->
   fst (bsdInitialize config st) = fst (ipc_answer Control m)
   /\ g_bsdClientPid (snd (bsdInitialize config st)) = g_bsdClientPid st
   /\ calls (snd (bsdInitialize config st)) = trace)
  /\ (R_SUCCEEDED (fst (ipc_answer Control m)) = true ->
      R_FAILED (u32 (s_result (snd (ipc_answer Control m)))) = true ->
      fst (bsdInitialize config st)
      = u32 (s_result (snd (ipc_answer Control m)))
      /\ g_bsdClientPid (snd (bsdInitialize config st))
         = s_pid (snd (ipc_answer Control m))
      /\ calls (snd (bsdInitialize config st)) = trace).
Proof.
  intros Hidle Hres Hmon Htm m trace. subst m trace. split.
  - intros Hf. stage_cases Hidle Hc.
    destruct Hc as (Hrc & _ & Hpid & Hcalls). by repeat split.
  - intros Hok Hf. stage_cases Hidle Hc.
    destruct Hc as (Hrc & _ & Hpid & Hcalls). by repeat split.
Qed.

(** After a successful registration the start-monitor message goes over
    the monitor channel with the process id the server assigned in the
    registration reply, and [g_bsdClientPid] holds that id. If the
    monitor starts, initialization returns success and nothing is torn
    down; if it does not, a teardown follows and a failure is returned. *)
Theorem monitor_started_with_assigned_pid (config : BsdBufferConfig)
        (st : session) (name : string) :
  session_idle st = true ->
  resolved_name = Some name ->
  R_SUCCEEDED (fst (sm_answer Monitor name)) = true ->
  R_SUCCEEDED (fst (tmem_answer (_bsdGetTransferMemSizeForConfig config) 0))
  = true ->
  let m := register_message config
             (snd (tmem_answer (_bsdGetTransferMemSizeForConfig config) 0)) in
  R_SUCCEEDED (fst (ipc_answer Control m)) = true ->
  R_SUCCEEDED (u32 (s_result (snd (ipc_answer Control m)))) = true ->
  let pid := s_pid (snd (ipc_answer Control m)) in
  let mm := monitor_message pid in
  let trace := [CallDispatch Monitor mm; CallDispatch Control m;
                CallTmemCreate (_bsdGetTransferMemSizeForConfig config) 0]
               ++ resolution_calls name ++ calls st in
  g_bsdClientPid (snd (bsdInitialize config st)) = pid
  /\ (R_SUCCEEDED (fst (ipc_answer Monitor mm)) = true ->
      R_SUCCEEDED (u32 (s_result (snd (ipc_answer Monitor mm)))) = true ->
      fst (bsdInitialize config st) = 0
      /\ calls (snd (bsdInitialize config st)) = trace)
  /\ (R_FAILED (fst (ipc_answer Monitor mm)) = true
      \/ R_FAILED (u32 (s_result (snd (ipc_answer Monitor mm)))) = true ->
      R_FAILED (fst (bsdInitialize config st)) = true
      /\ calls (snd (bsdInitialize config st)) = teardown_calls ++ trace).
Proof.
  intros Hidle Hres Hmon Htm m Hreg Hst pid mm trace.
  subst m pid mm trace. stage_cases Hidle Hc.
  all: destruct Hc as (Hrc & _ & Hpid & Hcalls).
  all: split; [exact Hpid |]; split.
  - intros _ _. by split.
  - intros [Hf | Hf]; apply negb_true_iff in Hf; congruence.
  - intros _ Hb. congruence.
  - intros _. split; [| exact Hcalls].
    rewrite Hrc. by apply negb_true_iff.
  - intros Ha. congruence.
  - intros _. split; [| exact Hcalls].
    rewrite Hrc. by apply negb_true_iff.
Qed.

End SessionFacts.

(** ** The further theorems at concrete inputs *)

Lemma status_failure_is_EPIPE_witness :
  exists r w' m,
    @exec bsd_lp64_headers failing_status_server (Recv 3 1000 16 0) sample_world
    = Some (r, w')
    /\ sent w' = m :: sent sample_world
    /\ r = -1 /\ errno w' = 32 /\ parsed w' = 1%nat
    /\ stores w' = [].
Proof.
  destruct (@status_failure_is_EPIPE bsd_lp64_headers failing_status_server
              (Recv 3 1000 16 0) sample_world eq_refl eq_refl)
    as (r & w' & m & E & Hs & Hpost).
  exists r, w', m. split; [exact E |]. split; [exact Hs |].
  destruct (Hpost eq_refl eq_refl) as (Hr & He & Hp & Hst & _).
  repeat split; assumption.
Defined.

Lemma success_returns_reply_fields_witness :
  exists r w' m,
    @exec bsd_lp64_headers wide_status_server (Recv 3 1000 16 0) sample_world
    = Some (r, w')
    /\ sent w' = m :: sent sample_world
    /\ r = 7 /\ errno w' = 11 /\ parsed w' = 1%nat.
Proof.
  destruct (@success_returns_reply_fields bsd_lp64_headers wide_status_server
              (Recv 3 1000 16 0) sample_world eq_refl eq_refl)
    as (r & w' & m & E & Hs & Hpost).
  exists r, w', m. split; [exact E |]. split; [exact Hs |].
  apply (Hpost eq_refl eq_refl).
Defined.

Lemma one_message_per_call_witness :
  exists r w' m rest,
    @exec bsd_lp64_headers accepting_server (Listen 3 5) sample_world
    = Some (r, w')
    /\ sent w' = m :: sent sample_world
    /\ m_raw m = ("magic", 0x49434653) :: ("cmd_id", 18) :: rest.
Proof.
  destruct (@one_message_per_call bsd_lp64_headers accepting_server
              (Listen 3 5) sample_world eq_refl eq_refl)
    as (r & w' & m & rest & E & Hs & Hraw & _).
  exists r, w', m, rest. repeat split; assumption.
Defined.

Lemma no_write_back_elsewhere_witness :
  exists r w',
    @exec bsd_lp64_headers filling_server
      (Ioctl 3 (to_int 0xC0106924) [VaPtr 200]) sample_world = Some (r, w')
    /\ stores w' = []
    /\ mem sample_world !! 200 = Some (Oifconf 64 208)
    /\ mem w' !! 200 = Some (Oifconf 32 208).
Proof.
  destruct (@no_write_back_elsewhere bsd_lp64_headers filling_server
              (Ioctl 3 (to_int 0xC0106924) [VaPtr 200]) sample_world
              eq_refl eq_refl)
    as (r & w' & E & Hst & [(Hrej & _) | (m & Hs & Hm)]).
  - discriminate Hrej.
  - exists r, w'. split; [exact E |]. split; [exact Hst |].
    split; [reflexivity |].
    vm_compute in E. injection E as <- <-.
    injection Hs as <-. rewrite Hm. reflexivity.
Defined.

Lemma select_message_witness :
  exists r w',
    @exec bsd_lp64_headers accepting_server (Select 8 1100 1200 0 500)
      sample_world2 = Some (r, w')
    /\ exists m, sent w' = m :: sent sample_world2
                 /\ m_raw m = [("magic", 0x49434653); ("cmd_id", 5);
                               ("nfds", 8); ("timeout.tv_sec", 2);
                               ("timeout.tv_usec", 500000);
                               ("nullTimeout", 0)].
Proof.
  destruct (@select_message bsd_lp64_headers accepting_server
              8 1100 1200 0 500 sample_world2) as [_ Htv].
  destruct (Htv 2 500000) as (r & w' & E & Hs).
  - discriminate.
  - reflexivity.
  - exists r, w'. split; [exact E |]. eexists. split; [exact Hs |].
    reflexivity.
Defined.

Lemma open_path_capped_witness :
  exists r w' n,
    @exec bsd_lp64_headers accepting_server (Open 600 2) sample_world2
    = Some (r, w')
    /\ sent w'
       = {| m_descs := send_pair 600 n 0;
            m_raw := [("magic", 0x49434653); ("cmd_id", 4); ("flags", 2)] |}
         :: sent sample_world2
    /\ n = 10.
Proof.
  destruct (@open_path_capped bsd_lp64_headers accepting_server 600 2
              [47; 100; 101; 118; 47; 116; 116; 121; 83; 48] sample_world2
              eq_refl)
    as (r & w' & n & E & Hs & _ & Hn & _).
  exists r, w', n. split; [exact E |]. split; [exact Hs |].
  apply Hn. simpl. lia.
Defined.

Lemma name_getter_capacity_witness :
  exists r w',
    @exec bsd_lp64_headers accepting_server (Accept 3 1000 100) sample_world
    = Some (r, w')
    /\ sent w'
       = {| m_descs := recv_pair 1000 16 0;
            m_raw := [("magic", 0x49434653); ("cmd_id", 12); ("sockfd", 3)] |}
         :: sent sample_world.
Proof.
  destruct (@name_getter_capacity bsd_lp64_headers accepting_server
              (Accept 3 1000 100) 3 1000 100 sample_world (or_introl eq_refl))
    as [_ Hcap].
  apply (Hcap 16); [discriminate | reflexivity].
Defined.

Lemma sysctl_message_witness :
  exists r w' namesz inlen,
    @exec bsd_lp64_headers accepting_server (Sysctl 700 2 800 400 0 0)
      sample_world2 = Some (r, w')
    /\ sent w'
       = {| m_descs := send_pair 700 namesz 0 ++ send_pair 0 0 0
                       ++ recv_pair 800 inlen 0;
            m_raw := [("magic", 0x49434653); ("cmd_id", 7)] |}
         :: sent sample_world2
    /\ namesz = 8 /\ inlen = 40.
Proof.
  destruct (@sysctl_message bsd_lp64_headers accepting_server
              700 2 800 400 0 0 sample_world2)
    as (r & w' & namesz & inlen & E & Hs & _ & Hname & _ & Hin).
  - lia.
  - reflexivity.
  - exists r, w', namesz, inlen. split; [exact E |]. split; [exact Hs |].
    split; [apply Hname; lia |]. apply Hin; [discriminate | reflexivity].
Defined.

Lemma sysctl_oldlen_written_iff_witness :
  exists r w' m,
    @exec bsd_lp64_headers accepting_server (Sysctl 700 2 800 400 0 0)
      sample_world2 = Some (r, w')
    /\ sent w' = m :: sent sample_world2
    /\ r = 5 /\ stores w' = [(400, Osize 28)]
    /\ mem w' !! 400 = Some (Osize 28).
Proof.
  destruct (@sysctl_oldlen_written_iff bsd_lp64_headers accepting_server
              700 2 800 400 0 0 sample_world2 eq_refl)
    as (r & w' & m & E & Hs & Hyes & _).
  exists r, w', m. split; [exact E |]. split; [exact Hs |].
  assert (Hr : r = 5) by (vm_compute in E; congruence).
  split; [exact Hr |].
  destruct Hyes as (Hst & Hmem).
  { split; [rewrite Hr; discriminate | discriminate]. }
  split; [exact Hst |].
  rewrite Hmem. apply lookup_insert_eq.
Defined.

Lemma fcntl_never_reads_arguments_witness :
  exists r w',
    (forall args,
        @exec bsd_lp64_headers accepting_server (Fnctl 3 2 args) sample_world
        = Some (r, w'))
    /\ sent w'
       = {| m_descs := [];
            m_raw := [("magic", 0x49434653); ("cmd_id", 20); ("fd", 3);
                      ("cmd", 2); ("arg", 0)] |} :: sent sample_world.
Proof.
  apply (@fcntl_never_reads_arguments bsd_lp64_headers accepting_server
           3 2 sample_world); discriminate.
Defined.

Lemma ioctl_direction_bits_witness :
  exists r w',
    @exec bsd_lp64_headers accepting_server
      (Ioctl 3 (to_int 0x8004667E) [VaPtr 900]) sample_world = Some (r, w')
    /\ sent w'
       = {| m_descs := ioctl_one_buffer 900 4 NULL 0;
            m_raw := [("magic", 0x49434653); ("cmd_id", 19); ("fd", 3);
                      ("request", to_int 0x8004667E); ("bufcount", 1)] |}
         :: sent sample_world.
Proof.
  destruct (@ioctl_direction_bits bsd_lp64_headers accepting_server
              3 (to_int 0x8004667E) sample_world)
    as (_ & Hin & _).
  - reflexivity.
  - vm_compute. discriminate.
  - vm_compute. discriminate.
  - vm_compute. discriminate.
  - apply (Hin 900 []).
    + vm_compute. discriminate.
    + reflexivity.
Defined.

Lemma ioctl_sixteen_descriptors_witness :
  exists r w' m bufcount,
    @exec bsd_lp64_headers accepting_server
      (Ioctl 3 (to_int 0xC0106924) [VaPtr 200]) sample_world = Some (r, w')
    /\ sent w' = m :: sent sample_world
    /\ length (m_descs m) = 16%nat
    /\ bufcount = 2.
Proof.
  destruct (@ioctl_sixteen_descriptors bsd_lp64_headers accepting_server
              3 (to_int 0xC0106924) [VaPtr 200] sample_world eq_refl)
    as (r & w' & m & bc & E & Hs & Hk & _ & Hbc & _).
  exists r, w', m, bc. split; [exact E |]. split; [exact Hs |]. split.
  - rewrite <- (length_map d_kind), Hk. reflexivity.
  - apply Hbc. left. reflexivity.
Defined.

Lemma index_zero_except_sendto_witness :
  exists r w',
    @exec bsd_lp64_headers accepting_server (Send 3 1000 16 0) sample_world
    = Some (r, w')
    /\ forall m, sent w' = m :: sent sample_world ->
                 forall d, In d (m_descs m) -> d_flag d = 0.
Proof.
  apply (@index_zero_except_sendto bsd_lp64_headers accepting_server
           (Send 3 1000 16 0) sample_world eq_refl eq_refl).
Defined.

Lemma paired_except_recvfrom_witness :
  exists r w',
    @exec bsd_lp64_headers accepting_server
      (Select 8 1100 1200 0 0) sample_world = Some (r, w')
    /\ forall m, sent w' = m :: sent sample_world ->
                 paired (m_descs m) = true.
Proof.
  apply (@paired_except_recvfrom bsd_lp64_headers accepting_server
           (Select 8 1100 1200 0 0) sample_world eq_refl eq_refl).
Defined.

Lemma opcodes_identify_operations_witness :
  kind_of (Send 3 1000 16 0) = kind_of (Send 4 2000 7 1).
Proof.
  eapply (@opcodes_identify_operations bsd_lp64_headers accepting_server
            (Send 3 1000 16 0) (Send 4 2000 7 1) sample_world sample_world2).
  - reflexivity.
  - reflexivity.
  - vm_compute. reflexivity.
  - reflexivity.
  - vm_compute. reflexivity.
  - reflexivity.
  - reflexivity.
Defined.

Lemma transfer_mem_size_ignores_witness :
  _bsdGetTransferMemSizeForConfig g_defaultBsdBufferConfig
  = _bsdGetTransferMemSizeForConfig second_version_config.
Proof.
  apply (transfer_mem_size_ignores Fversion).
  - intros g Hg. destruct g; try reflexivity. by destruct Hg.
  - left. reflexivity.
Defined.

Lemma transfer_mem_size_covers_buffers_witness :
  sb_efficiency g_defaultBsdBufferConfig * spec_sum g_defaultBsdBufferConfig
  <= _bsdGetTransferMemSizeForConfig g_defaultBsdBufferConfig
  /\ _bsdGetTransferMemSizeForConfig g_defaultBsdBufferConfig
     <= sb_efficiency g_defaultBsdBufferConfig
        * (spec_sum g_defaultBsdBufferConfig + 4095).
Proof.
  apply (transfer_mem_size_covers_buffers g_defaultBsdBufferConfig).
  - exact wf_config_default.
  - reflexivity.
Defined.

Lemma initialize_all_or_nothing_witness :
  srv_active (g_bsdSrv
    (snd (@bsdInitialize bsd_lp64_headers sample_system
            g_defaultBsdBufferConfig initial_session))) = true
  /\ tmem_size (g_bsdTmem
       (snd (@bsdInitialize bsd_lp64_headers sample_system
               g_defaultBsdBufferConfig initial_session))) = 0x234000
  /\ session_idle
       (snd (@bsdInitialize bsd_lp64_headers refusing_system
               g_defaultBsdBufferConfig initial_session)) = true.
Proof.
  destruct (@initialize_all_or_nothing bsd_lp64_headers sample_system
              g_defaultBsdBufferConfig initial_session eq_refl)
    as [Hok _].
  destruct (@initialize_all_or_nothing bsd_lp64_headers refusing_system
              g_defaultBsdBufferConfig initial_session eq_refl)
    as [_ Hko].
  destruct (Hok eq_refl) as (Ha & _ & _ & Hsz).
  destruct (Hko eq_refl) as (Hidle & _).
  split; [exact Ha |]. split; [exact Hsz | exact Hidle].
Defined.

Lemma second_initialize_refused_witness :
  fst (@bsdInitialize bsd_lp64_headers sample_system second_version_config
         (snd (@bsdInitialize bsd_lp64_headers sample_system
                 g_defaultBsdBufferConfig initial_session))) = 857.
Proof.
  rewrite (@second_initialize_refused bsd_lp64_headers sample_system
             g_defaultBsdBufferConfig second_version_config initial_session
             eq_refl eq_refl).
  reflexivity.
Defined.

Lemma service_name_fallback_witness :
  exists later,
    calls (snd (@bsdInitialize bsd_lp64_headers refusing_system
                  g_defaultBsdBufferConfig initial_session))
    = later ++ [CallSmGetService Monitor "bsd:u";
                CallSmGetService Control "bsd:u";
                CallSmGetService Control "bsd:s"] ++ calls initial_session.
Proof.
  destruct (@service_name_fallback bsd_lp64_headers refusing_system
              g_defaultBsdBufferConfig initial_session eq_refl)
    as (_ & Hu & _).
  apply Hu; reflexivity.
Defined.

Lemma allocation_failure_stops_witness :
  fst (@bsdInitialize bsd_lp64_headers no_memory_system
         g_defaultBsdBufferConfig initial_session) = 0xD401
  /\ calls (snd (@bsdInitialize bsd_lp64_headers no_memory_system
                   g_defaultBsdBufferConfig initial_session))
     = [CallTmemClose; CallServiceClose Control; CallServiceClose Monitor;
        CallTmemCreate 0x234000 0;
        CallSmGetService Monitor "bsd:s"; CallSmGetService Control "bsd:s"].
Proof.
  apply (@allocation_failure_stops bsd_lp64_headers no_memory_system
           g_defaultBsdBufferConfig initial_session "bsd:s"
           eq_refl eq_refl eq_refl eq_refl).
Defined.

Lemma registration_message_sent_witness :
  exists later,
    calls (snd (@bsdInitialize bsd_lp64_headers sample_system
                  g_defaultBsdBufferConfig initial_session))
    = later
      ++ [CallDispatch Control
            (@register_message bsd_lp64_headers g_defaultBsdBufferConfig 77);
          CallTmemCreate 0x234000 0;
          CallSmGetService Monitor "bsd:s"; CallSmGetService Control "bsd:s"].
Proof.
  apply (@registration_message_sent bsd_lp64_headers sample_system
           g_defaultBsdBufferConfig initial_session "bsd:s"
           eq_refl eq_refl eq_refl eq_refl).
Defined.

Lemma registration_failure_witness :
  fst (@bsdInitialize bsd_lp64_headers refusing_system
         g_defaultBsdBufferConfig initial_session) = 0x7D402
  /\ g_bsdClientPid
       (snd (@bsdInitialize bsd_lp64_headers refusing_system
               g_defaultBsdBufferConfig initial_session)) = 4242.
Proof.
  destruct (@registration_failure bsd_lp64_headers refusing_system
              g_defaultBsdBufferConfig initial_session "bsd:u"
              eq_refl eq_refl eq_refl eq_refl)
    as [_ Hst].
  destruct (Hst eq_refl eq_refl) as (Hrc & Hpid & _).
  split; [exact Hrc | exact Hpid].
Defined.

Lemma monitor_started_with_assigned_pid_witness :
  g_bsdClientPid
    (snd (@bsdInitialize bsd_lp64_headers sample_system
            g_defaultBsdBufferConfig initial_session)) = 4242
  /\ fst (@bsdInitialize bsd_lp64_headers sample_system
            g_defaultBsdBufferConfig initial_session) = 0
  /\ calls (snd (@bsdInitialize bsd_lp64_headers sample_system
                   g_defaultBsdBufferConfig initial_session))
     = [CallDispatch Monitor (@monitor_message bsd_lp64_headers 4242);
        CallDispatch Control
          (@register_message bsd_lp64_headers g_defaultBsdBufferConfig 77);
        CallTmemCreate 0x234000 0;
        CallSmGetService Monitor "bsd:s"; CallSmGetService Control "bsd:s"].
Proof.
  destruct (@monitor_started_with_assigned_pid bsd_lp64_headers sample_system
              g_defaultBsdBufferConfig initial_session "bsd:s"
              eq_refl eq_refl eq_refl eq_refl eq_refl eq_refl)
    as (Hpid & Hok & _).
  split; [exact Hpid |]. apply (Hok eq_refl eq_refl).
Defined.
